(** * mcp-bundler: bundles, connections, configuration synthesis, share codec

    A shallow embedding of the JavaScript sources

    - the store script (the revision with per-bundle operations and the
      [connections] store; [js/store.js] is an older revision with the same
      [cache]): the Alpine stores [bundles], [connections] (with the
      credentials of a connection) and [cache];
    - [js/serverUtils.js]: the package configuration synthesizer and the
      choice of a package;
    - the application script: [packBundle], [unpackBundle], [shareBundle],
      [importFromURL], [confirmImport], [exportClaudeFormat], the server list
      of [exportCustomFormat], the package objects of
      [transformServersFromDB], and the base64 helpers of the encryption
      utilities;

    followed by the properties of the specification that concern them and by
    further properties of the same functions.

    Conventions of the embedding.

    - A JavaScript string whose contents matter only up to equality (ids,
      variable names, argument values) is a [string].  The bundle name and the
      strings of a parsed JSON text are sequences of UTF-16 code units
      ([jsstring]), because the codec measures their UTF-8 encoding.
    - An object used as a dictionary is a [gmap]; an array is a [list]; a field
      that may be missing on an object is an [option].
    - [throw new Error(msg)] is [Throw msg]; a function that may throw returns a
      [Result].
    - The stores mutate objects in place.  The embedding passes the array of a
      store in and out explicitly; the mutated object is written back at the
      position [getById] found it.
    - [Date.now()] is an explicit argument [now], in milliseconds;
      [new Date().toISOString()] is represented by the same instant.
    - Writing to [localStorage] ([save], [debouncedSave]) and logging have no
      effect on the values studied here and are left out. *)

From Stdlib Require Import ZArith List String Ascii Lia Bool Sorted.
From stdpp Require Import base option list gmap strings pretty.
Import ListNotations.
Local Open Scope string_scope.
Local Open Scope list_scope.
Local Open Scope Z_scope.
Set Warnings "-register-all".

(** ** Exceptions *)

Inductive Result (A : Type) : Type :=
| Ok (a : A)
| Throw (msg : string).

Arguments Ok {A} a.
Arguments Throw {A} msg.

#[global] Instance Result_ret : MRet Result := fun A a => Ok a.

#[global] Instance Result_bind : MBind Result := fun A B f r =>
  match r with
  | Ok a => f a
  | Throw msg => Throw msg
  end.

#[global] Instance Result_fmap : FMap Result := fun A B f r =>
  match r with
  | Ok a => Ok (f a)
  | Throw msg => Throw msg
  end.

Definition isOk {A} (r : Result A) : bool :=
  match r with Ok _ => true | Throw _ => false end.

(** ** JavaScript strings and truthiness *)

Module Js.

(** A non-empty string is truthy, the empty string is falsy. *)
Definition truthy (s : string) : bool := negb (String.eqb s EmptyString).

(** [a || b] on strings. *)
Definition or_else (a b : string) : string := if truthy a then a else b.

(** [s.includes(pat)] *)
Fixpoint includes (s pat : string) : bool :=
  String.prefix pat s ||
  match s with
  | EmptyString => false
  | String _ s' => includes s' pat
  end.

(** [s.replace(pat, rep)] with a string pattern: the first occurrence only. *)
Fixpoint replace (pat rep s : string) : string :=
  if String.prefix pat s
  then rep +:+ String.substring (String.length pat) (String.length s - String.length pat) s
  else match s with
       | EmptyString => EmptyString
       | String c s' => String c (replace pat rep s')
       end.

Definition upper_ascii (c : ascii) : ascii :=
  let n := nat_of_ascii c in
  if (97 <=? n)%nat && (n <=? 122)%nat then ascii_of_nat (n - 32) else c.

(** [s.toUpperCase()], on the ASCII letters. *)
Fixpoint toUpperCase (s : string) : string :=
  match s with
  | EmptyString => EmptyString
  | String c s' => String (upper_ascii c) (toUpperCase s')
  end.

(** [arr.includes(x)] on an array of strings. *)
Definition arr_includes (arr : list string) (x : string) : bool :=
  existsb (String.eqb x) arr.

(** A string of UTF-16 code units. *)
Definition jsstring : Type := list Z.

(** The code units of an ASCII literal. *)
Definition lit (s : string) : jsstring :=
  map (fun c => Z.of_nat (nat_of_ascii c)) (list_ascii_of_string s).

(** White space and line terminators, as [String.prototype.trim] strips. *)
Definition is_space (c : Z) : bool :=
  (9 <=? c) && (c <=? 13) || (c =? 32) || (c =? 160) || (c =? 5760) ||
  (8192 <=? c) && (c <=? 8202) || (c =? 8232) || (c =? 8233) ||
  (c =? 8239) || (c =? 8287) || (c =? 12288) || (c =? 65279).

Fixpoint trimStart (s : jsstring) : jsstring :=
  match s with
  | c :: s' => if is_space c then trimStart s' else s
  | [] => []
  end.

(** [s.trim()] *)
Definition trim (s : jsstring) : jsstring := rev (trimStart (rev (trimStart s))).

Fixpoint trimStart_ascii (s : list ascii) : list ascii :=
  match s with
  | c :: s' => if is_space (Z.of_nat (nat_of_ascii c)) then trimStart_ascii s' else s
  | [] => []
  end.

(** [s.trim()] on a [string]. *)
Definition trim_string (s : string) : string :=
  string_of_list_ascii
    (rev (trimStart_ascii (rev (trimStart_ascii (list_ascii_of_string s))))).

(** [value && value.trim()], as a condition, for a value that may be
    missing. *)
Definition nonblank (value : option string) : bool :=
  match value with
  | Some value => truthy value && truthy (trim_string value)
  | None => false
  end.

Definition lower_ascii (c : ascii) : ascii :=
  let n := nat_of_ascii c in
  if (65 <=? n)%nat && (n <=? 90)%nat then ascii_of_nat (n + 32) else c.

(** [arr.findIndex(p)]; [None] is [-1]. *)
Fixpoint findIndex {A} (p : A -> bool) (arr : list A) : option nat :=
  match arr with
  | [] => None
  | x :: rest => if p x then Some 0%nat else S <$> findIndex p rest
  end.

End Js.

(** ** The data model of [store.js] *)

(** An element of [bundle.servers]: the old format stores the bare server id,
    the new format an object. *)
Inductive ServerEntry : Type :=
| OldEntry (serverId : string)
| NewEntry (serverId : string) (packageIndex : Z) (connectionId : option string).

Module Bundle.

(** [connections] is not set by any function of the store; [connections.delete]
    reads it.  [serverConnections] maps a server id to a connection id. *)
Record t : Type := mk {
  id : string;
  name : Js.jsstring;
  description : Js.jsstring;
  servers : option (list ServerEntry);
  serverConnections : option (gmap string string);
  connections : option (list string);
  created : Z;
  updated : Z;
  tags : list string
}.

Definition with_servers (l : list ServerEntry) (b : t) : t :=
  mk (id b) (name b) (description b) (Some l) (serverConnections b)
     (connections b) (created b) (updated b) (tags b).

Definition with_serverConnections (m : gmap string string) (b : t) : t :=
  mk (id b) (name b) (description b) (servers b) (Some m)
     (connections b) (created b) (updated b) (tags b).

Definition with_updated (now : Z) (b : t) : t :=
  mk (id b) (name b) (description b) (servers b) (serverConnections b)
     (connections b) (created b) now (tags b).

End Bundle.

Module Connection.

Record t : Type := mk {
  id : string;
  name : Js.jsstring;
  serverId : string;
  packageId : string;
  credentials : gmap string string;
  created : Z;
  updated : Z
}.

End Connection.

(** What a lookup hands back: [null], [undefined] or an object. *)
Inductive Ref (A : Type) : Type :=
| Null
| Undefined
| Obj (a : A).

Arguments Null {A}.
Arguments Undefined {A}.
Arguments Obj {A} a.

(** ** [Alpine.store('connections')] *)

Module Connections.

(** [create(name, serverId, packageId, credentials)]; [rnd] is the text of
    [Math.random().toString(36).substr(2, 9)]. *)
Definition create (now : Z) (rnd : string) (items : list Connection.t)
    (name : Js.jsstring) (serverId packageId : string)
    (credentials : gmap string string) : list Connection.t * Connection.t :=
  let connection :=
    Connection.mk ("conn_" +:+ pretty now +:+ "_" +:+ rnd) (Js.trim name)
                  serverId packageId credentials now now in
  (items ++ [connection], connection).

(** [items.findIndex(c => c.id === connectionId)]; [None] is [-1]. *)
Fixpoint findIndex (items : list Connection.t) (connectionId : string) : option nat :=
  match items with
  | [] => None
  | c :: rest =>
      if String.eqb (Connection.id c) connectionId then Some 0%nat
      else S <$> findIndex rest connectionId
  end.

(** [arr.splice(index, 1)] *)
Definition splice1 {A} (index : nat) (arr : list A) : list A :=
  take index arr ++ drop (S index) arr.

(** [bundle.connections && bundle.connections.includes(connectionId)] *)
Definition usedBy (connectionId : string) (bundle : Bundle.t) : bool :=
  match Bundle.connections bundle with
  | None => false
  | Some l => Js.arr_includes l connectionId
  end.

(** [delete(connectionId)]; [bundles] is [Alpine.store('bundles').items]. *)
Definition delete (bundles : list Bundle.t) (items : list Connection.t)
    (connectionId : string) : Result (list Connection.t * bool) :=
  match findIndex items connectionId with
  | None => Throw "Connection not found"
  | Some index =>
      let isUsed := existsb (usedBy connectionId) bundles in
      if isUsed
      then Throw "Cannot delete connection - it is used in one or more bundles"
      else Ok (splice1 index items, true)
  end.

(** [get(connectionId)]: [find] gives [undefined] when nothing matches. *)
Definition get (items : list Connection.t) (connectionId : string) : Ref Connection.t :=
  match List.find (fun c => String.eqb (Connection.id c) connectionId) items with
  | Some c => Obj c
  | None => Undefined
  end.

End Connections.

(** ** [Alpine.store('bundles')] *)

Module Bundles.

(** [getById(bundleId)] *)
Definition getById (items : list Bundle.t) (bundleId : string) : option Bundle.t :=
  List.find (fun b => String.eqb (Bundle.id b) bundleId) items.

(** The object [getById] returned is mutated in place: the first element with
    that id takes the new contents. *)
Fixpoint put (b' : Bundle.t) (items : list Bundle.t) : list Bundle.t :=
  match items with
  | [] => []
  | b :: rest =>
      if String.eqb (Bundle.id b) (Bundle.id b') then b' :: rest
      else b :: put b' rest
  end.

(** [create(name, description)] *)
Definition create (now : Z) (items : list Bundle.t)
    (name description : Js.jsstring) : list Bundle.t * Bundle.t :=
  let bundle :=
    Bundle.mk (pretty now) (Js.trim name) (Js.trim description)
              (Some []) (Some ∅) None now now [] in
  (items ++ [bundle], bundle).

(** The callback shared by [addServer], [removeServer] and [attachConnection]:
    [(typeof s === 'string' && s === serverId) ||
     (typeof s === 'object' && s.serverId === serverId)] *)
Definition isServer (serverId : string) (s : ServerEntry) : bool :=
  match s with
  | OldEntry x => String.eqb x serverId
  | NewEntry x _ _ => String.eqb x serverId
  end.

(** Truthiness of what [servers.find] returned: [undefined] and the empty
    string are falsy, an object and a non-empty string are truthy. *)
Definition found_truthy (r : option ServerEntry) : bool :=
  match r with
  | None => false
  | Some (OldEntry x) => Js.truthy x
  | Some (NewEntry _ _ _) => true
  end.

(** [addServer(bundleId, serverId, packageIndex = 0)] *)
Definition addServer (now : Z) (items : list Bundle.t)
    (bundleId serverId : string) (packageIndex : Z)
    : Result (list Bundle.t * Bundle.t) :=
  match getById items bundleId with
  | None => Throw "Bundle not found"
  | Some bundle =>
      let servers := default [] (Bundle.servers bundle) in
      let bundle := Bundle.with_servers servers bundle in
      let existing := List.find (isServer serverId) servers in
      let bundle :=
        if negb (found_truthy existing)
        then Bundle.with_updated now
               (Bundle.with_servers
                  (servers ++ [NewEntry serverId packageIndex None]) bundle)
        else bundle in
      Ok (put bundle items, bundle)
  end.

(** [servers.findIndex(...)]; [None] is [-1]. *)
Fixpoint findIndex (serverId : string) (servers : list ServerEntry) : option nat :=
  match servers with
  | [] => None
  | s :: rest =>
      if isServer serverId s then Some 0%nat else S <$> findIndex serverId rest
  end.

(** [bundle.serverConnections && bundle.serverConnections[serverId]], as a
    condition. *)
Definition hasMapping (bundle : Bundle.t) (serverId : string) : bool :=
  match Bundle.serverConnections bundle with
  | None => false
  | Some m => match m !! serverId with
              | Some connectionId => Js.truthy connectionId
              | None => false
              end
  end.

(** [delete bundle.serverConnections[serverId]], run only where [hasMapping]
    holds. *)
Definition deleteMapping (bundle : Bundle.t) (serverId : string) : Bundle.t :=
  match Bundle.serverConnections bundle with
  | None => bundle
  | Some m => Bundle.with_serverConnections (base.delete serverId m) bundle
  end.

(** [removeServer(bundleId, serverId)] *)
Definition removeServer (now : Z) (items : list Bundle.t)
    (bundleId serverId : string) : Result (list Bundle.t * Bundle.t) :=
  match getById items bundleId with
  | None => Throw "Bundle not found"
  | Some bundle =>
      match Bundle.servers bundle with
      | None => Ok (items, bundle)
      | Some servers =>
          match findIndex serverId servers with
          | Some index =>
              let bundle :=
                Bundle.with_servers (Connections.splice1 index servers) bundle in
              let bundle :=
                if hasMapping bundle serverId then deleteMapping bundle serverId
                else bundle in
              let bundle := Bundle.with_updated now bundle in
              Ok (put bundle items, bundle)
          | None => Ok (items, bundle)
          end
      end
  end.

(** [attachConnection(bundleId, serverId, connectionId)] *)
Definition attachConnection (now : Z) (items : list Bundle.t)
    (bundleId serverId connectionId : string)
    : Result (list Bundle.t * Bundle.t) :=
  match getById items bundleId with
  | None => Throw "Bundle not found"
  | Some bundle =>
      let serverExists :=
        match Bundle.servers bundle with
        | None => false
        | Some servers => existsb (isServer serverId) servers
        end in
      if negb serverExists then Throw "Server not in bundle"
      else
        let m := default ∅ (Bundle.serverConnections bundle) in
        let bundle :=
          Bundle.with_updated now
            (Bundle.with_serverConnections (<[serverId := connectionId]> m) bundle) in
        Ok (put bundle items, bundle)
  end.

(** [detachConnection(bundleId, serverId)] *)
Definition detachConnection (now : Z) (items : list Bundle.t)
    (bundleId serverId : string) : Result (list Bundle.t * Bundle.t) :=
  match getById items bundleId with
  | None => Throw "Bundle not found"
  | Some bundle =>
      if hasMapping bundle serverId
      then
        let bundle := Bundle.with_updated now (deleteMapping bundle serverId) in
        Ok (put bundle items, bundle)
      else Ok (items, bundle)
  end.

(** [getServerConnection(bundleId, serverId)]; [conns] is
    [Alpine.store('connections').items]. *)
Definition getServerConnection (items : list Bundle.t) (conns : list Connection.t)
    (bundleId serverId : string) : Ref Connection.t :=
  match getById items bundleId with
  | None => Null
  | Some bundle =>
      match Bundle.serverConnections bundle with
      | None => Null
      | Some m =>
          match m !! serverId with
          | Some connectionId =>
              if Js.truthy connectionId then Connections.get conns connectionId
              else Null
          | None => Null
          end
      end
  end.

(** [hasServerConnection(bundleId, serverId)], as a condition. *)
Definition hasServerConnection (items : list Bundle.t)
    (bundleId serverId : string) : bool :=
  match getById items bundleId with
  | None => false
  | Some bundle => hasMapping bundle serverId
  end.

End Bundles.

(** ** [Alpine.store('cache')] *)

Module Cache.

Section Store.

Context {A : Type}.

Record entry : Type := mk {
  data : A;
  timestamp : Z;
  maxAge : option Z
}.

(** [remove(key)] *)
Definition remove (store : gmap string entry) (key : string) : gmap string entry :=
  base.delete key store.

(** [get(key)]: the store afterwards and the value returned ([None] is
    [null]). *)
Definition get (now : Z) (store : gmap string entry) (key : string)
    : gmap string entry * option A :=
  match store !! key with
  | None => (store, None)
  | Some cached =>
      let maxAge := 24 * 60 * 60 * 1000 in
      if now - timestamp cached >? maxAge
      then (remove store key, None)
      else (store, Some (data cached))
  end.

(** [set(key, data, maxAge = null)] *)
Definition set (now : Z) (store : gmap string entry) (key : string) (d : A)
    (maxAge : option Z) : gmap string entry :=
  <[key := mk d now maxAge]> store.

End Store.

Arguments entry A : clear implicits.

End Cache.

(** ** The catalogue records read by [serverUtils.js]

    A text field that is absent on the JavaScript object is the empty string
    here: both are falsy, and the synthesizer only ever stores such a field
    after testing that it is truthy (the two exceptions, a header argument and
    a positional argument without a value, store the empty string in the
    embedding).  The flags come from the database as [0]/[1] and from other
    callers as booleans. *)

Inductive Flag : Type :=
| FlagAbsent
| FlagBool (b : bool)
| FlagNum (n : Z).

Module EnvVar.

Record t : Type := mk {
  name : string;
  description : string;
  is_required : Flag;
  is_secret : Flag;
  default : string
}.

End EnvVar.

Module PackageArg.

Record t : Type := mk {
  id : Z;
  type : string;
  name : string;
  value : string
}.

End PackageArg.

Module Package.

Record t : Type := mk {
  registry_name : string;
  package_name : string;
  name : string;
  runtime_hint : string;
  environment_variables : option (list EnvVar.t);
  package_arguments : option (list PackageArg.t)
}.

End Package.

(** A server of the catalogue ([this.servers] in the application), with the
    fields the functions below read. *)
Module Server.

Record t : Type := mk {
  id : string;
  name : string;
  packages : option (list Package.t)
}.

End Server.

(** The launcher configuration: [{command, args, env}] or
    [{type, url, headers?}]. *)
Inductive Config : Type :=
| Command (command : string) (args : list string) (env : gmap string string)
| Remote (type url : string) (headers : option (gmap string string)).

(** ** [serverUtils.js] *)

Module ServerUtils.

(** Truthiness of a flag. *)
Definition flag (f : Flag) : bool :=
  match f with
  | FlagAbsent => false
  | FlagBool b => b
  | FlagNum n => negb (n =? 0)
  end.

(** [f === 1] *)
Definition is_one (f : Flag) : bool :=
  match f with
  | FlagNum 1 => true
  | _ => false
  end.

(** The template literal [`${name}` with a dollar and braces around it]. *)
Definition placeholder (name : string) : string := "${" +:+ name +:+ "}".

Definition secretPatterns : list string :=
  ["KEY"; "TOKEN"; "SECRET"; "PASSWORD"; "PASS"; "PWD";
   "AUTH"; "CREDENTIAL"; "API"; "PRIVATE"; "ACCESS"].

(** [isLikelySecret(name)] *)
Definition isLikelySecret (name : string) : bool :=
  if negb (Js.truthy name) then false
  else
    let upper := Js.toUpperCase name in
    existsb (fun pattern => Js.includes upper pattern) secretPatterns.

(** [getRequiredSecrets(pkg)] *)
Definition getRequiredSecrets (pkg : Package.t) : list string :=
  match Package.environment_variables pkg with
  | None => []
  | Some envVars =>
      map EnvVar.name
        (List.filter
           (fun v =>
              if is_one (EnvVar.is_required v) && is_one (EnvVar.is_secret v)
              then true
              else isLikelySecret (EnvVar.name v))
           envVars)
  end.

(** [getKnownRemoteURL(packageName)]; the empty string is [null]. *)
Definition getKnownRemoteURL (packageName : string) : string :=
  if String.eqb packageName "github" then "https://api.githubcopilot.com/mcp/"
  else if String.eqb packageName "https://api.githubcopilot.com/mcp/"
  then "https://api.githubcopilot.com/mcp/"
  else EmptyString.

(** [getDefaultRuntime(registryName)] *)
Definition getDefaultRuntime (registryName : string) : string :=
  if String.eqb registryName "npm" then "npx"
  else if String.eqb registryName "pypi" then "uvx"
  else if String.eqb registryName "docker" then "docker"
  else if String.eqb registryName "nuget" then "dnx"
  else "npx".

(** One step of the [forEach] of [buildPackageEnv]. *)
Definition envStep (env : gmap string string) (v : EnvVar.t) : gmap string string :=
  if flag (EnvVar.is_required v)
  then <[EnvVar.name v :=
           if flag (EnvVar.is_secret v) then placeholder (EnvVar.name v)
           else Js.or_else (EnvVar.default v) (placeholder (EnvVar.name v))]> env
  else if Js.truthy (EnvVar.default v)
  then <[EnvVar.name v := EnvVar.default v]> env
  else env.

(** [buildPackageEnv(envVars)] *)
Definition buildPackageEnv (envVars : option (list EnvVar.t)) : gmap string string :=
  match envVars with
  | None => ∅
  | Some envVars => fold_left envStep envVars ∅
  end.

(** The body of the [forEach] over the stored arguments in
    [buildPackageArgs]. *)
Definition argStep (arg : PackageArg.t) : list string :=
  if String.eqb (PackageArg.type arg) "named"
  then PackageArg.name arg ::
       (if Js.truthy (PackageArg.value arg) then [PackageArg.value arg] else [])
  else if String.eqb (PackageArg.type arg) "positional"
  then [PackageArg.value arg]
  else [].

(** The [filter] of [buildPackageArgs]. *)
Definition keptArg (arg : PackageArg.t) : bool :=
  String.eqb (PackageArg.type arg) "named" ||
  (String.eqb (PackageArg.type arg) "positional" &&
   negb (Js.arr_includes ["run"; "-i"; "--rm"; "-e"] (PackageArg.value arg))).

(** [buildPackageArgs(pkg)] *)
Definition buildPackageArgs (pkg : Package.t) : list string :=
  let args :=
    match Package.package_arguments pkg with
    | None => []
    | Some stored => flat_map argStep (List.filter keptArg stored)
    end in
  let packageName := Js.or_else (Package.package_name pkg) (Package.name pkg) in
  let args :=
    if Js.truthy packageName && negb (Js.arr_includes args packageName)
    then args ++ [packageName] else args in
  if (length args =? 0)%nat then args ++ [packageName] else args.

(** A stable sort with the comparator [(a, b) => a.id - b.id]. *)
Fixpoint insertById (a : PackageArg.t) (l : list PackageArg.t) : list PackageArg.t :=
  match l with
  | [] => [a]
  | b :: rest =>
      if PackageArg.id a <=? PackageArg.id b then a :: b :: rest
      else b :: insertById a rest
  end.

Definition sortById (l : list PackageArg.t) : list PackageArg.t :=
  fold_right insertById [] l.

(** [buildDockerArgs(pkg)] *)
Definition buildDockerArgs (pkg : Package.t) : list string :=
  let positionalArgs :=
    match Package.package_arguments pkg with
    | Some stored =>
        if (0 <? length stored)%nat
        then map PackageArg.value
               (sortById
                  (List.filter
                     (fun arg => String.eqb (PackageArg.type arg) "positional")
                     stored))
        else []
    | None => []
    end in
  if (0 <? length positionalArgs)%nat then positionalArgs
  else
    let args := ["run"; "-i"; "--rm"] in
    let args :=
      match Package.environment_variables pkg with
      | Some envVars =>
          args ++
          flat_map
            (fun env =>
               if flag (EnvVar.is_required env) || flag (EnvVar.is_secret env)
               then ["-e"; EnvVar.name env] else [])
            envVars
      | None => args
      end in
    args ++ [Package.package_name pkg].

(** The [find] callback that looks for the environment variable a placeholder
    header value stands for. *)
Definition matchesEnv (value : string) (env : EnvVar.t) : bool :=
  String.eqb (EnvVar.name env) value ||
  Js.includes (EnvVar.name env) (Js.replace "YOUR_" EmptyString value) ||
  Js.includes value (EnvVar.name env).

(** One stored [header] argument. *)
Definition headerStep (envVars : list EnvVar.t) (headers : gmap string string)
    (arg : PackageArg.t) : gmap string string :=
  let value := PackageArg.value arg in
  let value :=
    if Js.truthy value &&
       (Js.includes value "YOUR_" || Js.includes value "API_KEY" ||
        Js.includes value "TOKEN")
    then match List.find (matchesEnv value) envVars with
         | Some matchingEnvVar => placeholder (EnvVar.name matchingEnvVar)
         | None => value
         end
    else value in
  <[PackageArg.name arg := value]> headers.

(** One environment variable, when the header is inferred. *)
Definition inferStep (headers : gmap string string) (env : EnvVar.t)
    : gmap string string :=
  if flag (EnvVar.is_secret env) && Js.truthy (EnvVar.name env)
  then
    let envName := Js.toUpperCase (EnvVar.name env) in
    if Js.includes envName "TOKEN" || Js.includes envName "KEY"
    then <["Authorization" := "Bearer " +:+ placeholder (EnvVar.name env)]> headers
    else headers
  else headers.

(** [buildAuthHeaders(envVars = [], packageArgs = [])] *)
Definition buildAuthHeaders (envVars : option (list EnvVar.t))
    (packageArgs : option (list PackageArg.t)) : gmap string string :=
  let envVars := default [] envVars in
  let packageArgs := default [] packageArgs in
  let headerArgs :=
    List.filter (fun arg => String.eqb (PackageArg.type arg) "header") packageArgs in
  let headers := fold_left (headerStep envVars) headerArgs ∅ in
  if (size headers =? 0)%nat then fold_left inferStep envVars headers
  else headers.

(** [arr?.find(p)?.value], the empty string when there is none. *)
Definition findValue (p : PackageArg.t -> bool) (args : option (list PackageArg.t))
    : string :=
  match args with
  | Some l => match List.find p l with
              | Some arg => PackageArg.value arg
              | None => EmptyString
              end
  | None => EmptyString
  end.

(** [buildRemotePackageConfig(pkg)] *)
Definition buildRemotePackageConfig (pkg : Package.t) : Config :=
  let args := Package.package_arguments pkg in
  let url :=
    Js.or_else
      (findValue (fun arg => String.eqb (PackageArg.type arg) "url" &&
                             String.eqb (PackageArg.name arg) "endpoint") args)
      (Js.or_else (getKnownRemoteURL (Package.package_name pkg))
                  "https://example.com/mcp") in
  let type :=
    Js.or_else (findValue (fun arg => String.eqb (PackageArg.name arg) "type") args)
               "http" in
  let headers := buildAuthHeaders (Package.environment_variables pkg) args in
  Remote type url (if (0 <? size headers)%nat then Some headers else None).

(** [buildDockerPackageConfig(pkg)] *)
Definition buildDockerPackageConfig (pkg : Package.t) : Config :=
  Command "docker" (buildDockerArgs pkg)
          (buildPackageEnv (Package.environment_variables pkg)).

(** [buildPackageConfig(pkg)] *)
Definition buildPackageConfig (pkg : Package.t) : Config :=
  if String.eqb (Package.registry_name pkg) "remote"
  then buildRemotePackageConfig pkg
  else if String.eqb (Package.registry_name pkg) "docker"
  then buildDockerPackageConfig pkg
  else
    let command :=
      Js.or_else (Package.runtime_hint pkg)
                 (getDefaultRuntime (Package.registry_name pkg)) in
    Command command (buildPackageArgs pkg)
            (buildPackageEnv (Package.environment_variables pkg)).

(** The callback of [serverNeedsCredentials], the same test as the [filter]
    of [getRequiredSecrets]. *)
Definition needsCredential (v : EnvVar.t) : bool :=
  if is_one (EnvVar.is_required v) && is_one (EnvVar.is_secret v) then true
  else isLikelySecret (EnvVar.name v).

(** [serverNeedsCredentials(server)]; [None] is a missing server. *)
Definition serverNeedsCredentials (server : option Server.t) : bool :=
  match server with
  | None => false
  | Some server =>
      match Server.packages server with
      | None => false
      | Some packages =>
          existsb
            (fun pkg =>
               match Package.environment_variables pkg with
               | Some envVars => existsb needsCredential envVars
               | None => false
               end)
            packages
      end
  end.

(** [selectDefaultPackage(packages)] *)
Definition selectDefaultPackage (packages : option (list Package.t)) : nat :=
  match packages with
  | None => 0%nat
  | Some packages =>
      if (length packages =? 0)%nat then 0%nat
      else
        let registry name :=
          Js.findIndex (fun p => String.eqb (Package.registry_name p) name)
                       packages in
        match registry "npm" with
        | Some npmIndex => npmIndex
        | None =>
            match registry "docker" with
            | Some dockerIndex => dockerIndex
            | None =>
                match registry "pypi" with
                | Some pypiIndex => pypiIndex
                | None => 0%nat
                end
            end
        end
  end.

(** [arr[idx]] for an integer [idx]: [undefined] outside the array. *)
Definition at_index {A} (arr : list A) (idx : Z) : option A :=
  if idx <? 0 then None else arr !! Z.to_nat idx.

(** [getPackageByIndex(server, index)]; the index may be [undefined], the
    result [null]. *)
Definition getPackageByIndex (server : option Server.t) (index : option Z)
    : option Package.t :=
  match server with
  | None => None
  | Some server =>
      match Server.packages server with
      | None => None
      | Some packages =>
          if (length packages =? 0)%nat then None
          else
            let idx := default 0 index in
            match at_index packages idx with
            | Some pkg => Some pkg
            | None => packages !! 0%nat
            end
      end
  end.

(** The package objects [transformServersFromDB] of the application builds
    from the rows of the database: the name moves from [package_name] to
    [name], missing lists become empty. *)
Definition transformPackage (pkg : Package.t) : Package.t :=
  Package.mk (Package.registry_name pkg) EmptyString
             (Js.or_else (Package.package_name pkg) (Package.name pkg))
             (Package.runtime_hint pkg)
             (Some (default [] (Package.environment_variables pkg)))
             (Some (default [] (Package.package_arguments pkg))).

End ServerUtils.

(** ** The rest of [Alpine.store('connections')] and [Alpine.store('bundles')]

    A connection made by [create] always has a [credentials] object; the
    tests for a missing one are not represented. *)

Module ConnectionStore.

(** [getByServerId(serverId)] *)
Definition getByServerId (items : list Connection.t) (serverId : string)
    : list Connection.t :=
  List.filter (fun c => String.eqb (Connection.serverId c) serverId) items.

(** [getByPackageId(packageId)] *)
Definition getByPackageId (items : list Connection.t) (packageId : string)
    : list Connection.t :=
  List.filter (fun c => String.eqb (Connection.packageId c) packageId) items.

(** [getByServerAndPackage(serverId, packageId)] *)
Definition getByServerAndPackage (items : list Connection.t)
    (serverId packageId : string) : Ref Connection.t :=
  match List.find (fun c => String.eqb (Connection.serverId c) serverId &&
                            String.eqb (Connection.packageId c) packageId) items with
  | Some c => Obj c
  | None => Undefined
  end.

(** The object [get] returned is mutated in place: the first element with that
    id takes the new contents. *)
Fixpoint put (c' : Connection.t) (items : list Connection.t) : list Connection.t :=
  match items with
  | [] => []
  | c :: rest =>
      if String.eqb (Connection.id c) (Connection.id c') then c' :: rest
      else c :: put c' rest
  end.

(** [connection.credentials = credentials; connection.updated = now] *)
Definition with_credentials (credentials : gmap string string) (now : Z)
    (c : Connection.t) : Connection.t :=
  Connection.mk (Connection.id c) (Connection.name c) (Connection.serverId c)
                (Connection.packageId c) credentials (Connection.created c) now.

(** [updateCredentials(connectionId, credentials)] *)
Definition updateCredentials (now : Z) (items : list Connection.t)
    (connectionId : string) (credentials : gmap string string)
    : Result (list Connection.t * Connection.t) :=
  match Connections.get items connectionId with
  | Obj connection =>
      let connection := with_credentials credentials now connection in
      Ok (put connection items, connection)
  | _ => Throw "Connection not found"
  end.


(** [removeCredential(connectionId, secretName)] *)
Definition removeCredential (now : Z) (items : list Connection.t)
    (connectionId secretName : string)
    : Result (list Connection.t * Connection.t) :=
  match Connections.get items connectionId with
  | Obj connection =>
      match Connection.credentials connection !! secretName with
      | Some value =>
          if Js.truthy value then
            let connection :=
              with_credentials
                (base.delete secretName (Connection.credentials connection))
                now connection in
            Ok (put connection items, connection)
          else Ok (items, connection)
      | None => Ok (items, connection)
      end
  | _ => Throw "Connection not found"
  end.

(** The required variables of a package description. *)
Definition requiredVars (envVars : list EnvVar.t) : list EnvVar.t :=
  List.filter (fun env => ServerUtils.flag (EnvVar.is_required env)) envVars.


(** [getMissingCredentials(connectionId, packageData = null)] *)
Definition getMissingCredentials (items : list Connection.t)
    (connectionId : string) (packageData : option Package.t) : list string :=
  match Connections.get items connectionId with
  | Obj connection =>
      match packageData ≫= Package.environment_variables with
      | Some envVars =>
          map EnvVar.name
            (List.filter
               (fun envVar =>
                  negb (Js.nonblank
                          (Connection.credentials connection !! EnvVar.name envVar)))
               (requiredVars envVars))
      | None => []
      end
  | _ => []
  end.

End ConnectionStore.

Module BundleStore.

(** [delete(bundleId)]: the store afterwards and the boolean returned. *)
Definition delete (items : list Bundle.t) (bundleId : string)
    : list Bundle.t * bool :=
  match Js.findIndex (fun b => String.eqb (Bundle.id b) bundleId) items with
  | None => (items, false)
  | Some index => (Connections.splice1 index items, true)
  end.

End BundleStore.

(** ** Platform functions used by the share codec

    [TextEncoder], [TextDecoder], [DataView], [parseInt], [Number.toString],
    [atob] and [JSON.parse] belong to the JavaScript platform; they are
    modelled after their standards (WHATWG Encoding and Infra, ECMA-262,
    ECMA-404).  A byte array is a [list Z] of values below 256. *)

Module Platform.

Definition is_high_surrogate (c : Z) : bool := (55296 <=? c) && (c <=? 56319).
Definition is_low_surrogate (c : Z) : bool := (56320 <=? c) && (c <=? 57343).

(** UTF-8 of a code point of the basic plane (at most three bytes). *)
Definition utf8_bmp (c : Z) : list Z :=
  if c <? 128 then [c]
  else if c <? 2048 then [192 + c / 64; 128 + c mod 64]
  else [224 + c / 4096; 128 + (c / 64) mod 64; 128 + c mod 64].

(** UTF-8 of the code point of a surrogate pair (four bytes). *)
Definition utf8_pair (hi lo : Z) : list Z :=
  let cp := 65536 + (hi - 55296) * 1024 + (lo - 56320) in
  [240 + cp / 262144; 128 + (cp / 4096) mod 64; 128 + (cp / 64) mod 64;
   128 + cp mod 64].

(** [new TextEncoder().encode(s)]: a surrogate without its partner is
    encoded as U+FFFD. *)
Fixpoint TextEncoder_encode (s : Js.jsstring) : list Z :=
  match s with
  | [] => []
  | c :: rest =>
      if is_high_surrogate c then
        match rest with
        | d :: rest' =>
            if is_low_surrogate d then utf8_pair c d ++ TextEncoder_encode rest'
            else utf8_bmp 65533 ++ TextEncoder_encode rest
        | [] => utf8_bmp 65533
        end
      else if is_low_surrogate c then utf8_bmp 65533 ++ TextEncoder_encode rest
      else utf8_bmp c ++ TextEncoder_encode rest
  end.

Definition in_range (lo hi b : Z) : bool := (lo <=? b) && (b <=? hi).

(** The code points of a UTF-8 byte sequence, U+FFFD for each ill-formed
    subsequence (the WHATWG decoder, errors replaced). *)
Fixpoint utf8_decode (l : list Z) : list Z :=
  match l with
  | [] => []
  | b :: r =>
      if b <=? 127 then b :: utf8_decode r
      else if in_range 194 223 b then
        match r with
        | c1 :: r1 =>
            if in_range 128 191 c1
            then ((b - 192) * 64 + (c1 - 128)) :: utf8_decode r1
            else 65533 :: utf8_decode r
        | [] => [65533]
        end
      else if in_range 224 239 b then
        let lo := if b =? 224 then 160 else 128 in
        let hi := if b =? 237 then 159 else 191 in
        match r with
        | c1 :: r1 =>
            if in_range lo hi c1 then
              match r1 with
              | c2 :: r2 =>
                  if in_range 128 191 c2
                  then ((b - 224) * 4096 + (c1 - 128) * 64 + (c2 - 128))
                       :: utf8_decode r2
                  else 65533 :: utf8_decode r1
              | [] => [65533]
              end
            else 65533 :: utf8_decode r
        | [] => [65533]
        end
      else if in_range 240 244 b then
        let lo := if b =? 240 then 144 else 128 in
        let hi := if b =? 244 then 143 else 191 in
        match r with
        | c1 :: r1 =>
            if in_range lo hi c1 then
              match r1 with
              | c2 :: r2 =>
                  if in_range 128 191 c2 then
                    match r2 with
                    | c3 :: r3 =>
                        if in_range 128 191 c3
                        then ((b - 240) * 262144 + (c1 - 128) * 4096
                              + (c2 - 128) * 64 + (c3 - 128)) :: utf8_decode r3
                        else 65533 :: utf8_decode r2
                    | [] => [65533]
                    end
                  else 65533 :: utf8_decode r1
              | [] => [65533]
              end
            else 65533 :: utf8_decode r
        | [] => [65533]
        end
      else 65533 :: utf8_decode r
  end.

(** The UTF-16 code units of a code point. *)
Definition utf16_of (cp : Z) : list Z :=
  if cp <? 65536 then [cp]
  else [55296 + (cp - 65536) / 1024; 56320 + (cp - 65536) mod 1024].

(** [new TextDecoder().decode(bytes)]: UTF-8, a leading byte order mark
    dropped. *)
Definition TextDecoder_decode (bytes : list Z) : Js.jsstring :=
  let cps := utf8_decode bytes in
  let cps := match cps with
             | 65279 :: rest => rest
             | _ => cps
             end in
  flat_map utf16_of cps.

(** The value of a hexadecimal digit. *)
Definition hexval (c : ascii) : option Z :=
  let n := Z.of_nat (nat_of_ascii c) in
  if (48 <=? n) && (n <=? 57) then Some (n - 48)
  else if (97 <=? n) && (n <=? 102) then Some (n - 87)
  else if (65 <=? n) && (n <=? 70) then Some (n - 55)
  else None.

(** The value of the longest prefix of hexadecimal digits; [acc] is [None]
    until a digit has been read. *)
Fixpoint hexPrefix (acc : option Z) (s : string) : option Z :=
  match s with
  | EmptyString => acc
  | String c s' =>
      match hexval c with
      | Some d => hexPrefix (Some (16 * default 0 acc + d)) s'
      | None => acc
      end
  end.

Definition is_space_ascii (c : ascii) : bool :=
  Js.is_space (Z.of_nat (nat_of_ascii c)).

Fixpoint trimStart (s : string) : string :=
  match s with
  | String c s' => if is_space_ascii c then trimStart s' else s
  | EmptyString => EmptyString
  end.

(** [parseInt(s, 16)]; [None] is [NaN].  Exact below 2^53, which sixteen digits
    cannot exceed. *)
Definition parseInt16 (s : string) : option Z :=
  let s := trimStart s in
  let '(sign, s) :=
    match s with
    | String "-" s' => (-1, s')
    | String "+" s' => (1, s')
    | _ => (1, s)
    end in
  let s :=
    match s with
    | String "0" (String "x" s') => s'
    | String "0" (String "X" s') => s'
    | _ => s
    end in
  (fun v => sign * v) <$> hexPrefix None s.

(** The conversion of [setUint32] to an unsigned 32-bit integer: [NaN] is 0. *)
Definition toUint32 (v : option Z) : Z := default 0 v mod 4294967296.

(** Four bytes, most significant first. *)
Definition be32 (u : Z) : list Z :=
  [u / 16777216; (u / 65536) mod 256; (u / 256) mod 256; u mod 256].

(** Overwriting a buffer from [offset] on. *)
Definition write (buf : list Z) (offset : nat) (bytes : list Z) : list Z :=
  take offset buf ++ bytes ++ drop (offset + length bytes) buf.

(** [view.setUint8(offset, v)] *)
Definition setUint8 (buf : list Z) (offset : nat) (v : Z) : Result (list Z) :=
  if (offset + 1 <=? length buf)%nat then Ok (write buf offset [v mod 256])
  else Throw "RangeError".

(** [view.setUint32(offset, v, false)] *)
Definition setUint32 (buf : list Z) (offset : nat) (v : option Z) : Result (list Z) :=
  if (offset + 4 <=? length buf)%nat then Ok (write buf offset (be32 (toUint32 v)))
  else Throw "RangeError".

(** [bytes.set(array, offset)] *)
Definition set (buf : list Z) (array : list Z) (offset : nat) : Result (list Z) :=
  if (offset + length array <=? length buf)%nat then Ok (write buf offset array)
  else Throw "RangeError".

(** [view.getUint8(offset)] *)
Definition getUint8 (data : list Z) (offset : nat) : Result Z :=
  match data !! offset with
  | Some b => Ok b
  | None => Throw "RangeError"
  end.

(** [view.getUint32(offset, false)] *)
Definition getUint32 (data : list Z) (offset : nat) : Result Z :=
  match take 4 (drop offset data) with
  | [a; b; c; d] => Ok (((a * 256 + b) * 256 + c) * 256 + d)
  | _ => Throw "RangeError"
  end.

Definition hexchar (d : Z) : ascii :=
  ascii_of_nat (Z.to_nat (if d <? 10 then 48 + d else 87 + d)).

(** The digits of [n.toString(16)], least significant produced first. *)
Fixpoint hexDigits (fuel : nat) (n : Z) (acc : list ascii) : list ascii :=
  match fuel with
  | O => acc
  | S fuel' =>
      let acc' := hexchar (n mod 16) :: acc in
      if n / 16 =? 0 then acc' else hexDigits fuel' (n / 16) acc'
  end.

(** [n.toString(16)] for an integer [n >= 0]. *)
Definition toString16 (n : Z) : list ascii :=
  hexDigits (S (Z.to_nat (Z.log2 n))) n [].

(** [s.padStart(width, '0')] *)
Definition padStart0 (width : nat) (s : list ascii) : list ascii :=
  replicate (width - length s) "0"%char ++ s.

(** The value of a character of the base64 alphabet. *)
Definition b64val (c : ascii) : option Z :=
  let n := Z.of_nat (nat_of_ascii c) in
  if (65 <=? n) && (n <=? 90) then Some (n - 65)
  else if (97 <=? n) && (n <=? 122) then Some (n - 71)
  else if (48 <=? n) && (n <=? 57) then Some (n + 4)
  else if n =? 43 then Some 62
  else if n =? 47 then Some 63
  else None.

(** Groups of four sextets give three bytes; a rest of three gives two bytes,
    a rest of two gives one. *)
Fixpoint sextets_bytes (l : list Z) : list Z :=
  match l with
  | a :: b :: c :: d :: rest =>
      [a * 4 + b / 16; (b mod 16) * 16 + c / 4; (c mod 4) * 64 + d]
      ++ sextets_bytes rest
  | [a; b; c] => [a * 4 + b / 16; (b mod 16) * 16 + c / 4]
  | [a; b] => [a * 4 + b / 16]
  | _ => []
  end.

Definition is_ascii_whitespace (c : ascii) : bool :=
  let n := nat_of_ascii c in
  (n =? 9)%nat || (n =? 10)%nat || (n =? 12)%nat || (n =? 13)%nat || (n =? 32)%nat.

(** Up to two [=] at the end are dropped when the length is a multiple of 4. *)
Definition strip_padding (l : list ascii) : list ascii :=
  if (length l mod 4 =? 0)%nat then
    match rev l with
    | "="%char :: "="%char :: r => rev r
    | "="%char :: r => rev r
    | _ => l
    end
  else l.

(** [atob(data)]: the bytes of the binary string it returns; it throws on a
    character outside the alphabet and on a length of 1 modulo 4. *)
Definition atob (data : string) : Result (list Z) :=
  let l := List.filter (fun c => negb (is_ascii_whitespace c))
                       (list_ascii_of_string data) in
  let l := strip_padding l in
  if (length l mod 4 =? 1)%nat then Throw "InvalidCharacterError"
  else
    match mapM b64val l with
    | Some sextets => Ok (sextets_bytes sextets)
    | None => Throw "InvalidCharacterError"
    end.

(** The character of the base64 alphabet for a sextet. *)
Definition b64char (v : Z) : ascii :=
  ascii_of_nat
    (Z.to_nat (if v <? 26 then 65 + v
               else if v <? 52 then 71 + v
               else if v <? 62 then v - 4
               else if v =? 62 then 43 else 47)).

(** [btoa(String.fromCharCode(...bytes))]: base64 with padding. *)
Fixpoint btoa (bytes : list Z) : list ascii :=
  match bytes with
  | a :: b :: c :: rest =>
      [b64char (a / 4); b64char ((a mod 4) * 16 + b / 16);
       b64char ((b mod 16) * 4 + c / 64); b64char (c mod 64)] ++ btoa rest
  | [a; b] =>
      [b64char (a / 4); b64char ((a mod 4) * 16 + b / 16);
       b64char ((b mod 16) * 4); "="%char]
  | [a] => [b64char (a / 4); b64char ((a mod 4) * 16); "="%char; "="%char]
  | [] => []
  end.

End Platform.

(** ** [JSON.parse]

    A pushdown automaton over the code units of the text, after the grammar of
    ECMA-404: one transition per code unit, so the parser is total.  A number
    keeps its text. *)

Module Json.

Inductive value : Type :=
| JNull
| JBool (b : bool)
| JNumber (text : Js.jsstring)
| JString (s : Js.jsstring)
| JArray (items : list value)
| JObject (fields : list (Js.jsstring * value)).

(** An array or an object under construction; members are kept in reverse.
    [key] is the name of the member whose value is being read. *)
Inductive frame : Type :=
| FArr (acc : list value)
| FObj (acc : list (Js.jsstring * value)) (key : Js.jsstring).

Inductive numstate : Type :=
| NMinus | NZero | NInt | NDot | NFrac | NE | NESign | NExp.

Inductive mode : Type :=
| MValue (close_ok : bool)
| MKey (close_ok : bool)
| MColon
| MAfter
| MStr (is_key : bool) (acc : list Z)
| MEsc (is_key : bool) (acc : list Z)
| MUni (is_key : bool) (acc : list Z) (digits : list Z)
| MNum (st : numstate) (acc : list Z)
| MLit (rest : list Z) (v : value).

Record state : Type := St {
  st_mode : mode;
  st_stack : list frame;
  st_result : option value
}.

Definition is_ws (c : Z) : bool :=
  (c =? 32) || (c =? 9) || (c =? 10) || (c =? 13).

Definition is_digit (c : Z) : bool := (48 <=? c) && (c <=? 57).

Definition hexdigit (c : Z) : option Z :=
  if (48 <=? c) && (c <=? 57) then Some (c - 48)
  else if (97 <=? c) && (c <=? 102) then Some (c - 87)
  else if (65 <=? c) && (c <=? 70) then Some (c - 55)
  else None.

(** A finished value goes to the enclosing array or object, or is the result. *)
Definition deliver (v : value) (stack : list frame) : state :=
  match stack with
  | [] => St MAfter [] (Some v)
  | FArr acc :: st => St MAfter (FArr (v :: acc) :: st) None
  | FObj acc key :: st => St MAfter (FObj ((key, v) :: acc) key :: st) None
  end.

(** After a value: a comma, the closing bracket of the enclosing frame, or
    white space. *)
Definition after_value (stack : list frame) (result : option value) (c : Z)
    : option state :=
  if is_ws c then Some (St MAfter stack result)
  else
    match stack with
    | FArr acc :: st =>
        if c =? 44 then Some (St (MValue false) stack None)
        else if c =? 93 then Some (deliver (JArray (rev acc)) st)
        else None
    | FObj acc _ :: st =>
        if c =? 44 then Some (St (MKey false) stack None)
        else if c =? 125 then Some (deliver (JObject (rev acc)) st)
        else None
    | [] => None
    end.

Definition begin_value (close_ok : bool) (stack : list frame) (c : Z)
    : option state :=
  if is_ws c then Some (St (MValue close_ok) stack None)
  else if c =? 123 then Some (St (MKey true) (FObj [] [] :: stack) None)
  else if c =? 91 then Some (St (MValue true) (FArr [] :: stack) None)
  else if c =? 93 then
    match close_ok, stack with
    | true, FArr _ :: st => Some (deliver (JArray []) st)
    | _, _ => None
    end
  else if c =? 34 then Some (St (MStr false []) stack None)
  else if c =? 45 then Some (St (MNum NMinus [c]) stack None)
  else if c =? 48 then Some (St (MNum NZero [c]) stack None)
  else if is_digit c then Some (St (MNum NInt [c]) stack None)
  else if c =? 116 then Some (St (MLit (Js.lit "rue") (JBool true)) stack None)
  else if c =? 102 then Some (St (MLit (Js.lit "alse") (JBool false)) stack None)
  else if c =? 110 then Some (St (MLit (Js.lit "ull") JNull) stack None)
  else None.

Definition begin_key (close_ok : bool) (stack : list frame) (c : Z)
    : option state :=
  if is_ws c then Some (St (MKey close_ok) stack None)
  else if c =? 34 then Some (St (MStr true []) stack None)
  else if c =? 125 then
    match close_ok, stack with
    | true, FObj _ _ :: st => Some (deliver (JObject []) st)
    | _, _ => None
    end
  else None.

(** The closing quote of a string. *)
Definition end_string (is_key : bool) (s : Js.jsstring) (stack : list frame)
    : option state :=
  if is_key then
    match stack with
    | FObj acc _ :: st => Some (St MColon (FObj acc s :: st) None)
    | _ => None
    end
  else Some (deliver (JString s) stack).

Definition escape (c : Z) : option Z :=
  if (c =? 34) || (c =? 92) || (c =? 47) then Some c
  else if c =? 98 then Some 8
  else if c =? 102 then Some 12
  else if c =? 110 then Some 10
  else if c =? 114 then Some 13
  else if c =? 116 then Some 9
  else None.

(** The number read so far is complete in these states. *)
Definition accepting (st : numstate) : bool :=
  match st with
  | NZero | NInt | NFrac | NExp => true
  | _ => false
  end.

(** The next state of a number on [c], [None] when [c] does not continue it. *)
Definition num_next (st : numstate) (c : Z) : option numstate :=
  let e := (c =? 101) || (c =? 69) in
  match st with
  | NMinus => if c =? 48 then Some NZero else if is_digit c then Some NInt else None
  | NZero => if c =? 46 then Some NDot else if e then Some NE else None
  | NInt => if is_digit c then Some NInt else if c =? 46 then Some NDot
            else if e then Some NE else None
  | NDot => if is_digit c then Some NFrac else None
  | NFrac => if is_digit c then Some NFrac else if e then Some NE else None
  | NE => if (c =? 43) || (c =? 45) then Some NESign
          else if is_digit c then Some NExp else None
  | NESign => if is_digit c then Some NExp else None
  | NExp => if is_digit c then Some NExp else None
  end.

(** One code unit. *)
Definition step (s : state) (c : Z) : option state :=
  let stack := st_stack s in
  match st_mode s with
  | MValue close_ok => begin_value close_ok stack c
  | MKey close_ok => begin_key close_ok stack c
  | MColon =>
      if is_ws c then Some s
      else if c =? 58 then Some (St (MValue false) stack None)
      else None
  | MAfter => after_value stack (st_result s) c
  | MStr is_key acc =>
      if c =? 34 then end_string is_key (rev acc) stack
      else if c =? 92 then Some (St (MEsc is_key acc) stack None)
      else if c <? 32 then None
      else Some (St (MStr is_key (c :: acc)) stack None)
  | MEsc is_key acc =>
      if c =? 117 then Some (St (MUni is_key acc []) stack None)
      else match escape c with
           | Some x => Some (St (MStr is_key (x :: acc)) stack None)
           | None => None
           end
  | MUni is_key acc digits =>
      match hexdigit c with
      | Some d =>
          match digits with
          | [d1; d2; d3] =>
              Some (St (MStr is_key ((((d1 * 16 + d2) * 16 + d3) * 16 + d) :: acc))
                       stack None)
          | _ => Some (St (MUni is_key acc (digits ++ [d])) stack None)
          end
      | None => None
      end
  | MNum st acc =>
      match num_next st c with
      | Some st' => Some (St (MNum st' (c :: acc)) stack None)
      | None =>
          if accepting st then
            let s' := deliver (JNumber (rev acc)) stack in
            after_value (st_stack s') (st_result s') c
          else None
      end
  | MLit rest v =>
      match rest with
      | r :: rest' =>
          if c =? r then
            match rest' with
            | [] => Some (deliver v stack)
            | _ => Some (St (MLit rest' v) stack None)
            end
          else None
      | [] => None
      end
  end.

Fixpoint run (s : state) (text : list Z) : option state :=
  match text with
  | [] => Some s
  | c :: rest =>
      match step s c with
      | Some s' => run s' rest
      | None => None
      end
  end.

(** The end of the text. *)
Definition finish (s : state) : option value :=
  match st_mode s, st_stack s with
  | MAfter, [] => st_result s
  | MNum st acc, [] => if accepting st then Some (JNumber (rev acc)) else None
  | _, _ => None
  end.

(** [JSON.parse(text)]; [None] is the [SyntaxError] it throws. *)
Definition parse (text : Js.jsstring) : option value :=
  match run (St (MValue false) [] None) text with
  | Some s => finish s
  | None => None
  end.

End Json.

(** ** The share codec of [app.js] *)

Module Codec.

(** What [unpackBundle] returns. *)
Record Unpacked : Type := mkUnpacked {
  name : Js.jsstring;
  sharedTime : Z;
  servers : list string
}.

(** [typeof serverEntry === 'string' ? serverEntry : serverEntry.serverId] *)
Definition entryId (serverEntry : ServerEntry) : string :=
  match serverEntry with
  | OldEntry s => s
  | NewEntry serverId _ _ => serverId
  end.

(** The [for] loop of [packBundle] that writes the server ids. *)
Fixpoint writeServerIds (buf : list Z) (offset : nat) (serverIds : list string)
    : Result (list Z) :=
  match serverIds with
  | [] => Ok buf
  | serverId :: rest =>
      let serverInt := Platform.parseInt16 serverId in
      buf ← Platform.setUint32 buf offset serverInt;
      writeServerIds buf (offset + 4)%nat rest
  end.

(** [packBundle(bundle)] *)
Definition packBundle (now : Z) (bundle : Bundle.t) : Result (list Z) :=
  let name := take 50 (Bundle.name bundle) in
  let nameBytes := Platform.TextEncoder_encode name in
  if (255 <? length nameBytes)%nat
  then Throw "Bundle name too long after UTF-8 encoding"
  else
    let serverIds :=
      map (fun serverEntry => String.substring 0 8 (entryId serverEntry))
          (default [] (Bundle.servers bundle)) in
    let totalSize := (1 + 4 + length nameBytes + length serverIds * 4)%nat in
    let buffer := replicate totalSize 0 in
    let offset := 0%nat in
    buffer ← Platform.setUint8 buffer offset (Z.of_nat (length nameBytes));
    let offset := (offset + 1)%nat in
    let sharedTime := now / 1000 in
    buffer ← Platform.setUint32 buffer offset (Some sharedTime);
    let offset := (offset + 4)%nat in
    buffer ← Platform.set buffer nameBytes offset;
    let offset := (offset + length nameBytes)%nat in
    writeServerIds buffer offset serverIds.

(** [serverInt.toString(16).padStart(8, '0')] *)
Definition hex8 (serverInt : Z) : string :=
  string_of_list_ascii (Platform.padStart0 8 (Platform.toString16 serverInt)).

(** The [while (offset < binaryData.length)] loop of [unpackBundle], on the
    bytes from [offset] on: each round reads four bytes with [getUint32], which
    throws when fewer are left. *)
Fixpoint readServerIds (rest : list Z) : Result (list string) :=
  match rest with
  | [] => Ok []
  | a :: b :: c :: d :: rest' =>
      serverInt ← Platform.getUint32 [a; b; c; d] 0;
      servers ← readServerIds rest';
      Ok (hex8 serverInt :: servers)
  | _ => Throw "RangeError"
  end.

(** [unpackBundle(binaryData)] *)
Definition unpackBundle (binaryData : list Z) : Result Unpacked :=
  let offset := 0%nat in
  nameLength ← Platform.getUint8 binaryData offset;
  let offset := (offset + 1)%nat in
  sharedTime ← Platform.getUint32 binaryData offset;
  let offset := (offset + 4)%nat in
  let nameBytes := take (Z.to_nat nameLength) (drop offset binaryData) in
  let name := Platform.TextDecoder_decode nameBytes in
  let offset := (offset + Z.to_nat nameLength)%nat in
  servers ← readServerIds (drop offset binaryData);
  Ok (mkUnpacked name sharedTime servers).

(** [s.replace(/=+$/, '')] on the reversed characters. *)
Fixpoint dropPadding (reversed : list ascii) : list ascii :=
  match reversed with
  | c :: rest => if Ascii.eqb c "=" then dropPadding rest else reversed
  | [] => []
  end.

(** The token of [shareBundle(bundle)], which comes after [preview.html#/] in
    the link: base64 of the packed bytes with [+] and [/] replaced by [-] and
    [_] and the padding removed. *)
Definition shareBundle_token (now : Z) (bundle : Bundle.t) : Result string :=
  packedData ← packBundle now bundle;
  let base64 := Platform.btoa packedData in
  let urlSafe :=
    map (fun c => if Ascii.eqb c "+" then "-"%char
                  else if Ascii.eqb c "/" then "_"%char else c) base64 in
  Ok (string_of_list_ascii (rev (dropPadding (rev urlSafe)))).

(** The value [importFromURL] binds to [sharedBundle]. *)
Inductive SharedBundle : Type :=
| FromJson (v : Json.value)
| FromBinary (u : Unpacked).

(** [encodedData.replace(/-/g, '+').replace(/_/g, '/')] *)
Fixpoint toStandardAlphabet (s : string) : string :=
  match s with
  | EmptyString => EmptyString
  | String c s' =>
      String (if Ascii.eqb c "-" then "+"%char
              else if Ascii.eqb c "_" then "/"%char else c)
             (toStandardAlphabet s')
  end.

(** The decoding stage of [importFromURL(encodedData)], up to the assignment of
    [sharedBundle]: the token is decoded with [atob]; [JSON.parse] is tried on
    the decoded text and [unpackBundle] runs in its [catch]. *)
Definition importFromURL_sharedBundle (encodedData : string) : Result SharedBundle :=
  decoded ← Platform.atob (toStandardAlphabet encodedData);
  match Json.parse decoded with
  | Some v => Ok (FromJson v)
  | None =>
      let binaryData := decoded in
      FromBinary <$> unpackBundle binaryData
  end.

(** [this.servers.find(s => s.id === serverId || s.id.startsWith(serverId))] *)
Definition findServer (catalogue : list Server.t) (serverId : string)
    : option Server.t :=
  List.find (fun s => String.eqb (Server.id s) serverId ||
                      String.prefix serverId (Server.id s)) catalogue.

(** What [importFromURL] stores in [importPreview]. *)
Record Preview : Type := mkPreview {
  preview_name : Js.jsstring;
  preview_sharedTime : Z;
  preview_servers : list Server.t;
  invalidServers : list string
}.

(** [importFromURL] after the decoding, for a [sharedBundle] that
    [unpackBundle] returned (its entries are id strings): the validation of the
    structure, the resolution against the catalogue and the preview.  [Throw]
    is an error caught by the function itself, which then shows
    'Invalid bundle URL' and sets no preview. *)
Definition importPreview (catalogue : list Server.t) (sharedBundle : Unpacked)
    : Result Preview :=
  if match name sharedBundle with [] => true | _ => false end
  then Throw "Invalid bundle format"
  else
    let validServers :=
      List.filter (fun serverId => bool_decide (is_Some (findServer catalogue serverId)))
                  (servers sharedBundle) in
    if (length validServers =? 0)%nat
    then Throw "No valid servers found in shared bundle"
    else
      let serverObjects := omap (findServer catalogue) validServers in
      Ok (mkPreview (name sharedBundle) (sharedTime sharedBundle) serverObjects
            (List.filter
               (fun serverId => negb (existsb (String.eqb serverId) validServers))
               (servers sharedBundle))).

(** The loop of [confirmImport] over the servers of the preview: each is a
    catalogue object, without [serverId] and [packageIndex], so that
    [addServer] is called with the server's [id] and its default index 0.
    [clock k] is the instant of the [k]-th reading of the clock. *)
Fixpoint addServers (clock : nat -> Z) (k : nat) (items : list Bundle.t)
    (bundleId : string) (servers : list Server.t) : Result (list Bundle.t) :=
  match servers with
  | [] => Ok items
  | serverEntry :: rest =>
      r ← Bundles.addServer (clock k) items bundleId (Server.id serverEntry) 0;
      addServers clock (S k) (fst r) bundleId rest
  end.

(** [confirmImport()] for a preview made by [importPreview]: a bundle is
    created under the shared name with an empty description, and the servers
    are added to it.  A [Throw] is caught by the function itself. *)
Definition confirmImport (clock : nat -> Z) (items : list Bundle.t)
    (preview : Preview) : Result (list Bundle.t) :=
  let '(items, bundle) :=
    Bundles.create (clock 0%nat) items (preview_name preview) [] in
  addServers clock 1 items (Bundle.id bundle) (preview_servers preview).

End Codec.

(** ** The placeholder loop of the exports

    [exportClaudeFormat], for a server without attached connection, and
    [getPackageConfigPreview] run
    [requiredSecrets.forEach(secret => { if (!env[secret]) env[secret] = ... })]
    on the [env] of the synthesized configuration. *)

Module Exports.

Definition fillStep (env : gmap string string) (secret : string)
    : gmap string string :=
  match env !! secret with
  | Some value =>
      if Js.truthy value then env
      else <[secret := ServerUtils.placeholder secret]> env
  | None => <[secret := ServerUtils.placeholder secret]> env
  end.

Definition fillRequiredSecrets (pkg : Package.t) (env : gmap string string)
    : gmap string string :=
  fold_left fillStep (ServerUtils.getRequiredSecrets pkg) env.

(** [name.toLowerCase().replace(/[^a-z0-9]+/g, '-')]: a character that is
    not a lowercase letter or a digit after the conversion starts or continues
    a run, and each run leaves one hyphen. *)
Definition is_alnum (c : ascii) : bool :=
  let n := nat_of_ascii c in
  ((48 <=? n) && (n <=? 57) || (97 <=? n) && (n <=? 122))%nat.

Fixpoint collapse (in_run : bool) (s : list ascii) : list ascii :=
  match s with
  | [] => []
  | c :: rest =>
      if is_alnum (Js.lower_ascii c) then Js.lower_ascii c :: collapse false rest
      else if in_run then collapse true rest
      else "-"%char :: collapse true rest
  end.

Fixpoint dropHyphens (s : list ascii) : list ascii :=
  match s with
  | c :: rest => if Ascii.eqb c "-" then dropHyphens rest else s
  | [] => []
  end.

(** The key of a server in the exported file:
    [server.name.toLowerCase().replace(/[^a-z0-9]+/g, '-').replace(/^-+|-+$/g, '')],
    with [toLowerCase] on the ASCII letters. *)
Definition sanitizedName (name : string) : string :=
  string_of_list_ascii
    (rev (dropHyphens (rev (dropHyphens (collapse false (list_ascii_of_string name)))))).







(** [exportCustomFormat(bundle)]: the [id] fields of the servers written to
    the file.  The callback of [bundle.servers.map] takes the entry itself for
    the id and looks for [s.id === serverId] in the catalogue; an entry
    without a match gives [null] and is filtered out.  ([requiredSecrets] of a
    catalogue server is taken to be an array or missing, so that nothing in
    the callback throws.) *)
Definition exportCustomFormat_ids (catalogue : list Server.t) (bundle : Bundle.t)
    : Result (list string) :=
  match Bundle.servers bundle with
  | None => Throw "TypeError"
  | Some servers =>
      Ok (omap
            (fun serverEntry =>
               match serverEntry with
               | OldEntry serverId =>
                   match List.find (fun s => String.eqb (Server.id s) serverId)
                                   catalogue with
                   | Some _ => Some serverId
                   | None => None
                   end
               | NewEntry _ _ _ => None
               end)
            servers)
  end.

(** [arrayBufferToBase64(buffer)] and [base64ToArrayBuffer(base64)] of the
    encryption utilities. *)
Definition arrayBufferToBase64 (buffer : list Z) : string :=
  string_of_list_ascii (Platform.btoa buffer).

Definition base64ToArrayBuffer (base64 : string) : Result (list Z) :=
  Platform.atob base64.

End Exports.

(** ** Notions of the specification *)

Module Spec.

(** The bundle has an entry for [serverId], in either format. *)
Definition hasEntry (bundle : Bundle.t) (serverId : string) : Prop :=
  ∃ servers entry,
    Bundle.servers bundle = Some servers ∧ In entry servers ∧
    Codec.entryId entry = serverId.

(** Some bundle maps a server to the connection [connectionId]. *)
Definition referenced (bundles : list Bundle.t) (connectionId : string) : Prop :=
  ∃ bundle m serverId,
    In bundle bundles ∧ Bundle.serverConnections bundle = Some m ∧
    m !! serverId = Some connectionId.

(** The entry list of a bundle, empty when the field is missing. *)
Definition entries (bundle : Bundle.t) : list ServerEntry :=
  default [] (Bundle.servers bundle).

(** No bundle carries the field [connections]. *)
Definition plain (bundles : list Bundle.t) : Prop :=
  Forall (fun bundle => Bundle.connections bundle = None) bundles.

(** The [env] of a configuration; a remote configuration has none. *)
Definition config_env (c : Config) : gmap string string :=
  match c with
  | Command _ _ env => env
  | Remote _ _ _ => ∅
  end.





(** The bytes the loop over the server ids appends. *)
Definition serverBytes (serverIds : list string) : list Z :=
  flat_map (fun serverId =>
              Platform.be32 (Platform.toUint32 (Platform.parseInt16 serverId)))
           serverIds.

(** The first eight characters of each server id, as [packBundle] takes
    them. *)
Definition shortIds (bundle : Bundle.t) : list string :=
  map (fun serverEntry => String.substring 0 8 (Codec.entryId serverEntry))
      (entries bundle).

(** A lowercase hexadecimal digit. *)
Definition is_lower_hex (c : ascii) : bool :=
  let n := nat_of_ascii c in
  ((48 <=? n) && (n <=? 57) || (97 <=? n) && (n <=? 102))%nat.

(** The id begins with eight lowercase hexadecimal characters. *)
Definition lower_hex8 (id : string) : bool :=
  let l := list_ascii_of_string (String.substring 0 8 id) in
  (length l =? 8)%nat && forallb is_lower_hex l.

(** The id consists of eight lowercase hexadecimal characters. *)
Definition hex_id (id : string) : bool :=
  let l := list_ascii_of_string id in
  (length l =? 8)%nat && forallb is_lower_hex l.

(** The [k] hexadecimal digits of [n], most significant first. *)
Fixpoint hexN (k : nat) (n : Z) : list ascii :=
  match k with
  | O => []
  | S k' => hexN k' (n / 16) ++ [Platform.hexchar (n mod 16)]
  end.

(** The number a list of hexadecimal digits denotes. *)
Definition digitsValue (l : list ascii) : Z :=
  fold_left (fun acc c => 16 * acc + default 0 (Platform.hexval c)) l 0.

(** The reading of C2: whenever it is packed, a bundle with a name of at most
    255 bytes and ids that begin with eight lowercase hexadecimal characters
    is unpacked to those characters and to the Unix time in seconds. *)
Definition round_trip : Prop :=
  ∀ now bundle,
    (length (Platform.TextEncoder_encode (Bundle.name bundle)) ≤ 255)%nat →
    Forall (fun entry => lower_hex8 (Codec.entryId entry) = true)
           (entries bundle) →
    ∃ bytes unpacked,
      Codec.packBundle now bundle = Ok bytes ∧
      Codec.unpackBundle bytes = Ok unpacked ∧
      Codec.servers unpacked
        = map (fun entry => String.substring 0 8 (Codec.entryId entry))
              (entries bundle) ∧
      Codec.sharedTime unpacked = now / 1000.

(** The reading of C5: decoded bytes of length at least 5 are parsed per the
    binary layout. *)
Definition binary_first : Prop :=
  ∀ encodedData decoded,
    Platform.atob (Codec.toStandardAlphabet encodedData) = Ok decoded →
    (5 ≤ length decoded)%nat →
    Codec.importFromURL_sharedBundle encodedData
      = Codec.FromBinary <$> Codec.unpackBundle decoded.

(** The invariant of the entry list: no server id occurs twice, and no
    old-format entry is the empty id. *)
Definition unique_entries (bundle : Bundle.t) : Prop :=
  List.NoDup (map Codec.entryId (entries bundle)) ∧
  ¬ In (OldEntry EmptyString) (entries bundle).

(** A byte array: every element is below 256. *)
Definition bytes (l : list Z) : Prop := Forall (fun b => 0 ≤ b < 256) l.

(** A call of one of the four operations of the [bundles] store that work on
    the servers of one bundle. *)
Inductive Op : Type :=
| AddServer (serverId : string) (packageIndex : Z)
| RemoveServer (serverId : string)
| AttachConnection (serverId connectionId : string)
| DetachConnection (serverId : string).

Definition call (now : Z) (items : list Bundle.t) (bundleId : string) (op : Op)
    : Result (list Bundle.t * Bundle.t) :=
  match op with
  | AddServer serverId packageIndex =>
      Bundles.addServer now items bundleId serverId packageIndex
  | RemoveServer serverId => Bundles.removeServer now items bundleId serverId
  | AttachConnection serverId connectionId =>
      Bundles.attachConnection now items bundleId serverId connectionId
  | DetachConnection serverId => Bundles.detachConnection now items bundleId serverId
  end.

(** No two connections of the store share an id. *)
Definition unique_ids (items : list Connection.t) : Prop :=
  List.NoDup (map Connection.id items).



(** The shape of an exported key: lowercase letters, digits and single
    hyphens, with no hyphen at either end. *)
Definition slug (l : list ascii) : Prop :=
  Forall (fun c => Exports.is_alnum c = true ∨ c = "-"%char) l ∧
  head l ≠ Some "-"%char ∧ last l ≠ Some "-"%char ∧
  ∀ l1 l2, l ≠ l1 ++ "-"%char :: "-"%char :: l2.

(** A well-formed string of UTF-16 code units: every surrogate is half of a
    pair. *)
Fixpoint well_formed (s : Js.jsstring) : bool :=
  match s with
  | [] => true
  | c :: rest =>
      if Platform.is_high_surrogate c then
        match rest with
        | d :: rest' => Platform.is_low_surrogate d && well_formed rest'
        | [] => false
        end
      else negb (Platform.is_low_surrogate c) && (0 <=? c) && (c <=? 65535)
           && well_formed rest
  end.

(** The code points of a string: a surrogate pair gives one code point. *)
Fixpoint code_points (s : Js.jsstring) : list Z :=
  match s with
  | [] => []
  | c :: rest =>
      if Platform.is_high_surrogate c then
        match rest with
        | d :: rest' =>
            (65536 + (c - 55296) * 1024 + (d - 56320)) :: code_points rest'
        | [] => [c]
        end
      else c :: code_points rest
  end.

(** The sextets of base64 for a sequence of bytes, without padding. *)
Fixpoint sextets (bytes : list Z) : list Z :=
  match bytes with
  | a :: b :: c :: rest =>
      [a / 4; (a mod 4) * 16 + b / 16; (b mod 16) * 4 + c / 64; c mod 64]
      ++ sextets rest
  | [a; b] => [a / 4; (a mod 4) * 16 + b / 16; (b mod 16) * 4]
  | [a] => [a / 4; (a mod 4) * 16]
  | [] => []
  end.

(** What the codec needs of the character of a sextet: [atob] reads the sextet
    back from it, it is neither [=] nor white space, the URL alphabet of
    [shareBundle] does not turn it into [=], and the replacements of
    [importFromURL] undo those of [shareBundle]. *)
Definition sextet_ok (v : Z) : bool :=
  let c := Platform.b64char v in
  let urlSafe :=
    if Ascii.eqb c "+" then "-"%char
    else if Ascii.eqb c "/" then "_"%char else c in
  match Platform.b64val c with
  | Some v' => v' =? v
  | None => false
  end &&
  negb (Ascii.eqb c "=") && negb (Platform.is_ascii_whitespace c) &&
  negb (Ascii.eqb urlSafe "=") &&
  Ascii.eqb (if Ascii.eqb urlSafe "-" then "+"%char
             else if Ascii.eqb urlSafe "_" then "/"%char else urlSafe) c.

(** The code units of the string are numbers of 16 bits. *)
Definition code_units (s : Js.jsstring) : Prop := Forall (fun c => 0 ≤ c < 65536) s.

(** The code units with which a JSON text can begin: white space and the
    first characters of a value. *)
Definition json_start (c : Z) : bool :=
  Json.is_ws c || (c =? 123) || (c =? 91) || (c =? 34) || (c =? 45) ||
  Json.is_digit c || (c =? 116) || (c =? 102) || (c =? 110).


End Spec.

(** ** Concrete stores and packages used below *)

Module Examples.

(** A bundle made with [create], one server added, and a connection attached
    to that server. *)
Definition conn1 : Connection.t :=
  snd (Connections.create 1002 "k3j9x0q1z" [] (Js.lit "Work account")
         "srv-1" "srv-1::npm::@org/tool" {[ "API_KEY" := "sk-123" ]}).

Definition conns1 : list Connection.t := [conn1].

Definition bundles0 : list Bundle.t :=
  fst (Bundles.create 1000 [] (Js.lit "Demo") (Js.lit EmptyString)).

Definition bundles1 : list Bundle.t :=
  match Bundles.addServer 1001 bundles0 "1000" "srv-1" 0 with
  | Ok (items, _) => items
  | Throw _ => bundles0
  end.

Definition bundles2 : list Bundle.t :=
  match Bundles.attachConnection 1003 bundles1 "1000" "srv-1" (Connection.id conn1) with
  | Ok (items, _) => items
  | Throw _ => bundles1
  end.

Definition bundle1 : Bundle.t :=
  match bundles1 with
  | bundle :: _ => bundle
  | [] => Bundle.mk EmptyString [] [] None None None 0 0 []
  end.

Definition bundle2 : Bundle.t :=
  match bundles2 with
  | bundle :: _ => bundle
  | [] => Bundle.mk EmptyString [] [] None None None 0 0 []
  end.

(** A bundle in the old format whose only entry is the empty id. *)
Definition legacy : Bundle.t :=
  Bundle.mk "b1" (Js.lit "Legacy") [] (Some [OldEntry EmptyString]) (Some ∅) None 0 0 [].

(** The package of the scenario: npm, one required secret variable. *)
Definition api_key : EnvVar.t :=
  EnvVar.mk "API_KEY" EmptyString (FlagBool true) (FlagBool true) EmptyString.

Definition org_tool : Package.t :=
  Package.mk "npm" "@org/tool" EmptyString EmptyString (Some [api_key]) None.

(** An optional secret variable that carries a default value. *)
Definition region_token : EnvVar.t :=
  EnvVar.mk "REGION_TOKEN" EmptyString (FlagNum 0) (FlagNum 1) "eu-default-token".

Definition with_default : Package.t :=
  Package.mk "npm" "@org/tool" EmptyString EmptyString (Some [region_token]) None.

(** A bundle with one entry in each format. *)
Definition demo : Bundle.t :=
  Bundle.mk "1000" (Js.lit "Demo") []
    (Some [NewEntry "0000beef-1111-4222-8333-444455556666" 0 None;
           OldEntry "deadbeefcafe"])
    (Some ∅) None 1000 1000 [].

(** Bundles whose names are 255 and 256 letters [a]: 255 and 256 bytes of
    UTF-8. *)
Definition name255 : Bundle.t :=
  Bundle.mk "1001" (replicate 255 97) [] (Some []) (Some ∅) None 0 0 [].

Definition name256 : Bundle.t :=
  Bundle.mk "1002" (replicate 256 97) [] (Some []) (Some ∅) None 0 0 [].

(** A bundle without servers whose name has 34 characters, the last one a
    double quote. *)
Definition quoted : Bundle.t :=
  Bundle.mk "1003" (Js.lit "abcdefghijklmnopqrstuvwxyz0123456" ++ [34]) []
            (Some []) (Some ∅) None 0 0 [].

(** The token [shareBundle] makes of [quoted] at the instant 1730559600123:
    the bytes are the length 34, the timestamp and the name. *)
Definition quoted_token : string :=
  "ImcmPnBhYmNkZWZnaGlqa2xtbm9wcXJzdHV2d3h5ejAxMjM0NTYi".

(** The code units of the legacy payload
    [{'name':'Old Bundle','servers':['abc123']}], written there with double
    quotes, and its base64 form. *)
Definition legacy_payload : Js.jsstring :=
  [123; 34; 110; 97; 109; 101; 34; 58; 34; 79; 108; 100; 32; 66; 117;
   110; 100; 108; 101; 34; 44; 34; 115; 101; 114; 118; 101; 114; 115;
   34; 58; 91; 34; 97; 98; 99; 49; 50; 51; 34; 93; 125].

Definition legacy_token : string :=
  "eyJuYW1lIjoiT2xkIEJ1bmRsZSIsInNlcnZlcnMiOlsiYWJjMTIzIl19".

(** The token [shareBundle] makes of [demo] at the instant 1730559600123. *)
Definition demo_token : string := "BGcmPnBEZW1vAAC-796tvu8".

(** A remote package with a secret token and no stored argument. *)
Definition remote_tool : Package.t :=
  Package.mk "remote" "acme" EmptyString EmptyString
    (Some [EnvVar.mk "ACME_TOKEN" EmptyString (FlagNum 1) (FlagNum 1) EmptyString]) None.

End Examples.

(** * Properties *)

(** ** Lookup and write-back in the bundle store *)

Lemma getById_id items bundleId bundle :
  Bundles.getById items bundleId = Some bundle → Bundle.id bundle = bundleId.
Proof.
  unfold Bundles.getById. intros H.
  apply find_some in H as [_ H]. by apply String.eqb_eq in H.
Qed.

Lemma getById_In items bundleId bundle :
  Bundles.getById items bundleId = Some bundle → In bundle items.
Proof. unfold Bundles.getById. intros H. by apply find_some in H as [H _]. Qed.

Lemma getById_put items bundleId bundle bundle' :
  Bundles.getById items bundleId = Some bundle →
  Bundle.id bundle' = bundleId →
  Bundles.getById (Bundles.put bundle' items) bundleId = Some bundle'.
Proof.
  unfold Bundles.getById. intros Hget Hid.
  induction items as [|b rest IH]; simpl in *; [discriminate|].
  rewrite Hid. destruct (String.eqb (Bundle.id b) bundleId) eqn:E.
  - simpl. by rewrite Hid, String.eqb_refl.
  - simpl. rewrite E. by apply IH.
Qed.

Lemma put_same items bundleId bundle :
  Bundles.getById items bundleId = Some bundle → Bundles.put bundle items = items.
Proof.
  intros Hget. pose proof (getById_id _ _ _ Hget) as Hid.
  unfold Bundles.getById in Hget.
  induction items as [|b rest IH]; simpl in *; [done|].
  rewrite Hid. destruct (String.eqb (Bundle.id b) bundleId) eqn:E.
  - by inversion Hget.
  - f_equal. by apply IH.
Qed.

Lemma with_servers_same bundle l :
  Bundle.servers bundle = Some l → Bundle.with_servers l bundle = bundle.
Proof. destruct bundle; simpl; intros ->; reflexivity. Qed.

Lemma isServer_entryId serverId entry :
  Bundles.isServer serverId entry = true ↔ Codec.entryId entry = serverId.
Proof. destruct entry; simpl; apply String.eqb_eq. Qed.





(** ** Adding a server *)

(** When the entry [find] returns is truthy, [addServer] changes nothing: this
    covers every new-format entry and every old-format entry with a non-empty
    id, whatever [packageIndex] is passed. *)
Lemma addServer_present now items bundleId serverId packageIndex bundle servers :
  Bundles.getById items bundleId = Some bundle →
  Bundle.servers bundle = Some servers →
  Bundles.found_truthy (List.find (Bundles.isServer serverId) servers) = true →
  Bundles.addServer now items bundleId serverId packageIndex = Ok (items, bundle).
Proof.
  intros Hget Hs Hfound. unfold Bundles.addServer.
  rewrite Hget, Hs. simpl. rewrite Hfound. simpl.
  rewrite (with_servers_same _ _ Hs). by rewrite (put_same _ _ _ Hget).
Qed.

Lemma find_isServer_present serverId servers :
  (∃ entry, In entry servers ∧ Codec.entryId entry = serverId) →
  ∃ entry, List.find (Bundles.isServer serverId) servers = Some entry ∧
           Codec.entryId entry = serverId.
Proof.
  intros (e & Hin & He).
  destruct (List.find (Bundles.isServer serverId) servers) as [e'|] eqn:F.
  - exists e'. split; [done|]. apply find_some in F as [_ F].
    by apply isServer_entryId.
  - exfalso. apply (find_none _ _ F) in Hin.
    apply isServer_entryId in He. congruence.
Qed.

(** Away from the empty id, [addServer] is idempotent: a second call with a
    [serverId] that has an entry returns the store and the bundle as they
    were. *)
Lemma addServer_nonempty_noop now items bundleId serverId packageIndex bundle :
  Bundles.getById items bundleId = Some bundle →
  Spec.hasEntry bundle serverId →
  serverId ≠ EmptyString →
  Bundles.addServer now items bundleId serverId packageIndex = Ok (items, bundle).
Proof.
  intros Hget (servers & e & Hs & Hin & He) Hne.
  apply (addServer_present _ _ _ _ _ _ servers); [done|done|].
  destruct (find_isServer_present serverId servers) as (e' & -> & He'); [eauto|].
  destruct e' as [x|x p c]; simpl in *; [|done].
  subst x. unfold Js.truthy. apply negb_true_iff.
  apply String.eqb_neq. done.
Qed.

(** C7, at the input where the code departs from it: the bundle holds the
    old-format entry with the empty id; [servers.find] returns that entry,
    which is falsy, so [addServer] with the empty id pushes a second entry and
    the list grows from one element to two. *)
Theorem addServer_empty_legacy_id_grows :
  Spec.hasEntry Examples.legacy EmptyString ∧
  length (Spec.entries Examples.legacy) = 1%nat ∧
  ∃ items' bundle',
    Bundles.addServer 5 [Examples.legacy] "b1" EmptyString 3 = Ok (items', bundle') ∧
    Spec.entries bundle' = [OldEntry EmptyString; NewEntry EmptyString 3 None] ∧
    length (Spec.entries bundle') = 2%nat.
Proof.
  split; [|split].
  - exists [OldEntry EmptyString], (OldEntry EmptyString). simpl. auto.
  - reflexivity.
  - eexists _, _. split; [reflexivity|]. split; reflexivity.
Qed.

(** ** Attaching a connection *)



(** ** Removing a server *)

Lemma hasMapping_false_lookup bundle serverId :
  Bundles.hasMapping bundle serverId = false ↔
  ∀ m connectionId,
    Bundle.serverConnections bundle = Some m → m !! serverId = Some connectionId →
    connectionId = EmptyString.
Proof.
  unfold Bundles.hasMapping.
  destruct (Bundle.serverConnections bundle) as [m|]; [|split; [intros _ ? ? [=] | done]].
  destruct (m !! serverId) as [c|] eqn:L.
  - unfold Js.truthy. rewrite negb_false_iff, String.eqb_eq. split.
    + intros -> m' c' [= <-]. rewrite L. by intros [= <-].
    + intros H. by apply (H m c).
  - split; [|done]. intros _ m' c' [= <-]. rewrite L. discriminate.
Qed.

(** After the conditional [delete], no truthy mapping is left for
    [serverId]. *)
Lemma hasMapping_after_delete bundle serverId :
  Bundles.hasMapping
    (if Bundles.hasMapping bundle serverId
     then Bundles.deleteMapping bundle serverId else bundle) serverId = false.
Proof.
  destruct (Bundles.hasMapping bundle serverId) eqn:E; [|done].
  unfold Bundles.deleteMapping, Bundles.hasMapping in *.
  destruct (Bundle.serverConnections bundle) as [m|]; [|done].
  simpl. by rewrite lookup_delete_eq.
Qed.

Lemma getServerConnection_no_mapping items conns bundleId serverId bundle :
  Bundles.getById items bundleId = Some bundle →
  Bundles.hasMapping bundle serverId = false →
  Bundles.getServerConnection items conns bundleId serverId = Null.
Proof.
  intros Hget. unfold Bundles.getServerConnection, Bundles.hasMapping. rewrite Hget.
  destruct (Bundle.serverConnections bundle) as [m|]; [|done].
  destruct (m !! serverId) as [c|]; [|done]. by intros ->.
Qed.



(** ** Deleting a connection *)

Lemma existsb_usedBy_plain bundles connectionId :
  Spec.plain bundles → existsb (Connections.usedBy connectionId) bundles = false.
Proof.
  induction 1 as [|b rest Hb _ IH]; simpl; [done|].
  unfold Connections.usedBy at 1. by rewrite Hb.
Qed.

(** The guard of [delete] looks at [bundle.connections] only.  In a store where
    no bundle has that field, every connection that exists is deleted, whether
    or not [serverConnections] refers to it. *)
Lemma delete_plain bundles items connectionId index :
  Spec.plain bundles →
  Connections.findIndex items connectionId = Some index →
  Connections.delete bundles items connectionId
    = Ok (Connections.splice1 index items, true).
Proof.
  intros Hp Hi. unfold Connections.delete.
  by rewrite Hi, existsb_usedBy_plain.
Qed.

Lemma plain_put bundle items :
  Bundle.connections bundle = None → Spec.plain items →
  Spec.plain (Bundles.put bundle items).
Proof.
  intros Hb. induction 1 as [|b rest Hc Hrest IH]; simpl; [constructor|].
  destruct (String.eqb (Bundle.id b) (Bundle.id bundle)); by constructor.
Qed.

Lemma plain_getById items bundleId bundle :
  Spec.plain items → Bundles.getById items bundleId = Some bundle →
  Bundle.connections bundle = None.
Proof.
  intros Hp Hget. apply getById_In in Hget.
  unfold Spec.plain in Hp. rewrite Forall_forall in Hp.
  apply Hp. by apply list_elem_of_In.
Qed.

(** [create], [addServer], [removeServer], [attachConnection] and
    [detachConnection] never give a bundle the field [connections]. *)
Lemma plain_create now items name description :
  Spec.plain items → Spec.plain (fst (Bundles.create now items name description)).
Proof.
  intros Hp. simpl. apply Forall_app. split; [done|]. by repeat constructor.
Qed.

Lemma plain_addServer now items bundleId serverId packageIndex items' bundle' :
  Spec.plain items →
  Bundles.addServer now items bundleId serverId packageIndex = Ok (items', bundle') →
  Spec.plain items'.
Proof.
  intros Hp. unfold Bundles.addServer.
  destruct (Bundles.getById items bundleId) as [b|] eqn:Hget; [|discriminate].
  pose proof (plain_getById _ _ _ Hp Hget) as Hc.
  intros [= <- <-]. apply plain_put; [|done].
  by destruct (negb _).
Qed.

Lemma plain_attachConnection now items bundleId serverId connectionId items' bundle' :
  Spec.plain items →
  Bundles.attachConnection now items bundleId serverId connectionId
    = Ok (items', bundle') →
  Spec.plain items'.
Proof.
  intros Hp. unfold Bundles.attachConnection.
  destruct (Bundles.getById items bundleId) as [b|] eqn:Hget; [|discriminate].
  pose proof (plain_getById _ _ _ Hp Hget) as Hc.
  destruct (negb _); [discriminate|].
  intros [= <- <-]. by apply plain_put.
Qed.

Lemma connections_deleteMapping bundle serverId :
  Bundle.connections (Bundles.deleteMapping bundle serverId)
    = Bundle.connections bundle.
Proof.
  unfold Bundles.deleteMapping. by destruct (Bundle.serverConnections bundle).
Qed.

Lemma plain_removeServer now items bundleId serverId items' bundle' :
  Spec.plain items →
  Bundles.removeServer now items bundleId serverId = Ok (items', bundle') →
  Spec.plain items'.
Proof.
  intros Hp. unfold Bundles.removeServer.
  destruct (Bundles.getById items bundleId) as [b|] eqn:Hget; [|discriminate].
  pose proof (plain_getById _ _ _ Hp Hget) as Hc.
  destruct (Bundle.servers b) as [servers|]; [|by intros [= <- <-]].
  destruct (Bundles.findIndex serverId servers); [|by intros [= <- <-]].
  intros [= <- <-]. apply plain_put; [|done]. simpl.
  destruct (Bundles.hasMapping _ _); [|done].
  by rewrite connections_deleteMapping.
Qed.

Lemma plain_detachConnection now items bundleId serverId items' bundle' :
  Spec.plain items →
  Bundles.detachConnection now items bundleId serverId = Ok (items', bundle') →
  Spec.plain items'.
Proof.
  intros Hp. unfold Bundles.detachConnection.
  destruct (Bundles.getById items bundleId) as [b|] eqn:Hget; [|discriminate].
  pose proof (plain_getById _ _ _ Hp Hget) as Hc.
  destruct (Bundles.hasMapping b serverId); [|by intros [= <- <-]].
  intros [= <- <-]. apply plain_put; [|done]. simpl.
  by rewrite connections_deleteMapping.
Qed.

(** Detaching leaves no connection attached to the server. *)
Lemma detachConnection_clears now items conns bundleId serverId bundle :
  Bundles.getById items bundleId = Some bundle →
  ∃ items' bundle',
    Bundles.detachConnection now items bundleId serverId = Ok (items', bundle') ∧
    Bundles.getById items' bundleId = Some bundle' ∧
    Bundles.getServerConnection items' conns bundleId serverId = Null.
Proof.
  intros Hget. pose proof (getById_id _ _ _ Hget) as Hid.
  unfold Bundles.detachConnection. rewrite Hget.
  destruct (Bundles.hasMapping bundle serverId) eqn:E.
  - set (b' := Bundle.with_updated now (Bundles.deleteMapping bundle serverId)).
    assert (Hid' : Bundle.id b' = bundleId).
    { unfold b', Bundles.deleteMapping.
      by destruct (Bundle.serverConnections bundle). }
    assert (Hget' : Bundles.getById (Bundles.put b' items) bundleId = Some b')
      by (by apply (getById_put _ _ bundle)).
    exists (Bundles.put b' items), b'. split; [done|]. split; [done|].
    apply (getServerConnection_no_mapping _ _ _ _ _ Hget').
    pose proof (hasMapping_after_delete bundle serverId) as H. rewrite E in H.
    unfold b', Bundles.hasMapping in *.
    by destruct (Bundles.deleteMapping bundle serverId).
  - exists items, bundle. split; [done|]. split; [done|].
    by apply (getServerConnection_no_mapping _ _ _ _ _ Hget).
Qed.

(** C1, at the input where the code departs from it: a bundle made by
    [create], with one server added and a connection attached to it, refers to
    that connection ([getServerConnection] resolves it), and [delete] of the
    connection returns [true] and empties the connection list instead of
    throwing. *)
Theorem delete_referenced_connection_succeeds :
  Spec.referenced Examples.bundles2 (Connection.id Examples.conn1) ∧
  Bundles.getServerConnection Examples.bundles2 Examples.conns1 "1000" "srv-1"
    = Obj Examples.conn1 ∧
  Connections.delete Examples.bundles2 Examples.conns1
      (Connection.id Examples.conn1)
    = Ok ([], true).
Proof.
  split; [|split].
  - eexists _, _, "srv-1". split; [left; reflexivity|].
    split; [reflexivity|]. vm_compute. reflexivity.
  - vm_compute. reflexivity.
  - vm_compute. reflexivity.
Qed.

(** ** The cache *)

(** C10: [set] stores the [maxAge] it is given, and [get] never reads it: for
    an entry of any [maxAge], [get] removes the entry and returns [null] when
    more than 24 hours (86 400 000 ms) have passed since its timestamp, and
    returns its data and keeps the store otherwise. *)
Theorem cache_get_fixed_expiry {A : Type}
    (now t0 : Z) (store : gmap string (Cache.entry A)) (key : string)
    (d : A) (maxAge : option Z) (e : Cache.entry A) :
  Cache.set t0 store key d maxAge !! key = Some (Cache.mk d t0 maxAge) ∧
  Cache.get now (<[key := e]> store) key
    = (if now - Cache.timestamp e >? 86400000
       then (base.delete key store, None)
       else (<[key := e]> store, Some (Cache.data e))) ∧
  snd (Cache.get now (Cache.set t0 store key d maxAge) key)
    = (if now - t0 >? 86400000 then None else Some d).
Proof.
  assert (Hget : ∀ e', Cache.get now (<[key := e']> store) key
    = (if now - Cache.timestamp e' >? 86400000
       then (base.delete key store, None)
       else (<[key := e']> store, Some (Cache.data e')))).
  { intros e'. unfold Cache.get, Cache.remove. rewrite lookup_insert_eq.
    change (24 * 60 * 60 * 1000) with 86400000.
    destruct (now - Cache.timestamp e' >? 86400000); [|done].
    by rewrite delete_insert_eq. }
  split; [apply lookup_insert_eq|]. split; [apply Hget|].
  unfold Cache.set. rewrite Hget. simpl.
  by destruct (now - t0 >? 86400000).
Qed.

(** A one-second [maxAge] does not expire an entry read an hour later, and a
    two-day [maxAge] does not keep an entry read 25 hours later. *)
Example cache_maxAge_not_consulted :
  snd (Cache.get 3600000 (Cache.set 0 ∅ "servers" "payload" (Some 1000)) "servers")
    = Some "payload" ∧
  Cache.get 90000000 (Cache.set 0 ∅ "servers" "payload" (Some 172800000)) "servers"
    = (∅, None).
Proof. split; vm_compute; reflexivity. Qed.

(** ** The synthesizer *)

(** C6: the scenario of the specification. *)
Theorem synthesize_npm_scenario :
  ServerUtils.buildPackageConfig Examples.org_tool
    = Command "npx" ["@org/tool"] {[ "API_KEY" := "${API_KEY}" ]}.
Proof. vm_compute. reflexivity. Qed.












(** The placeholder loop of the exports leaves a value that is there: the
    default of the optional secret is what the exported file holds. *)
Lemma fillStep_keeps env secret key value :
  env !! key = Some value → Js.truthy value = true →
  Exports.fillStep env secret !! key = Some value.
Proof.
  intros Hk Hv. unfold Exports.fillStep.
  destruct (decide (secret = key)) as [->|Hne].
  - by rewrite Hk, Hv.
  - destruct (env !! secret) as [x|]; [destruct (Js.truthy x)|];
      by rewrite ?lookup_insert_ne.
Qed.

Lemma fillRequiredSecrets_keeps pkg env key value :
  env !! key = Some value → Js.truthy value = true →
  Exports.fillRequiredSecrets pkg env !! key = Some value.
Proof.
  unfold Exports.fillRequiredSecrets. revert env.
  induction (ServerUtils.getRequiredSecrets pkg) as [|secret l IH];
    intros env Hk Hv; simpl; [done|].
  apply IH; [|done]. by apply fillStep_keeps.
Qed.

Example export_with_default :
  ServerUtils.getRequiredSecrets Examples.with_default = ["REGION_TOKEN"] ∧
  Exports.fillRequiredSecrets Examples.with_default
    (Spec.config_env (ServerUtils.buildPackageConfig Examples.with_default))
    = {[ "REGION_TOKEN" := "eu-default-token" ]}.
Proof. split; vm_compute; reflexivity. Qed.

(** The inferred header of a remote package. *)
Example buildPackageConfig_remote_tool :
  ServerUtils.buildPackageConfig Examples.remote_tool
    = Remote "http" "https://example.com/mcp"
             (Some {[ "Authorization" := "Bearer ${ACME_TOKEN}" ]}).
Proof. vm_compute. reflexivity. Qed.

(** ** The share codec: encoding *)

Lemma length_utf8_bmp c : (length (Platform.utf8_bmp c) ≤ 3)%nat.
Proof.
  unfold Platform.utf8_bmp.
  destruct (c <? 128); [simpl; lia|]. destruct (c <? 2048); simpl; lia.
Qed.

(** A UTF-16 code unit gives at most three bytes of UTF-8 (a surrogate pair
    gives four for two). *)
Lemma length_TextEncoder_encode s :
  (length (Platform.TextEncoder_encode s) ≤ 3 * length s)%nat.
Proof.
  enough (H : (length (Platform.TextEncoder_encode s) ≤ 3 * length s)%nat ∧
              ∀ c, (length (Platform.TextEncoder_encode (c :: s))
                    ≤ 3 * length (c :: s))%nat) by apply H.
  induction s as [|a s [IH1 IH2]].
  - split; [simpl; lia|]. intros c. simpl.
    pose proof (length_utf8_bmp c). pose proof (length_utf8_bmp 65533).
    destruct (Platform.is_high_surrogate c); [simpl in *; lia|].
    destruct (Platform.is_low_surrogate c); [simpl; lia|].
    rewrite app_nil_r. lia.
  - split; [apply IH2|]. intros c.
    change (Platform.TextEncoder_encode (c :: a :: s)) with
      (if Platform.is_high_surrogate c then
         if Platform.is_low_surrogate a
         then Platform.utf8_pair c a ++ Platform.TextEncoder_encode s
         else Platform.utf8_bmp 65533 ++ Platform.TextEncoder_encode (a :: s)
       else if Platform.is_low_surrogate c
            then Platform.utf8_bmp 65533 ++ Platform.TextEncoder_encode (a :: s)
            else Platform.utf8_bmp c ++ Platform.TextEncoder_encode (a :: s)).
    pose proof (length_utf8_bmp c). pose proof (length_utf8_bmp 65533).
    specialize (IH2 a).
    remember (Platform.TextEncoder_encode (a :: s)) as E1.
    remember (Platform.TextEncoder_encode s) as E0.
    assert (Hp : length (Platform.utf8_pair c a) = 4%nat) by reflexivity.
    cbn [length] in *.
    destruct (Platform.is_high_surrogate c);
      [destruct (Platform.is_low_surrogate a)|
       destruct (Platform.is_low_surrogate c)];
      rewrite length_app; lia.
Qed.

(** The name written by [packBundle] never exceeds 150 bytes. *)
Lemma length_nameBytes (name : Js.jsstring) :
  (length (Platform.TextEncoder_encode (take 50 name)) ≤ 150)%nat.
Proof.
  pose proof (length_TextEncoder_encode (take 50 name)) as H.
  rewrite length_take in H. lia.
Qed.

Lemma length_be32 u : length (Platform.be32 u) = 4%nat.
Proof. reflexivity. Qed.

(** Writing at the end of what has been written so far, into a buffer that is
    still zero from there on. *)
Lemma write_fresh pre n new :
  (length new ≤ n)%nat →
  Platform.write (pre ++ replicate n 0) (length pre) new
    = (pre ++ new) ++ replicate (n - length new) 0.
Proof.
  intros Hn. unfold Platform.write.
  rewrite take_app_length, drop_app_add, drop_replicate.
  by rewrite <- app_assoc.
Qed.


Lemma serverBytes_cons s l :
  Spec.serverBytes (s :: l)
    = Platform.be32 (Platform.toUint32 (Platform.parseInt16 s)) ++ Spec.serverBytes l.
Proof. reflexivity. Qed.


Lemma writeServerIds_fresh pre serverIds :
  Codec.writeServerIds (pre ++ replicate (4 * length serverIds) 0) (length pre)
                       serverIds
    = Ok (pre ++ Spec.serverBytes serverIds).
Proof.
  revert pre. induction serverIds as [|s l IH]; intros pre.
  - simpl. by rewrite !app_nil_r.
  - cbn [Codec.writeServerIds]. unfold Platform.setUint32.
    assert (Hlen : (length pre + 4 <=?
                    length (pre ++ replicate (4 * length (s :: l)) 0%Z))%nat = true).
    { apply Nat.leb_le. rewrite length_app, length_replicate. simpl. lia. }
    rewrite Hlen. cbn [mbind Result_bind].
    rewrite write_fresh by (rewrite length_be32; simpl; lia).
    rewrite length_be32.
    replace (4 * length (s :: l) - 4)%nat with (4 * length l)%nat by (simpl; lia).
    replace (length pre + 4)%nat
      with (length (pre ++ Platform.be32 (Platform.toUint32 (Platform.parseInt16 s))))
      by (rewrite length_app, length_be32; lia).
    rewrite IH, serverBytes_cons. by rewrite <- app_assoc.
Qed.


(** [packBundle] never throws, and its result is the layout
    [nameLength | timestamp | name | server ids]. *)
Lemma packBundle_layout now bundle :
  let nameBytes := Platform.TextEncoder_encode (take 50 (Bundle.name bundle)) in
  Codec.packBundle now bundle
    = Ok ([Z.of_nat (length nameBytes)]
          ++ Platform.be32 (Platform.toUint32 (Some (now / 1000)))
          ++ nameBytes ++ Spec.serverBytes (Spec.shortIds bundle)).
Proof.
  intros nameBytes. unfold Codec.packBundle. fold nameBytes.
  pose proof (length_nameBytes (Bundle.name bundle)) as Hname. fold nameBytes in Hname.
  assert (H255 : (255 <? length nameBytes)%nat = false) by (apply Nat.ltb_ge; lia).
  rewrite H255. fold (Spec.entries bundle). fold (Spec.shortIds bundle).
  set (ids := Spec.shortIds bundle).
  set (total := (1 + 4 + length nameBytes + length ids * 4)%nat).
  (* name length *)
  unfold Platform.setUint8.
  assert (H1 : (0 + 1 <=? length (replicate total 0%Z))%nat = true).
  { apply Nat.leb_le. rewrite length_replicate. unfold total. lia. }
  rewrite H1. cbn [mbind Result_bind].
  change (replicate total 0) with ([] ++ replicate total 0).
  change 0%nat with (length (@nil Z)) at 1.
  rewrite write_fresh by (unfold total; simpl; lia).
  rewrite Z.mod_small by lia.
  (* timestamp *)
  set (pre1 := [] ++ [Z.of_nat (length nameBytes)]).
  unfold Platform.setUint32.
  replace (0 + 1)%nat with (length pre1) by reflexivity.
  assert (H2 : (length pre1 + 4 <=?
                length (pre1 ++ replicate (total - length [Z.of_nat (length nameBytes)]) 0%Z))%nat
               = true).
  { apply Nat.leb_le. rewrite length_app, length_replicate. unfold total. simpl. lia. }
  rewrite H2. cbn [mbind Result_bind].
  rewrite write_fresh by (rewrite length_be32; unfold total; simpl; lia).
  (* name *)
  set (pre2 := pre1 ++ Platform.be32 (Platform.toUint32 (Some (now / 1000)))).
  unfold Platform.set.
  replace (length pre1 + 4)%nat with (length pre2)
    by (unfold pre2; rewrite length_app, length_be32; lia).
  rewrite length_be32.
  assert (H3 : (length pre2 + length nameBytes <=?
                length (pre2 ++ replicate
                          (total - length [Z.of_nat (length nameBytes)] - 4) 0%Z))%nat
               = true).
  { apply Nat.leb_le. rewrite length_app, length_replicate. unfold total. simpl. lia. }
  rewrite H3. cbn [mbind Result_bind].
  rewrite write_fresh by (unfold total; simpl; lia).
  (* server ids *)
  replace (total - length [Z.of_nat (length nameBytes)] - 4 - length nameBytes)%nat
    with (4 * length ids)%nat by (unfold total; simpl; lia).
  replace (length pre2 + length nameBytes)%nat with (length (pre2 ++ nameBytes))
    by (rewrite length_app; lia).
  rewrite writeServerIds_fresh. unfold pre2, pre1. simpl.
  by rewrite <- ?app_assoc.
Qed.

(** ** The share codec: decoding *)

(** Four big-endian bytes give back the unsigned 32-bit number. *)
Lemma getUint32_be32 u rest :
  0 ≤ u < 4294967296 →
  Platform.getUint32 (Platform.be32 u ++ rest) 0 = Ok u.
Proof.
  intros Hu. unfold Platform.getUint32, Platform.be32. simpl. f_equal.
  pose proof (Z.div_mod u 256 ltac:(lia)) as H0.
  pose proof (Z.div_mod (u / 256) 256 ltac:(lia)) as H1.
  pose proof (Z.div_mod (u / 65536) 256 ltac:(lia)) as H2.
  rewrite Z.div_div in H1 by lia. change (256 * 256) with 65536 in H1.
  assert (H3 : u / 65536 / 256 = u / 16777216) by (rewrite Z.div_div by lia; done).
  rewrite H3 in H2. lia.
Qed.

Lemma toUint32_range v : 0 ≤ Platform.toUint32 v < 4294967296.
Proof. unfold Platform.toUint32. apply Z.mod_pos_bound. lia. Qed.

(** The loop of [unpackBundle] reads back what the loop of [packBundle]
    wrote. *)
Lemma readServerIds_serverBytes serverIds :
  Codec.readServerIds (Spec.serverBytes serverIds)
    = Ok (map (fun serverId =>
                 Codec.hex8 (Platform.toUint32 (Platform.parseInt16 serverId)))
              serverIds).
Proof.
  induction serverIds as [|s l IH]; [done|].
  rewrite serverBytes_cons.
  pose proof (toUint32_range (Platform.parseInt16 s)) as Hr.
  pose proof (getUint32_be32 _ [] Hr) as Hg. rewrite app_nil_r in Hg.
  remember (Platform.toUint32 (Platform.parseInt16 s)) as u.
  unfold Platform.be32 in *. cbn [app Codec.readServerIds].
  rewrite Hg. cbn [mbind Result_bind]. rewrite IH. subst u. reflexivity.
Qed.

(** [unpackBundle] on the layout of [packBundle]. *)
Lemma unpackBundle_layout (t : Z) (nameBytes : list Z) (serverIds : list string) :
  0 ≤ t < 4294967296 →
  Codec.unpackBundle
    ([Z.of_nat (length nameBytes)] ++ Platform.be32 t ++ nameBytes
     ++ Spec.serverBytes serverIds)
  = Ok (Codec.mkUnpacked
          (Platform.TextDecoder_decode nameBytes) t
          (map (fun serverId =>
                  Codec.hex8 (Platform.toUint32 (Platform.parseInt16 serverId)))
               serverIds)).
Proof.
  intros Ht. unfold Codec.unpackBundle.
  cbn [app Platform.getUint8 lookup list_lookup mbind Result_bind].
  assert (Hts : Platform.getUint32
                  (Z.of_nat (length nameBytes)
                   :: Platform.be32 t ++ nameBytes ++ Spec.serverBytes serverIds)
                  (0 + 1) = Ok t).
  { pose proof (getUint32_be32 t (nameBytes ++ Spec.serverBytes serverIds) Ht) as H.
    unfold Platform.getUint32 in *. exact H. }
  rewrite Hts. cbn [mbind Result_bind]. rewrite Nat2Z.id.
  assert (Hdrop : drop (0 + 1 + 4)
                    (Z.of_nat (length nameBytes)
                     :: Platform.be32 t ++ nameBytes ++ Spec.serverBytes serverIds)
                  = nameBytes ++ Spec.serverBytes serverIds) by reflexivity.
  rewrite Hdrop, take_app_length.
  replace (0 + 1 + 4 + length nameBytes)%nat with (5 + length nameBytes)%nat by lia.
  assert (Hdrop2 : drop (5 + length nameBytes)
                     (Z.of_nat (length nameBytes)
                      :: Platform.be32 t ++ nameBytes ++ Spec.serverBytes serverIds)
                   = Spec.serverBytes serverIds).
  { change (Z.of_nat (length nameBytes)
            :: Platform.be32 t ++ nameBytes ++ Spec.serverBytes serverIds)
      with (([Z.of_nat (length nameBytes)] ++ Platform.be32 t)
            ++ nameBytes ++ Spec.serverBytes serverIds).
    change 5%nat with (length ([Z.of_nat (length nameBytes)] ++ Platform.be32 t)).
    rewrite drop_app_add.
    replace (length nameBytes) with (length nameBytes + 0)%nat at 1 by lia.
    by rewrite drop_app_add. }
  rewrite Hdrop2, readServerIds_serverBytes. reflexivity.
Qed.

(** ** Hexadecimal ids *)

Lemma lower_hex_facts c :
  Spec.is_lower_hex c = true →
  ∃ d, Platform.hexval c = Some d ∧ 0 ≤ d < 16 ∧ Platform.hexchar d = c ∧
       Platform.is_space_ascii c = false.
Proof.
  destruct c as [[] [] [] [] [] [] [] []]; try discriminate; intros _;
    eexists; (split; [vm_compute; reflexivity|]); (split; [lia|]);
    split; reflexivity.
Qed.

Lemma hexPrefix_digits s acc :
  forallb Spec.is_lower_hex (list_ascii_of_string s) = true →
  Platform.hexPrefix (Some acc) s
    = Some (fold_left (fun acc c => 16 * acc + default 0 (Platform.hexval c))
                      (list_ascii_of_string s) acc).
Proof.
  revert acc. induction s as [|c s IH]; intros acc; simpl; [done|].
  intros H. apply andb_true_iff in H as [Hc Hs].
  destruct (lower_hex_facts c Hc) as (d & Hd & _).
  rewrite Hd. simpl. by apply IH.
Qed.

(** [parseInt(s, 16)] on a non-empty string of lowercase hexadecimal digits:
    there is no white space, sign or [0x] to skip, and every digit counts. *)
Lemma parseInt16_digits s :
  s ≠ EmptyString →
  forallb Spec.is_lower_hex (list_ascii_of_string s) = true →
  Platform.parseInt16 s = Some (Spec.digitsValue (list_ascii_of_string s)).
Proof.
  intros Hne Hall. unfold Spec.digitsValue.
  destruct s as [|c s]; [done|]. clear Hne.
  assert (Hplain : Platform.parseInt16 (String c s)
                   = (fun v => 1 * v) <$> Platform.hexPrefix None (String c s)).
  { simpl in Hall. apply andb_true_iff in Hall as [Hc Hs].
    destruct c as [[] [] [] [] [] [] [] []]; try discriminate Hc;
      try reflexivity.
    destruct s as [|c2 s]; [reflexivity|].
    simpl in Hs. apply andb_true_iff in Hs as [Hc2 _].
    destruct c2 as [[] [] [] [] [] [] [] []]; try discriminate Hc2; reflexivity. }
  rewrite Hplain. simpl in *. apply andb_true_iff in Hall as [Hc Hs].
  destruct (lower_hex_facts c Hc) as (d & Hd & _). rewrite Hd. simpl.
  rewrite (hexPrefix_digits s _ Hs). simpl. f_equal.
  destruct (fold_left _ _ _); reflexivity.
Qed.

Lemma digitsValue_snoc l c :
  Spec.digitsValue (l ++ [c])
    = 16 * Spec.digitsValue l + default 0 (Platform.hexval c).
Proof. unfold Spec.digitsValue. by rewrite fold_left_app. Qed.

(** A string of [k] lowercase digits denotes a number below [16^k] whose [k]
    digits are the string. *)
Lemma hexN_digitsValue l :
  forallb Spec.is_lower_hex l = true →
  0 ≤ Spec.digitsValue l < 16 ^ Z.of_nat (length l) ∧
  Spec.hexN (length l) (Spec.digitsValue l) = l.
Proof.
  induction l as [|c l IH] using rev_ind;
    [intros _; split; [unfold Spec.digitsValue; simpl; lia|done]|].
  rewrite forallb_app. intros H. apply andb_true_iff in H as [Hl Hc].
  simpl in Hc. rewrite andb_true_r in Hc.
  destruct (IH Hl) as [Hrange Hdigits].
  destruct (lower_hex_facts c Hc) as (d & Hd & Hdr & Hch & _).
  rewrite digitsValue_snoc, Hd, length_app. simpl default. simpl length.
  replace (length l + 1)%nat with (S (length l)) by lia.
  rewrite Nat2Z.inj_succ, Z.pow_succ_r by lia.
  assert (Hq : (16 * Spec.digitsValue l + d) / 16 = Spec.digitsValue l)
    by (symmetry; apply (Z.div_unique _ 16 _ d); lia).
  assert (Hm : (16 * Spec.digitsValue l + d) mod 16 = d)
    by (symmetry; apply (Z.mod_unique _ 16 (Spec.digitsValue l)); lia).
  split; [lia|]. simpl. by rewrite Hq, Hm, Hdigits, Hch.
Qed.

Lemma hexN_zero k : Spec.hexN k 0 = replicate k "0"%char.
Proof.
  induction k as [|k IH]; [done|].
  cbn [Spec.hexN]. change (0 / 16) with 0. rewrite IH.
  change (Platform.hexchar (0 mod 16)) with "0"%char.
  by rewrite <- replicate_S_end.
Qed.

(** Padding the digits [toString(16)] produces to a width that holds the
    number gives its fixed-width digits. *)
Lemma padStart0_hexDigits fuel :
  ∀ n acc j,
    0 ≤ n < 16 ^ Z.of_nat fuel → n < 16 ^ Z.of_nat j → (1 ≤ j)%nat →
    Platform.padStart0 (j + length acc) (Platform.hexDigits fuel n acc)
      = Spec.hexN j n ++ acc.
Proof.
  unfold Platform.padStart0.
  induction fuel as [|fuel IH]; intros n acc j Hn Hj Hj1.
  - simpl in *. assert (n = 0) as -> by lia.
    rewrite hexN_zero. f_equal. f_equal. lia.
  - cbn [Platform.hexDigits]. destruct j as [|j]; [lia|].
    rewrite Nat2Z.inj_succ, Z.pow_succ_r in Hn, Hj by lia.
    destruct (n / 16 =? 0) eqn:E.
    + apply Z.eqb_eq in E. cbn [Spec.hexN length]. rewrite E, hexN_zero.
      rewrite <- app_assoc. simpl. f_equal. f_equal. lia.
    + apply Z.eqb_neq in E.
      assert (Hq : 0 < n / 16) by (pose proof (Z.div_pos n 16); lia).
      assert (Hqf : n / 16 < 16 ^ Z.of_nat fuel)
        by (apply Z.div_lt_upper_bound; lia).
      assert (Hqj : n / 16 < 16 ^ Z.of_nat j)
        by (apply Z.div_lt_upper_bound; lia).
      assert (Hj' : (1 ≤ j)%nat).
      { destruct j; [simpl in Hqj; lia|lia]. }
      specialize (IH (n / 16) (Platform.hexchar (n mod 16) :: acc) j
                     ltac:(lia) Hqj Hj').
      cbn [length] in IH.
      replace (S j + length acc)%nat with (j + S (length acc))%nat by lia.
      rewrite IH. cbn [Spec.hexN]. by rewrite <- app_assoc.
Qed.

Lemma hex8_hexN n :
  0 ≤ n < 4294967296 → Codec.hex8 n = string_of_list_ascii (Spec.hexN 8 n).
Proof.
  intros Hn. unfold Codec.hex8, Platform.toString16. f_equal.
  pose proof (padStart0_hexDigits (S (Z.to_nat (Z.log2 n))) n [] 8) as H.
  rewrite app_nil_r in H. simpl length in H. rewrite Nat.add_0_r in H.
  apply H; [|simpl; lia|lia].
  split; [lia|].
  destruct (Z.eq_dec n 0) as [->|Hne]; [simpl; lia|].
  pose proof (Z.log2_spec n ltac:(lia)) as [_ Hlt].
  pose proof (Z.log2_nonneg n) as Hl.
  rewrite Nat2Z.inj_succ, Z2Nat.id by lia.
  eapply Z.lt_le_trans; [exact Hlt|].
  apply Z.pow_le_mono_l. lia.
Qed.

(** An id of eight lowercase hexadecimal characters survives the trip through
    [parseInt], [setUint32], [getUint32], [toString(16)] and [padStart]. *)
Lemma hex8_parseInt16 id :
  Spec.lower_hex8 id = true →
  Codec.hex8 (Platform.toUint32 (Platform.parseInt16 (String.substring 0 8 id)))
    = String.substring 0 8 id.
Proof.
  unfold Spec.lower_hex8. set (s := String.substring 0 8 id).
  intros H. apply andb_true_iff in H as [Hlen Hall]. apply Nat.eqb_eq in Hlen.
  assert (Hne : s ≠ EmptyString) by (intros E; rewrite E in Hlen; discriminate).
  rewrite (parseInt16_digits s Hne Hall).
  destruct (hexN_digitsValue _ Hall) as [Hrange Hdigits].
  rewrite Hlen in Hrange, Hdigits. change (16 ^ Z.of_nat 8) with 4294967296 in Hrange.
  unfold Platform.toUint32. simpl default. rewrite Z.mod_small by lia.
  rewrite hex8_hexN by lia. rewrite Hdigits.
  apply string_of_list_ascii_of_string.
Qed.

(** ** The share codec: round trip *)

(** Decoding what [packBundle] produced always succeeds; the timestamp read
    back is the Unix time in seconds reduced modulo 2^32, and each server id
    read back is the eight-digit form of what [parseInt] made of the first
    eight characters. *)
Lemma unpackBundle_packBundle_general now bundle :
  ∃ bytes,
    Codec.packBundle now bundle = Ok bytes ∧
    Codec.unpackBundle bytes
      = Ok (Codec.mkUnpacked
              (Platform.TextDecoder_decode
                 (Platform.TextEncoder_encode (take 50 (Bundle.name bundle))))
              ((now / 1000) mod 4294967296)
              (map (fun serverId =>
                      Codec.hex8 (Platform.toUint32 (Platform.parseInt16 serverId)))
                   (Spec.shortIds bundle))).
Proof.
  eexists. split; [apply packBundle_layout|].
  apply unpackBundle_layout. apply (toUint32_range (Some (now / 1000))).
Qed.

Lemma map_hex8_shortIds bundle :
  Forall (fun entry => Spec.lower_hex8 (Codec.entryId entry) = true)
         (Spec.entries bundle) →
  map (fun serverId =>
         Codec.hex8 (Platform.toUint32 (Platform.parseInt16 serverId)))
      (Spec.shortIds bundle)
    = Spec.shortIds bundle.
Proof.
  unfold Spec.shortIds. induction 1 as [|e l He _ IH]; [done|].
  simpl. by rewrite IH, (hex8_parseInt16 _ He).
Qed.

(** C2 as stated does not hold at every instant: the timestamp field has 32
    bits, and a bundle packed when the Unix time is 4294967296 s (in February
    2106) is unpacked with the timestamp 0. *)
Lemma timestamp_wraps_at_2_32 : ¬ Spec.round_trip.
Proof.
  intros H.
  destruct (H 4294967296000 Examples.demo) as (bytes & unpacked & Hp & Hu & _ & Ht).
  - vm_compute. lia.
  - repeat constructor.
  - destruct (unpackBundle_packBundle_general 4294967296000 Examples.demo)
      as (bytes' & Hp' & Hu').
    rewrite Hp in Hp'. injection Hp' as <-. rewrite Hu in Hu'.
    injection Hu' as ->. simpl in Ht. vm_compute in Ht. discriminate Ht.
Qed.

(** C2, amended: for a bundle whose name has at most 255 bytes of UTF-8 and
    whose entries have ids that begin with eight lowercase hexadecimal
    characters, packed while the Unix time in seconds fits the 32-bit field,
    [unpackBundle] of [packBundle] yields one id per entry, each the first
    eight characters of the entry's id, and the timestamp is
    [Math.floor(Date.now() / 1000)] of the packing. *)
Theorem unpackBundle_packBundle now bundle :
  (length (Platform.TextEncoder_encode (Bundle.name bundle)) ≤ 255)%nat →
  Forall (fun entry => Spec.lower_hex8 (Codec.entryId entry) = true)
         (Spec.entries bundle) →
  0 ≤ now / 1000 < 4294967296 →
  ∃ bytes unpacked,
    Codec.packBundle now bundle = Ok bytes ∧
    Codec.unpackBundle bytes = Ok unpacked ∧
    Codec.servers unpacked
      = map (fun entry => String.substring 0 8 (Codec.entryId entry))
            (Spec.entries bundle) ∧
    length (Codec.servers unpacked) = length (Spec.entries bundle) ∧
    Codec.sharedTime unpacked = now / 1000.
Proof.
  intros _ Hids Hnow.
  destruct (unpackBundle_packBundle_general now bundle) as (bytes & Hp & Hu).
  eexists _, _. split; [exact Hp|]. split; [exact Hu|]. simpl.
  rewrite (map_hex8_shortIds _ Hids). unfold Spec.shortIds.
  split; [done|]. split; [by rewrite length_map|].
  by apply Z.mod_small.
Qed.

(** The theorem at a bundle with one entry in each format. *)
Lemma unpackBundle_packBundle_witness :
  ∃ bytes unpacked,
    Codec.packBundle 1730559600123 Examples.demo = Ok bytes ∧
    Codec.unpackBundle bytes = Ok unpacked ∧
    Codec.servers unpacked = ["0000beef"; "deadbeef"] ∧
    length (Codec.servers unpacked) = 2%nat ∧
    Codec.sharedTime unpacked = 1730559600.
Proof.
  apply (unpackBundle_packBundle 1730559600123 Examples.demo).
  - vm_compute. lia.
  - repeat constructor.
  - change (1730559600123 / 1000) with 1730559600. lia.
Defined.

(** ** The share codec: the length of the name *)



Example packBundle_name255_name256 :
  length (Platform.TextEncoder_encode (Bundle.name Examples.name255)) = 255%nat ∧
  length (Platform.TextEncoder_encode (Bundle.name Examples.name256)) = 256%nat ∧
  Codec.packBundle 0 Examples.name255 = Ok ([50; 0; 0; 0; 0] ++ replicate 50 97) ∧
  Codec.packBundle 0 Examples.name256 = Ok ([50; 0; 0; 0; 0] ++ replicate 50 97).
Proof. repeat split; vm_compute; reflexivity. Qed.

(** ** The share codec: the order of the decoders *)

Lemma unpackBundle_short binaryData :
  (length binaryData < 5)%nat → Codec.unpackBundle binaryData = Throw "RangeError".
Proof.
  intros H.
  destruct binaryData as [|a [|b [|c [|d [|e rest]]]]]; try reflexivity.
  simpl in H. lia.
Qed.

(** Which byte arrays [unpackBundle] accepts: at least the five bytes of the
    header, and whole groups of four bytes after the name. *)
Lemma readServerIds_ok rest :
  isOk (Codec.readServerIds rest) = true ↔ (length rest mod 4 = 0)%nat.
Proof.
  assert (H : ∀ n rest, (length rest ≤ n)%nat →
              (isOk (Codec.readServerIds rest) = true ↔ (length rest mod 4 = 0)%nat)).
  { clear rest. induction n as [n IH] using lt_wf_ind. intros rest Hlen.
    destruct rest as [|a [|b [|c [|d rest]]]]; try (simpl; split; [discriminate|]).
    - done.
    - vm_compute. discriminate.
    - vm_compute. discriminate.
    - vm_compute. discriminate.
    - cbn [Codec.readServerIds]. unfold Platform.getUint32. simpl take.
      cbn [mbind Result_bind].
      assert (IH' := IH (length rest) ltac:(simpl in Hlen; lia) rest ltac:(lia)).
      replace (length (a :: b :: c :: d :: rest)) with (4 + length rest)%nat
        by reflexivity.
      replace ((4 + length rest) mod 4)%nat with (length rest mod 4)%nat
        by (rewrite <- (Nat.Div0.add_mod_idemp_l 4 (length rest) 4); reflexivity).
      rewrite <- IH'. by destruct (Codec.readServerIds rest). }
  by apply (H (length rest)).
Qed.

Lemma unpackBundle_ok binaryData nameLength :
  binaryData !! 0%nat = Some nameLength →
  (isOk (Codec.unpackBundle binaryData) = true ↔
   (5 ≤ length binaryData)%nat ∧
   (length (drop (5 + Z.to_nat nameLength) binaryData) mod 4 = 0)%nat).
Proof.
  intros H0. rewrite <- readServerIds_ok.
  destruct binaryData as [|a [|b [|c [|d [|e rest]]]]];
    try (simpl; split; [discriminate | intros [? _]; simpl in *; lia]).
  injection H0 as ->. unfold Codec.unpackBundle.
  cbn [Platform.getUint8 lookup list_lookup mbind Result_bind].
  unfold Platform.getUint32. simpl take. cbn [mbind Result_bind].
  replace (0 + 1 + 4 + Z.to_nat nameLength)%nat with (5 + Z.to_nat nameLength)%nat
    by lia.
  split.
  - intros H. split; [simpl; lia|].
    by destruct (Codec.readServerIds _).
  - intros [_ H]. by destruct (Codec.readServerIds _).
Qed.

(** C5 as stated does not hold: the decoded legacy payload has 42 bytes, and
    it is not parsed per the binary layout. *)
Lemma legacy_token_not_binary : ¬ Spec.binary_first.
Proof.
  intros H.
  specialize (H Examples.legacy_token
                Examples.legacy_payload).
  assert (Hatob : Platform.atob (Codec.toStandardAlphabet Examples.legacy_token)
                  = Ok Examples.legacy_payload)
    by (vm_compute; reflexivity).
  specialize (H Hatob). vm_compute in H.
  assert (Hle : (5 <= 42)%nat) by lia. specialize (H Hle). discriminate H.
Qed.

(** C5, amended: for every share token that [atob] decodes, [JSON.parse] is
    attempted first on the decoded text, and its value is taken whenever it
    succeeds, whatever the length; only when [JSON.parse] throws are the
    decoded bytes parsed per the binary layout, and that parse throws when
    fewer than 5 bytes are there: it succeeds exactly when there are at least
    5 bytes and the bytes after the name come in groups of four. *)
Theorem importFromURL_json_first encodedData decoded :
  Platform.atob (Codec.toStandardAlphabet encodedData) = Ok decoded →
  (∀ v, Json.parse decoded = Some v →
        Codec.importFromURL_sharedBundle encodedData = Ok (Codec.FromJson v)) ∧
  (Json.parse decoded = None →
   Codec.importFromURL_sharedBundle encodedData
     = Codec.FromBinary <$> Codec.unpackBundle decoded) ∧
  (Json.parse decoded = None → (length decoded < 5)%nat →
   Codec.importFromURL_sharedBundle encodedData = Throw "RangeError") ∧
  (Json.parse decoded = None →
   ∀ nameLength, decoded !! 0%nat = Some nameLength →
     (isOk (Codec.importFromURL_sharedBundle encodedData) = true ↔
      (5 ≤ length decoded)%nat ∧
      (length (drop (5 + Z.to_nat nameLength) decoded) mod 4 = 0)%nat)).
Proof.
  intros Hatob. unfold Codec.importFromURL_sharedBundle. rewrite Hatob.
  cbn [mbind Result_bind].
  split; [by intros v ->|]. split; [by intros ->|].
  split; [intros -> Hlen; by rewrite unpackBundle_short|].
  intros -> nameLength H0. rewrite <- (unpackBundle_ok _ _ H0).
  by destruct (Codec.unpackBundle decoded).
Qed.

(** The theorem at the legacy token of the specification's scenario. *)
Lemma importFromURL_json_first_witness :
  Codec.importFromURL_sharedBundle Examples.legacy_token
    = Ok (Codec.FromJson
            (Json.JObject
               [(Js.lit "name", Json.JString (Js.lit "Old Bundle"));
                (Js.lit "servers", Json.JArray [Json.JString (Js.lit "abc123")])])).
Proof.
  apply (importFromURL_json_first Examples.legacy_token
           Examples.legacy_payload).
  - vm_compute. reflexivity.
  - vm_compute. reflexivity.
Defined.

(** The order matters: the bytes [packBundle] makes of a bundle without
    servers whose 34-character name ends in a double quote are a JSON string,
    and the token is taken for the legacy format. *)
Example quoted_token_read_as_json :
  Codec.shareBundle_token 1730559600123 Examples.quoted
    = Ok Examples.quoted_token ∧
  (Codec.packBundle 1730559600123 Examples.quoted
     ≫= λ bytes, Ok (Json.parse bytes))
    = Ok (Some (Json.JString (Js.lit "g&>pabcdefghijklmnopqrstuvwxyz0123456"))) ∧
  Codec.importFromURL_sharedBundle Examples.quoted_token
    = Ok (Codec.FromJson
            (Json.JString (Js.lit "g&>pabcdefghijklmnopqrstuvwxyz0123456"))).
Proof. repeat split; vm_compute; reflexivity. Qed.

(** A token made by [shareBundle] from [packBundle] is not JSON and is read
    per the binary layout. *)
Example importFromURL_demo_token :
  Codec.shareBundle_token 1730559600123 Examples.demo = Ok Examples.demo_token ∧
  Codec.importFromURL_sharedBundle Examples.demo_token
    = Ok (Codec.FromBinary
            (Codec.mkUnpacked (Js.lit "Demo") 1730559600
                              ["0000beef"; "deadbeef"])).
Proof. split; vm_compute; reflexivity. Qed.

(** * Further properties of the stores *)

Lemma getById_put_other items bundle' other :
  Bundle.id bundle' ≠ other →
  Bundles.getById (Bundles.put bundle' items) other = Bundles.getById items other.
Proof.
  intros Hne. unfold Bundles.getById.
  induction items as [|b rest IH]; simpl; [done|].
  destruct (String.eqb (Bundle.id b) (Bundle.id bundle')) eqn:E; simpl.
  - apply String.eqb_eq in E.
    assert (H1 : String.eqb (Bundle.id bundle') other = false)
      by by apply String.eqb_neq.
    rewrite H1. rewrite E. by rewrite H1.
  - by rewrite IH.
Qed.

Lemma length_put bundle' items : length (Bundles.put bundle' items) = length items.
Proof.
  induction items as [|b rest IH]; simpl; [done|].
  destruct (String.eqb (Bundle.id b) (Bundle.id bundle')); simpl; by rewrite ?IH.
Qed.

Lemma find_isServer_absent serverId servers :
  (¬ ∃ entry, In entry servers ∧ Codec.entryId entry = serverId) →
  List.find (Bundles.isServer serverId) servers = None.
Proof.
  intros H. destruct (List.find (Bundles.isServer serverId) servers) as [e|] eqn:F;
    [|done].
  exfalso. apply H. apply find_some in F as [Hin He]. exists e. split; [done|].
  by apply isServer_entryId.
Qed.

Lemma entries_absent bundle serverId :
  ¬ Spec.hasEntry bundle serverId →
  ¬ ∃ entry, In entry (Spec.entries bundle) ∧ Codec.entryId entry = serverId.
Proof.
  unfold Spec.hasEntry, Spec.entries. intros H (e & Hin & He).
  destruct (Bundle.servers bundle) as [servers|] eqn:Hs; [|done].
  apply H. eauto.
Qed.

(** What [addServer] returns when the bundle is in the store, in terms of the
    entry list. *)
Lemma addServer_result now items bundleId serverId packageIndex bundle :
  Bundles.getById items bundleId = Some bundle →
  ∃ bundle',
    Bundles.addServer now items bundleId serverId packageIndex
      = Ok (Bundles.put bundle' items, bundle') ∧
    Bundle.id bundle' = bundleId ∧
    Bundle.serverConnections bundle' = Bundle.serverConnections bundle ∧
    Bundle.connections bundle' = Bundle.connections bundle ∧
    ((Bundles.found_truthy
        (List.find (Bundles.isServer serverId) (Spec.entries bundle)) = true ∧
      Spec.entries bundle' = Spec.entries bundle ∧
      Bundle.updated bundle' = Bundle.updated bundle) ∨
     (Bundles.found_truthy
        (List.find (Bundles.isServer serverId) (Spec.entries bundle)) = false ∧
      Spec.entries bundle'
        = Spec.entries bundle ++ [NewEntry serverId packageIndex None] ∧
      Bundle.updated bundle' = now)).
Proof.
  intros Hget. pose proof (getById_id _ _ _ Hget) as Hid.
  unfold Bundles.addServer. rewrite Hget. fold (Spec.entries bundle).
  destruct (Bundles.found_truthy _) eqn:E; simpl; eexists; (split; [reflexivity|]);
    simpl; repeat split; try done; [left | right]; done.
Qed.

(** X1: adding a server that the bundle does not hold appends one entry in the
    new format, with the package index given and no connection, after the
    entries that were there; the bundle's [updated] is refreshed and its
    connections are untouched. *)
Theorem addServer_absent_appends
    now items bundleId serverId packageIndex bundle :
  Bundles.getById items bundleId = Some bundle →
  ¬ Spec.hasEntry bundle serverId →
  ∃ items' bundle',
    Bundles.addServer now items bundleId serverId packageIndex
      = Ok (items', bundle') ∧
    Bundles.getById items' bundleId = Some bundle' ∧
    Spec.entries bundle'
      = Spec.entries bundle ++ [NewEntry serverId packageIndex None] ∧
    Bundle.updated bundle' = now ∧
    Bundle.serverConnections bundle' = Bundle.serverConnections bundle ∧
    Spec.hasEntry bundle' serverId.
Proof.
  intros Hget Habs.
  destruct (addServer_result now items bundleId serverId packageIndex bundle Hget)
    as (b' & Hadd & Hid & Hsc & _ & Hcase).
  rewrite (find_isServer_absent _ _ (entries_absent _ _ Habs)) in Hcase.
  destruct Hcase as [[Hf _] | (_ & Hent & Hupd)]; [discriminate Hf|].
  exists (Bundles.put b' items), b'. split; [done|].
  split; [by apply (getById_put _ _ bundle)|]. split; [done|].
  split; [done|]. split; [done|].
  unfold Spec.hasEntry. unfold Spec.entries in Hent at 1.
  destruct (Bundle.servers b') as [servers|]; simpl in Hent.
  - exists servers, (NewEntry serverId packageIndex None).
    split; [done|]. split; [|done]. rewrite Hent. apply in_or_app. right. by left.
  - by destruct (Spec.entries bundle).
Qed.

(** The theorem at the bundle with [srv-1], for a second server. *)
Lemma addServer_absent_appends_witness :
  ∃ items' bundle',
    Bundles.addServer 1005 Examples.bundles1 "1000" "srv-2" 1
      = Ok (items', bundle') ∧
    Spec.entries bundle' = [NewEntry "srv-1" 0 None; NewEntry "srv-2" 1 None].
Proof.
  assert (Hget : Bundles.getById Examples.bundles1 "1000" = Some Examples.bundle1)
    by (vm_compute; reflexivity).
  destruct (addServer_absent_appends 1005 Examples.bundles1 "1000" "srv-2" 1
              Examples.bundle1 Hget) as (items' & bundle' & H1 & _ & H3 & _).
  - intros (servers & entry & Hs & Hin & He).
    vm_compute in Hs. injection Hs as <-.
    destruct Hin as [<- | []]. discriminate He.
  - exists items', bundle'. split; [exact H1|]. rewrite H3. reflexivity.
Defined.

Lemma NoDup_splice1 {A} (l : list A) index :
  List.NoDup l → List.NoDup (Connections.splice1 index l).
Proof.
  intros H. unfold Connections.splice1.
  rewrite <- (take_drop index l) in H.
  assert (E : drop (S index) l = drop 1 (drop index l))
    by (rewrite drop_drop; f_equal; lia).
  apply NoDup_ListNoDup. apply NoDup_ListNoDup in H.
  apply NoDup_app in H as (H1 & H2 & H3). apply NoDup_app. split; [done|].
  rewrite E. split.
  - intros x Hx Hd. apply (H2 x Hx). by apply (subseteq_drop 1) in Hd.
  - rewrite <- (take_drop 1 (drop index l)) in H3.
    by apply NoDup_app in H3 as (_ & _ & H3).
Qed.

Lemma splice1_map {A B} (f : A → B) (l : list A) index :
  map f (Connections.splice1 index l) = Connections.splice1 index (map f l).
Proof.
  unfold Connections.splice1.
  by rewrite map_app, <- !fmap_take, <- !fmap_drop.
Qed.

Lemma In_splice1 {A} (l : list A) index x :
  In x (Connections.splice1 index l) → In x l.
Proof.
  unfold Connections.splice1. intros H. apply in_app_or in H as [H|H].
  - apply list_elem_of_In in H. apply list_elem_of_In.
    by apply subseteq_take in H.
  - apply list_elem_of_In in H. apply list_elem_of_In.
    by apply subseteq_drop in H.
Qed.

(** What [removeServer] returns when the bundle is in the store, in terms of
    the entry list. *)
Lemma removeServer_spec_entries now items bundleId serverId bundle :
  Bundles.getById items bundleId = Some bundle →
  ∃ bundle' items',
    Bundles.removeServer now items bundleId serverId = Ok (items', bundle') ∧
    (Spec.entries bundle' = Spec.entries bundle ∨
     ∃ index,
       Spec.entries bundle' = Connections.splice1 index (Spec.entries bundle)).
Proof.
  intros Hget. unfold Bundles.removeServer, Spec.entries. rewrite Hget.
  destruct (Bundle.servers bundle) as [servers|] eqn:Hs;
    [|eexists _, _; split; [reflexivity|]; left; by rewrite Hs].
  destruct (Bundles.findIndex serverId servers) as [index|];
    [|eexists _, _; split; [reflexivity|]; left; by rewrite Hs].
  eexists _, _. split; [reflexivity|]. right. exists index. simpl.
  destruct (Bundles.hasMapping _ _); [|done].
  unfold Bundles.deleteMapping. simpl.
  by destruct (Bundle.serverConnections bundle).
Qed.

(** X2: [addServer] and [removeServer] keep the invariant of the entry list:
    if no server id occurs twice and no old-format entry is the empty id
    before the call, the same holds of the bundle returned, for every
    [serverId] and [packageIndex]. *)
Theorem entries_stay_unique now items bundleId serverId packageIndex bundle :
  Bundles.getById items bundleId = Some bundle →
  Spec.unique_entries bundle →
  (∃ items' bundle',
     Bundles.addServer now items bundleId serverId packageIndex
       = Ok (items', bundle') ∧
     Spec.unique_entries bundle') ∧
  (∃ items' bundle',
     Bundles.removeServer now items bundleId serverId = Ok (items', bundle') ∧
     Spec.unique_entries bundle').
Proof.
  intros Hget [Hnd Hlegacy]. split.
  - destruct (addServer_result now items bundleId serverId packageIndex bundle Hget)
      as (b' & Hadd & _ & _ & _ & Hcase).
    exists (Bundles.put b' items), b'. split; [done|].
    destruct Hcase as [(_ & Hent & _) | (Hf & Hent & _)];
      unfold Spec.unique_entries; rewrite Hent; [done|].
    assert (Habs : ¬ In serverId (map Codec.entryId (Spec.entries bundle))).
    { intros Hin. apply in_map_iff in Hin as (e & He & Hin).
      destruct (find_isServer_present serverId (Spec.entries bundle))
        as (e' & Hfind & He'); [eauto|].
      rewrite Hfind in Hf. apply find_some in Hfind as [Hin' _].
      destruct e' as [x|x p c]; simpl in *; [|discriminate].
      unfold Js.truthy in Hf. apply negb_false_iff, String.eqb_eq in Hf.
      subst x. by apply Hlegacy. }
    split.
    + rewrite map_app. simpl. apply NoDup_ListNoDup, NoDup_app.
      split; [by apply NoDup_ListNoDup|]. split.
      * intros x Hx Hx'. apply list_elem_of_In in Hx.
        apply list_elem_of_In in Hx'. destruct Hx' as [<- | []]. done.
      * apply NoDup_singleton.
    + intros Hin. apply in_app_or in Hin as [Hin | [Hin | []]]; [done|discriminate].
  - destruct (removeServer_spec_entries now items bundleId serverId bundle Hget)
      as (b' & items' & Hrem & [Hent | (index & Hent)]);
      exists items', b'; (split; [done|]); unfold Spec.unique_entries;
      rewrite Hent; [done|].
    split.
    + rewrite splice1_map. by apply NoDup_splice1.
    + intros Hin. apply Hlegacy. by apply In_splice1 in Hin.
Qed.

(** The theorem at the bundle with [srv-1], for the removal of that server. *)
Lemma entries_stay_unique_witness :
  ∃ items' bundle',
    Bundles.removeServer 1005 Examples.bundles1 "1000" "srv-1"
      = Ok (items', bundle') ∧
    Spec.unique_entries bundle'.
Proof.
  assert (Hget : Bundles.getById Examples.bundles1 "1000" = Some Examples.bundle1)
    by (vm_compute; reflexivity).
  assert (U : Spec.unique_entries Examples.bundle1).
  { split.
    - vm_compute. constructor; [intros [] | constructor].
    - vm_compute. intros [H | []]. discriminate H. }
  exact (proj2 (entries_stay_unique 1005 Examples.bundles1 "1000" "srv-1" 0
                  Examples.bundle1 Hget U)).
Defined.

(** ** The four operations and the rest of the store *)

Lemma id_deleteMapping bundle serverId :
  Bundle.id (Bundles.deleteMapping bundle serverId) = Bundle.id bundle.
Proof.
  unfold Bundles.deleteMapping. by destruct (Bundle.serverConnections bundle).
Qed.

(** Every successful call writes the bundle it returns back at the place of
    the bundle it looked up. *)
Lemma call_shape now items bundleId op items' bundle' :
  Spec.call now items bundleId op = Ok (items', bundle') →
  ∃ bundle,
    Bundles.getById items bundleId = Some bundle ∧
    Bundle.id bundle' = bundleId ∧ items' = Bundles.put bundle' items.
Proof.
  destruct op as [serverId packageIndex | serverId | serverId connectionId | serverId];
    simpl.
  - unfold Bundles.addServer.
    destruct (Bundles.getById items bundleId) as [b|] eqn:Hget; [|discriminate].
    pose proof (getById_id _ _ _ Hget) as Hid.
    intros [= <- <-]. exists b. split; [done|]. split; [|done].
    by destruct (negb _).
  - unfold Bundles.removeServer.
    destruct (Bundles.getById items bundleId) as [b|] eqn:Hget; [|discriminate].
    pose proof (getById_id _ _ _ Hget) as Hid. exists b. split; [done|].
    destruct (Bundle.servers b) as [servers|];
      [|injection H as <- <-; by rewrite (put_same _ _ _ Hget)].
    destruct (Bundles.findIndex serverId servers);
      [|injection H as <- <-; by rewrite (put_same _ _ _ Hget)].
    injection H as <- <-. split; [|done]. simpl.
    destruct (Bundles.hasMapping _ _); [|done]. by rewrite id_deleteMapping.
  - unfold Bundles.attachConnection.
    destruct (Bundles.getById items bundleId) as [b|] eqn:Hget; [|discriminate].
    pose proof (getById_id _ _ _ Hget) as Hid.
    destruct (negb _); [discriminate|]. intros [= <- <-]. by exists b.
  - unfold Bundles.detachConnection.
    destruct (Bundles.getById items bundleId) as [b|] eqn:Hget; [|discriminate].
    pose proof (getById_id _ _ _ Hget) as Hid. exists b. split; [done|].
    destruct (Bundles.hasMapping b serverId);
      [|injection H as <- <-; by rewrite (put_same _ _ _ Hget)].
    injection H as <- <-. split; [|done]. simpl. by rewrite id_deleteMapping.
Qed.

(** X3: a successful [addServer], [removeServer], [attachConnection] or
    [detachConnection] on the bundle [bundleId] returns the bundle the store
    holds under that id afterwards, keeps the number of bundles, and leaves
    the bundle found under any other id as it was. *)
Theorem call_touches_one_bundle now items bundleId op items' bundle' other :
  Spec.call now items bundleId op = Ok (items', bundle') →
  other ≠ bundleId →
  Bundles.getById items' bundleId = Some bundle' ∧
  Bundles.getById items' other = Bundles.getById items other ∧
  length items' = length items.
Proof.
  intros Hcall Hne.
  destruct (call_shape _ _ _ _ _ _ Hcall) as (b & Hget & Hid & ->).
  split; [by apply (getById_put _ _ b)|].
  split; [apply getById_put_other; congruence | apply length_put].
Qed.

(** The theorem in a store of two bundles, for a server added to the
    second. *)
Lemma call_touches_one_bundle_witness :
  ∃ items' bundle',
    Bundles.addServer 2001
        (fst (Bundles.create 2000 Examples.bundles1 (Js.lit "Second") []))
        "2000" "srv-9" 1
      = Ok (items', bundle') ∧
    Bundles.getById items' "1000" = Some Examples.bundle1 ∧
    length items' = 2%nat.
Proof.
  set (items := fst (Bundles.create 2000 Examples.bundles1 (Js.lit "Second") [])).
  destruct (Bundles.addServer 2001 items "2000" "srv-9" 1) as [[items' bundle']|msg]
    eqn:E; [|vm_compute in E; discriminate E].
  exists items', bundle'. split; [reflexivity|].
  destruct (call_touches_one_bundle 2001 items "2000" (Spec.AddServer "srv-9" 1)
              items' bundle' "1000" E) as (_ & H2 & H3); [discriminate|].
  split; [rewrite H2 | rewrite H3]; vm_compute; reflexivity.
Defined.


(** ** Deleting a bundle *)





(** ** The connections store *)

Lemma get_Obj_id items connectionId c :
  Connections.get items connectionId = Obj c → Connection.id c = connectionId.
Proof.
  unfold Connections.get.
  destruct (List.find _ items) as [c'|] eqn:F; [|discriminate].
  intros [= <-]. apply find_some in F as [_ F]. by apply String.eqb_eq.
Qed.

Lemma get_cons c rest connectionId :
  Connections.get (c :: rest) connectionId
  = if String.eqb (Connection.id c) connectionId then Obj c
    else Connections.get rest connectionId.
Proof.
  unfold Connections.get. simpl.
  by destruct (String.eqb (Connection.id c) connectionId).
Qed.

Lemma get_not_In items connectionId :
  ¬ In connectionId (map Connection.id items) →
  Connections.get items connectionId = Undefined.
Proof.
  induction items as [|c rest IH]; [done|]. rewrite get_cons. simpl. intros H.
  destruct (String.eqb (Connection.id c) connectionId) eqn:E.
  - apply String.eqb_eq in E. tauto.
  - apply IH. tauto.
Qed.

(** X6: after [create], [get] returns for every id what it returned before,
    and the new connection under the new id if that id was free; a connection
    made under an id that is taken cannot be reached by [get]. *)
Theorem create_then_get
    now rnd items name serverId packageId credentials connectionId :
  Connections.get
    (fst (Connections.create now rnd items name serverId packageId credentials))
    connectionId
  = match Connections.get items connectionId with
    | Undefined =>
        let connection :=
          snd (Connections.create now rnd items name serverId packageId credentials) in
        if String.eqb (Connection.id connection) connectionId
        then Obj connection else Undefined
    | found => found
    end.
Proof.
  simpl. induction items as [|c rest IH]; simpl.
  - rewrite get_cons. reflexivity.
  - rewrite !get_cons.
    by destruct (String.eqb (Connection.id c) connectionId).
Qed.

Lemma findIndex_get items connectionId :
  Connections.get items connectionId ≠ Undefined →
  ∃ index, Connections.findIndex items connectionId = Some index.
Proof.
  induction items as [|c rest IH]; [done|]. rewrite get_cons. simpl.
  destruct (String.eqb (Connection.id c) connectionId); [eauto|].
  intros H. destruct (IH H) as [i ->]. simpl. eauto.
Qed.

Lemma get_splice1 items connectionId index :
  Connections.findIndex items connectionId = Some index →
  (∀ other, other ≠ connectionId →
     Connections.get (Connections.splice1 index items) other
       = Connections.get items other) ∧
  (Spec.unique_ids items →
   Connections.get (Connections.splice1 index items) connectionId = Undefined).
Proof.
  revert index. induction items as [|c rest IH]; intros index; simpl; [discriminate|].
  destruct (String.eqb (Connection.id c) connectionId) eqn:E.
  - intros [= <-]. apply String.eqb_eq in E.
    change (Connections.splice1 0 (c :: rest)) with rest. split.
    + intros other Hne. rewrite get_cons.
      assert (E' : String.eqb (Connection.id c) other = false)
        by (apply String.eqb_neq; congruence).
      by rewrite E'.
    + intros Hnd. apply List.NoDup_cons_iff in Hnd as [Hnot _].
      apply get_not_In. by rewrite <- E.
  - destruct (Connections.findIndex rest connectionId) as [i|]; [|discriminate].
    intros [= <-]. destruct (IH i eq_refl) as [IHa IHb].
    change (Connections.splice1 (S i) (c :: rest))
      with (c :: Connections.splice1 i rest).
    split.
    + intros other Hne. rewrite !get_cons. by rewrite IHa.
    + intros Hnd. apply List.NoDup_cons_iff in Hnd as [_ Hnd].
      rewrite get_cons, E. by apply IHb.
Qed.

Lemma attachConnection_lookup
    now items conns bundleId serverId connectionId items' bundle' :
  Bundles.attachConnection now items bundleId serverId connectionId
    = Ok (items', bundle') →
  Bundles.getServerConnection items' conns bundleId serverId
    = (if Js.truthy connectionId then Connections.get conns connectionId else Null) ∧
  Bundles.hasServerConnection items' bundleId serverId = Js.truthy connectionId.
Proof.
  unfold Bundles.attachConnection.
  destruct (Bundles.getById items bundleId) as [b|] eqn:Hget; [|discriminate].
  pose proof (getById_id _ _ _ Hget) as Hid.
  destruct (negb _); [discriminate|]. intros [= <- <-].
  unfold Bundles.getServerConnection, Bundles.hasServerConnection, Bundles.hasMapping.
  rewrite (getById_put _ _ b); [|done|done]. simpl. by rewrite lookup_insert_eq.
Qed.

(** X7: in a store whose bundles were made by the store (none has the field
    [connections]) and whose connections have distinct ids, a connection that
    is attached to a server can be deleted; the bundle then keeps the id:
    [hasServerConnection] stays true and [getServerConnection] returns
    [undefined]. *)
Theorem delete_attached_connection_dangles
    now bundles items bundleId serverId connectionId bundles' bundle' :
  Spec.plain bundles →
  Spec.unique_ids items →
  connectionId ≠ EmptyString →
  Connections.get items connectionId ≠ Undefined →
  Bundles.attachConnection now bundles bundleId serverId connectionId
    = Ok (bundles', bundle') →
  ∃ items',
    Connections.delete bundles' items connectionId = Ok (items', true) ∧
    S (length items') = length items ∧
    Bundles.hasServerConnection bundles' bundleId serverId = true ∧
    Bundles.getServerConnection bundles' items' bundleId serverId = Undefined.
Proof.
  intros Hplain Hnd Hne Hex Hatt.
  destruct (findIndex_get _ _ Hex) as [index Hi].
  pose proof (plain_attachConnection _ _ _ _ _ _ _ Hplain Hatt) as Hplain'.
  exists (Connections.splice1 index items).
  split; [by apply delete_plain|].
  assert (Ht : Js.truthy connectionId = true)
    by (unfold Js.truthy; apply negb_true_iff; by apply String.eqb_neq).
  destruct (attachConnection_lookup now bundles (Connections.splice1 index items)
              bundleId serverId connectionId bundles' bundle' Hatt) as [H1 H2].
  rewrite Ht in H1, H2. split; [|split; [done|]].
  - assert (Hlt : (index < length items)%nat).
    { clear -Hi. revert index Hi. induction items as [|c rest IH]; intros index;
        simpl; [discriminate|].
      destruct (String.eqb _ _); [intros [= <-]; lia|].
      destruct (Connections.findIndex rest connectionId) as [i|]; [|discriminate].
      intros [= <-]. specialize (IH i eq_refl). lia. }
    unfold Connections.splice1. rewrite length_app, length_take, length_drop. lia.
  - rewrite H1. by apply (get_splice1 _ _ _ Hi).
Qed.

(** The theorem at the store of the examples. *)
Lemma delete_attached_connection_dangles_witness :
  ∃ items',
    Connections.delete Examples.bundles2 Examples.conns1
        (Connection.id Examples.conn1) = Ok (items', true) ∧
    Bundles.hasServerConnection Examples.bundles2 "1000" "srv-1" = true ∧
    Bundles.getServerConnection Examples.bundles2 items' "1000" "srv-1" = Undefined.
Proof.
  destruct (delete_attached_connection_dangles 1003 Examples.bundles1
              Examples.conns1 "1000" "srv-1" (Connection.id Examples.conn1)
              Examples.bundles2 Examples.bundle2) as (items' & H1 & _ & H3 & H4).
  - repeat constructor.
  - vm_compute. constructor; [intros [] | constructor].
  - discriminate.
  - vm_compute. discriminate.
  - vm_compute. reflexivity.
  - exists items'. split; [exact H1|]. split; [exact H3 | exact H4].
Defined.

(** ** Credentials of a connection *)

Lemma get_put items connectionId c c' :
  Connections.get items connectionId = Obj c →
  Connection.id c' = connectionId →
  Connections.get (ConnectionStore.put c' items) connectionId = Obj c'.
Proof.
  intros Hget Hid. induction items as [|x rest IH]; [done|].
  rewrite get_cons in Hget. simpl. rewrite Hid.
  destruct (String.eqb (Connection.id x) connectionId) eqn:E.
  - rewrite get_cons. by rewrite Hid, String.eqb_refl.
  - rewrite get_cons, E. by apply IH.
Qed.




Lemma getMissing_of items connectionId c pd :
  Connections.get items connectionId = Obj c →
  ConnectionStore.getMissingCredentials items connectionId pd
  = map EnvVar.name
      (List.filter
         (fun envVar =>
            negb (Js.nonblank (Connection.credentials c !! EnvVar.name envVar)))
         (ConnectionStore.requiredVars
            (default [] (pd ≫= Package.environment_variables)))).
Proof.
  intros Hget. unfold ConnectionStore.getMissingCredentials. rewrite Hget.
  by destruct (pd ≫= Package.environment_variables).
Qed.




Lemma missing_delete (credentials : gmap string string) secretName name l :
  In name
     (map EnvVar.name
        (List.filter
           (fun envVar =>
              negb (Js.nonblank (base.delete secretName credentials
                                 !! EnvVar.name envVar))) l)) ↔
  In name
     (map EnvVar.name
        (List.filter
           (fun envVar => negb (Js.nonblank (credentials !! EnvVar.name envVar)))
           l)) ∨
  (name = secretName ∧ In name (map EnvVar.name l)).
Proof.
  induction l as [|v l IH]; [simpl; tauto|].
  simpl. destruct (String.eqb (EnvVar.name v) secretName) eqn:Eb.
  - pose proof Eb as E. apply String.eqb_eq in E.
    rewrite E at 1. rewrite lookup_delete_eq. simpl.
    destruct (negb (Js.nonblank (credentials !! EnvVar.name v)));
      simpl; rewrite IH; rewrite E; intuition congruence.
  - pose proof Eb as E. apply String.eqb_neq in E. rewrite lookup_delete_ne; [|done].
    destruct (negb (Js.nonblank (credentials !! EnvVar.name v)));
      simpl; rewrite IH; intuition congruence.
Qed.

Lemma missing_keep (credentials : gmap string string) secretName name l :
  Js.nonblank (credentials !! secretName) = false →
  In name
     (map EnvVar.name
        (List.filter
           (fun envVar => negb (Js.nonblank (credentials !! EnvVar.name envVar)))
           l)) ∨
  (name = secretName ∧ In name (map EnvVar.name l)) →
  In name
     (map EnvVar.name
        (List.filter
           (fun envVar => negb (Js.nonblank (credentials !! EnvVar.name envVar)))
           l)).
Proof.
  intros Hb [H | [-> H]]; [done|].
  apply in_map_iff in H as (v & Hv & Hin). apply in_map_iff. exists v.
  split; [done|]. apply filter_In. split; [done|]. by rewrite Hv, Hb.
Qed.

(** X10: after [removeCredential], a name is missing exactly when it was
    missing before or it is the removed name and the package requires it; the
    connection returned is the one the store then holds. *)
Theorem removeCredential_missing now items connectionId secretName pd items' c' name :
  ConnectionStore.removeCredential now items connectionId secretName
    = Ok (items', c') →
  Connections.get items' connectionId = Obj c' ∧
  (In name (ConnectionStore.getMissingCredentials items' connectionId pd) ↔
   In name (ConnectionStore.getMissingCredentials items connectionId pd) ∨
   (name = secretName ∧
    In name (map EnvVar.name
               (ConnectionStore.requiredVars
                  (default [] (pd ≫= Package.environment_variables)))))).
Proof.
  unfold ConnectionStore.removeCredential.
  destruct (Connections.get items connectionId) as [| |c] eqn:Hget; try discriminate.
  pose proof (get_Obj_id _ _ _ Hget) as Hid.
  destruct (Connection.credentials c !! secretName) as [value|] eqn:L.
  - destruct (Js.truthy value) eqn:T.
    + intros [= <- <-].
      match goal with |- Connections.get (ConnectionStore.put ?x _) _ = _ ∧ _ =>
        set (c' := x) end.
      assert (Hget' : Connections.get (ConnectionStore.put c' items) connectionId
                      = Obj c') by (by apply (get_put _ _ c)).
      split; [done|].
      rewrite (getMissing_of _ _ _ _ Hget'), (getMissing_of _ _ _ _ Hget).
      apply missing_delete.
    + intros [= <- <-]. split; [done|].
      rewrite (getMissing_of _ _ _ _ Hget). split; [tauto|].
      apply missing_keep. rewrite L. simpl. by rewrite T.
  - intros [= <- <-]. split; [done|].
    rewrite (getMissing_of _ _ _ _ Hget). split; [tauto|].
    apply missing_keep. by rewrite L.
Qed.

(** The theorem at the connection of the examples: without its key, the key
    is missing. *)
Lemma removeCredential_missing_witness :
  ∃ items' c',
    ConnectionStore.removeCredential 1010 Examples.conns1
        (Connection.id Examples.conn1) "API_KEY"
      = Ok (items', c') ∧
    In "API_KEY"
       (ConnectionStore.getMissingCredentials items' (Connection.id Examples.conn1)
          (Some Examples.org_tool)).
Proof.
  destruct (ConnectionStore.removeCredential 1010 Examples.conns1
              (Connection.id Examples.conn1) "API_KEY")
    as [[items' c']|msg] eqn:E; [|vm_compute in E; discriminate E].
  exists items', c'. split; [reflexivity|].
  apply (removeCredential_missing 1010 Examples.conns1 (Connection.id Examples.conn1)
           "API_KEY" (Some Examples.org_tool) items' c' "API_KEY" E).
  right. split; [reflexivity|]. left. reflexivity.
Defined.
(** * Further properties of the synthesizer *)

Lemma truthy_placeholder name : Js.truthy (ServerUtils.placeholder name) = true.
Proof. reflexivity. Qed.








(** ** The placeholder loop *)




(** ** Arguments *)

Lemma arr_includes_In arr x : Js.arr_includes arr x = true ↔ In x arr.
Proof.
  unfold Js.arr_includes. rewrite existsb_exists. split.
  - intros (y & Hin & Hy). apply String.eqb_eq in Hy. by subst.
  - intros Hin. exists x. split; [done|]. apply String.eqb_refl.
Qed.

Lemma buildPackageArgs_In pkg :
  Js.or_else (Package.package_name pkg) (Package.name pkg) ≠ EmptyString →
  In (Js.or_else (Package.package_name pkg) (Package.name pkg))
     (ServerUtils.buildPackageArgs pkg).
Proof.
  intros Hne. unfold ServerUtils.buildPackageArgs.
  set (packageName := Js.or_else (Package.package_name pkg) (Package.name pkg)) in *.
  set (args := match Package.package_arguments pkg with
               | Some stored => flat_map ServerUtils.argStep
                                  (List.filter ServerUtils.keptArg stored)
               | None => []
               end).
  assert (Ht : Js.truthy packageName = true)
    by (unfold Js.truthy; apply negb_true_iff; by apply String.eqb_neq).
  rewrite Ht. simpl.
  destruct (Js.arr_includes args packageName) eqn:E; simpl.
  - apply arr_includes_In in E. destruct (length args =? 0)%nat; [|done].
    apply in_or_app. by left.
  - rewrite length_app. simpl.
    replace (length args + 1 =? 0)%nat with false
      by (symmetry; apply Nat.eqb_neq; lia).
    apply in_or_app. right. by left.
Qed.

(** X13: [buildPackageArgs] never returns an empty list; a package name that
    is not empty is among the arguments; and without a list of stored
    arguments the package name is the only argument. *)
Theorem buildPackageArgs_has_name pkg :
  let packageName := Js.or_else (Package.package_name pkg) (Package.name pkg) in
  ServerUtils.buildPackageArgs pkg ≠ [] ∧
  (packageName ≠ EmptyString → In packageName (ServerUtils.buildPackageArgs pkg)) ∧
  (Package.package_arguments pkg = None →
   ServerUtils.buildPackageArgs pkg = [packageName]).
Proof.
  intros packageName. split; [|split; [apply buildPackageArgs_In|]].
  - unfold ServerUtils.buildPackageArgs. fold packageName.
    set (args := match Package.package_arguments pkg with
                 | Some stored => flat_map ServerUtils.argStep
                                    (List.filter ServerUtils.keptArg stored)
                 | None => []
                 end).
    destruct (Js.truthy packageName && negb (Js.arr_includes args packageName)).
    + rewrite length_app. simpl.
      replace (length args + 1 =? 0)%nat with false
        by (symmetry; apply Nat.eqb_neq; lia).
      by destruct args.
    + destruct args; [by simpl|]. by simpl.
  - intros Hnone. unfold ServerUtils.buildPackageArgs. fold packageName.
    rewrite Hnone. simpl.
    rewrite andb_true_r. by destruct (Js.truthy packageName).
Qed.

(** The theorem at the package of the scenario. *)
Lemma buildPackageArgs_has_name_witness :
  ServerUtils.buildPackageArgs Examples.org_tool = ["@org/tool"].
Proof.
  apply (buildPackageArgs_has_name Examples.org_tool). reflexivity.
Defined.
(** ** Docker arguments *)

Lemma insertById_perm a l : Permutation (ServerUtils.insertById a l) (a :: l).
Proof.
  induction l as [|b rest IH]; simpl; [done|].
  destruct (PackageArg.id a <=? PackageArg.id b); [done|].
  rewrite IH. apply perm_swap.
Qed.

Lemma sortById_perm l : Permutation (ServerUtils.sortById l) l.
Proof.
  induction l as [|a l IH]; simpl; [done|].
  rewrite insertById_perm. by constructor.
Qed.

Lemma insertById_sorted a l :
  StronglySorted (fun x y => PackageArg.id x ≤ PackageArg.id y) l →
  StronglySorted (fun x y => PackageArg.id x ≤ PackageArg.id y)
                 (ServerUtils.insertById a l).
Proof.
  induction 1 as [|b rest Hs IH Hb]; simpl.
  - repeat constructor.
  - destruct (PackageArg.id a <=? PackageArg.id b) eqn:E.
    + apply Z.leb_le in E. constructor; [by constructor|].
      constructor; [done|]. eapply Forall_impl; [exact Hb|].
      simpl. intros x Hx. lia.
    + apply Z.leb_gt in E. constructor; [done|].
      rewrite (insertById_perm a rest). constructor; [lia|done].
Qed.

Lemma sortById_sorted l :
  StronglySorted (fun x y => PackageArg.id x ≤ PackageArg.id y)
                 (ServerUtils.sortById l).
Proof.
  induction l as [|a l IH]; simpl; [constructor|]. by apply insertById_sorted.
Qed.

(** X14: when the package stores a positional argument, the arguments
    [buildDockerArgs] returns are the values of the stored positional
    arguments and nothing else, in the order of their ids; neither [run] nor
    the image is added. *)
Theorem buildDockerArgs_stored pkg stored :
  Package.package_arguments pkg = Some stored →
  (∃ arg, In arg stored ∧ PackageArg.type arg = "positional") →
  ∃ sorted,
    ServerUtils.buildDockerArgs pkg = map PackageArg.value sorted ∧
    Permutation sorted
      (List.filter (fun arg => String.eqb (PackageArg.type arg) "positional") stored) ∧
    StronglySorted (fun x y => PackageArg.id x ≤ PackageArg.id y) sorted.
Proof.
  intros Hs (arg & Hin & Hty).
  set (positional :=
         List.filter (fun arg => String.eqb (PackageArg.type arg) "positional") stored).
  assert (Hpos : In arg positional).
  { apply filter_In. split; [done|]. by apply String.eqb_eq. }
  exists (ServerUtils.sortById positional).
  split; [|split; [apply sortById_perm | apply sortById_sorted]].
  unfold ServerUtils.buildDockerArgs. rewrite Hs. fold positional.
  assert (H1 : (0 <? length stored)%nat = true).
  { apply Nat.ltb_lt. destruct stored; [destruct Hin | simpl; lia]. }
  rewrite H1.
  assert (H2 : (0 <? length (map PackageArg.value (ServerUtils.sortById positional)))%nat
               = true).
  { apply Nat.ltb_lt. rewrite length_map.
    rewrite (Permutation_length (sortById_perm positional)).
    destruct positional; [destruct Hpos | simpl; lia]. }
  by rewrite H2.
Qed.

(** The theorem at a package whose arguments are stored out of order. *)
Lemma buildDockerArgs_stored_witness :
  ∃ sorted,
    ServerUtils.buildDockerArgs
      (Package.mk "docker" "acme/tool" EmptyString EmptyString None
         (Some [PackageArg.mk 2 "positional" EmptyString "acme/tool";
                PackageArg.mk 1 "positional" EmptyString "run"]))
    = map PackageArg.value sorted ∧
    StronglySorted (fun x y => PackageArg.id x ≤ PackageArg.id y) sorted.
Proof.
  destruct (buildDockerArgs_stored
              (Package.mk "docker" "acme/tool" EmptyString EmptyString None
                 (Some [PackageArg.mk 2 "positional" EmptyString "acme/tool";
                        PackageArg.mk 1 "positional" EmptyString "run"]))
              [PackageArg.mk 2 "positional" EmptyString "acme/tool";
               PackageArg.mk 1 "positional" EmptyString "run"])
    as (sorted & H1 & _ & H3).
  - reflexivity.
  - eexists. split; [left; reflexivity | reflexivity].
  - exists sorted. split; [exact H1 | exact H3].
Defined.

Lemma filter_positional_nil l :
  (∀ arg, In arg l → PackageArg.type arg ≠ "positional") →
  List.filter (fun arg => String.eqb (PackageArg.type arg) "positional") l = [].
Proof.
  induction l as [|a l IH]; intros H; simpl; [done|].
  destruct (String.eqb (PackageArg.type a) "positional") eqn:E.
  - apply String.eqb_eq in E. exfalso. apply (H a); [by left | done].
  - apply IH. intros arg Harg. apply H. by right.
Qed.

(** X15: a package as the catalogue holds it (made by
    [transformServersFromDB], which keeps the name under [name] and drops
    [package_name]) that stores no positional argument gets from
    [buildDockerArgs] the arguments [run -i --rm], one [-e NAME] for each
    variable that is required or secret, and then the missing [package_name]
    in the place of the image; [buildPackageArgs] on the same package does
    hold the name. *)
Theorem catalogue_package_docker_args pkg :
  (∀ arg, In arg (default [] (Package.package_arguments pkg)) →
          PackageArg.type arg ≠ "positional") →
  Js.or_else (Package.package_name pkg) (Package.name pkg) ≠ EmptyString →
  ServerUtils.buildDockerArgs (ServerUtils.transformPackage pkg)
    = ["run"; "-i"; "--rm"] ++
      flat_map
        (fun env =>
           if ServerUtils.flag (EnvVar.is_required env) ||
              ServerUtils.flag (EnvVar.is_secret env)
           then ["-e"; EnvVar.name env] else [])
        (default [] (Package.environment_variables pkg)) ++
      [EmptyString] ∧
  In (Js.or_else (Package.package_name pkg) (Package.name pkg))
     (ServerUtils.buildPackageArgs (ServerUtils.transformPackage pkg)).
Proof.
  intros Hpos Hname. split.
  - unfold ServerUtils.buildDockerArgs, ServerUtils.transformPackage. simpl.
    rewrite (filter_positional_nil _ Hpos). simpl.
    by destruct (0 <? length (default [] (Package.package_arguments pkg)))%nat.
  - pose proof (buildPackageArgs_In (ServerUtils.transformPackage pkg)) as H.
    simpl in H. unfold Js.or_else at 1 3 in H. simpl in H. by apply H.
Qed.

(** The theorem at a docker package with one secret variable. *)
Lemma catalogue_package_docker_args_witness :
  ServerUtils.buildDockerArgs
    (ServerUtils.transformPackage
       (Package.mk "docker" "acme/tool" EmptyString EmptyString
          (Some [Examples.api_key]) None))
  = ["run"; "-i"; "--rm"; "-e"; "API_KEY"; EmptyString].
Proof.
  apply (catalogue_package_docker_args
           (Package.mk "docker" "acme/tool" EmptyString EmptyString
              (Some [Examples.api_key]) None)).
  - intros arg [].
  - discriminate.
Defined.

(** ** Choosing a package *)

Lemma Js_findIndex_Some {A} (p : A → bool) l i :
  Js.findIndex p l = Some i → ∃ x, l !! i = Some x ∧ p x = true.
Proof.
  revert i. induction l as [|a l IH]; intros i; simpl; [discriminate|].
  destruct (p a) eqn:E; [intros [= <-]; eauto|].
  destruct (Js.findIndex p l) as [j|]; [|discriminate].
  intros [= <-]. apply (IH j eq_refl).
Qed.

Lemma Js_findIndex_None {A} (p : A → bool) l :
  Js.findIndex p l = None → ∀ x, In x l → p x = false.
Proof.
  induction l as [|a l IH]; simpl; [intros _ x []|].
  destruct (p a) eqn:E; [discriminate|].
  destruct (Js.findIndex p l) as [j|]; [discriminate|].
  intros _ x [<- | Hin]; [done | by apply IH].
Qed.

Lemma no_registry packages name :
  Js.findIndex (fun p => String.eqb (Package.registry_name p) name) packages = None →
  ¬ In name (map Package.registry_name packages).
Proof.
  intros H Hin. apply in_map_iff in Hin as (p & Hp & Hin).
  pose proof (Js_findIndex_None _ _ H p Hin) as Hf. simpl in Hf.
  apply String.eqb_neq in Hf. done.
Qed.

(** X16: for a server with at least one package, [selectDefaultPackage]
    returns the index of a package of the list: of an npm package if there is
    one, else of a docker package if there is one, else of a pypi package if
    there is one, else 0. *)
Theorem selectDefaultPackage_preference packages :
  packages ≠ [] →
  ∃ pkg,
    packages !! ServerUtils.selectDefaultPackage (Some packages) = Some pkg ∧
    let registries := map Package.registry_name packages in
    (Package.registry_name pkg = "npm" ∨
     (¬ In "npm" registries ∧ Package.registry_name pkg = "docker") ∨
     (¬ In "npm" registries ∧ ¬ In "docker" registries ∧
      Package.registry_name pkg = "pypi") ∨
     (¬ In "npm" registries ∧ ¬ In "docker" registries ∧ ¬ In "pypi" registries ∧
      ServerUtils.selectDefaultPackage (Some packages) = 0%nat)).
Proof.
  intros Hne. unfold ServerUtils.selectDefaultPackage.
  destruct packages as [|p0 rest]; [done|].
  change (length (p0 :: rest) =? 0)%nat with false. cbv iota.
  set (packages := p0 :: rest).
  destruct (Js.findIndex (fun p => String.eqb (Package.registry_name p) "npm")
              packages) as [i|] eqn:Hnpm.
  { destruct (Js_findIndex_Some _ _ _ Hnpm) as (x & Hx & Hp).
    exists x. split; [done|]. left. by apply String.eqb_eq. }
  apply no_registry in Hnpm.
  destruct (Js.findIndex (fun p => String.eqb (Package.registry_name p) "docker")
              packages) as [i|] eqn:Hdocker.
  { destruct (Js_findIndex_Some _ _ _ Hdocker) as (x & Hx & Hp).
    exists x. split; [done|]. right. left. split; [done|]. by apply String.eqb_eq. }
  apply no_registry in Hdocker.
  destruct (Js.findIndex (fun p => String.eqb (Package.registry_name p) "pypi")
              packages) as [i|] eqn:Hpypi.
  { destruct (Js_findIndex_Some _ _ _ Hpypi) as (x & Hx & Hp).
    exists x. split; [done|]. right. right. left.
    split; [done|]. split; [done|]. by apply String.eqb_eq. }
  apply no_registry in Hpypi.
  exists p0. split; [done|]. right. right. right. done.
Qed.

(** The theorem at a server with a docker and an npm package. *)
Lemma selectDefaultPackage_preference_witness :
  ∃ pkg,
    [Package.mk "docker" "acme/tool" EmptyString EmptyString None None;
     Examples.org_tool]
      !! ServerUtils.selectDefaultPackage
           (Some [Package.mk "docker" "acme/tool" EmptyString EmptyString None None;
                  Examples.org_tool]) = Some pkg ∧
    Package.registry_name pkg = "npm".
Proof.
  destruct (selectDefaultPackage_preference
              [Package.mk "docker" "acme/tool" EmptyString EmptyString None None;
               Examples.org_tool]) as (pkg & H1 & H2); [discriminate|].
  exists pkg. split; [exact H1|].
  destruct H2 as [H | [[H _] | [[H _] | [H _]]]]; [exact H | | |];
    exfalso; apply H; right; left; reflexivity.
Defined.

(** X17: [getPackageByIndex] returns [null] exactly for a server without
    packages; otherwise it returns a package of the server: the one at the
    index when the index is within the list, the first one when it is not. *)
Theorem getPackageByIndex_total server packages index :
  Server.packages server = Some packages →
  (ServerUtils.getPackageByIndex (Some server) index = None ↔ packages = []) ∧
  (∀ pkg, ServerUtils.getPackageByIndex (Some server) index = Some pkg →
          In pkg packages) ∧
  (∀ i pkg, packages !! i = Some pkg →
            ServerUtils.getPackageByIndex (Some server) (Some (Z.of_nat i))
              = Some pkg) ∧
  (∀ idx, index = Some idx → (idx < 0 ∨ Z.of_nat (length packages) ≤ idx) →
          ServerUtils.getPackageByIndex (Some server) index = packages !! 0%nat).
Proof.
  intros Hs. unfold ServerUtils.getPackageByIndex. rewrite Hs.
  destruct packages as [|p0 rest].
  - simpl. split; [done|]. split; [done|]. split; [|done].
    intros i pkg H. by destruct i.
  - change (length (p0 :: rest) =? 0)%nat with false. cbv iota.
    set (packages := p0 :: rest). split; [|split; [|split]].
    + split; [|discriminate].
      by destruct (ServerUtils.at_index packages (default 0 index)).
    + intros pkg. unfold ServerUtils.at_index.
      destruct (default 0 index <? 0).
      * intros [= <-]. by left.
      * destruct (packages !! Z.to_nat (default 0 index)) as [x|] eqn:L.
        -- intros [= <-]. apply list_elem_of_In. by eapply list_elem_of_lookup_2.
        -- intros [= <-]. by left.
    + intros i pkg Hi. unfold ServerUtils.at_index. simpl default.
      replace (Z.of_nat i <? 0) with false by (symmetry; apply Z.ltb_ge; lia).
      by rewrite Nat2Z.id, Hi.
    + intros idx -> Hout. unfold ServerUtils.at_index. simpl default.
      destruct (idx <? 0) eqn:E; [done|]. apply Z.ltb_ge in E.
      rewrite (lookup_ge_None_2 packages (Z.to_nat idx)); [done|].
      destruct Hout as [Hout | Hout]; lia.
Qed.

(** The theorem at a server with one package, read at index 3. *)
Lemma getPackageByIndex_total_witness :
  ServerUtils.getPackageByIndex
    (Some (Server.mk "srv-1" "Tool" (Some [Examples.org_tool]))) (Some 3)
  = Some Examples.org_tool.
Proof.
  destruct (getPackageByIndex_total
              (Server.mk "srv-1" "Tool" (Some [Examples.org_tool]))
              [Examples.org_tool] (Some 3) eq_refl) as (_ & _ & _ & H).
  rewrite (H 3); [reflexivity | reflexivity | right; simpl; lia].
Defined.

(** X18: [serverNeedsCredentials] holds exactly when [getRequiredSecrets]
    lists a name for one of the packages of the server. *)
Theorem serverNeedsCredentials_iff server :
  ServerUtils.serverNeedsCredentials (Some server) = true ↔
  ∃ pkg, In pkg (default [] (Server.packages server)) ∧
         ServerUtils.getRequiredSecrets pkg ≠ [].
Proof.
  unfold ServerUtils.serverNeedsCredentials.
  destruct (Server.packages server) as [packages|]; simpl;
    [|split; [discriminate | intros (pkg & [] & _)]].
  rewrite existsb_exists.
  assert (Hpkg : ∀ pkg,
    match Package.environment_variables pkg with
    | Some envVars => existsb ServerUtils.needsCredential envVars
    | None => false
    end = true ↔ ServerUtils.getRequiredSecrets pkg ≠ []).
  { intros pkg. unfold ServerUtils.getRequiredSecrets.
    destruct (Package.environment_variables pkg) as [envVars|]; [|done].
    fold ServerUtils.needsCredential.
    change (fun v => ServerUtils.needsCredential v) with ServerUtils.needsCredential.
    induction envVars as [|v l IH]; simpl; [done|].
    destruct (ServerUtils.needsCredential v) eqn:E; simpl; [done|].
    exact IH. }
  split; intros (pkg & Hin & H); exists pkg; (split; [done|]); by apply Hpkg.
Qed.
(** * Further properties of the exports *)

(** ** The key of a server *)

Lemma alnum_facts c :
  Exports.is_alnum c = true →
  c ≠ "-"%char ∧ Js.lower_ascii c = c.
Proof.
  destruct c as [[] [] [] [] [] [] [] []]; try discriminate; intros _;
    split; (discriminate || reflexivity).
Qed.

Lemma no_double_cons (x : ascii) l :
  (x = "-"%char → head l ≠ Some "-"%char) →
  (∀ l1 l2, l ≠ l1 ++ "-"%char :: "-"%char :: l2) →
  ∀ l1 l2, x :: l ≠ l1 ++ "-"%char :: "-"%char :: l2.
Proof.
  intros Hx Hl [|y l1] l2; simpl.
  - intros [= -> ->]. by apply Hx.
  - intros [= -> ->]. by apply (Hl l1 l2).
Qed.

Lemma collapse_shape in_run s :
  Forall (fun c => Exports.is_alnum c = true ∨ c = "-"%char)
         (Exports.collapse in_run s) ∧
  (in_run = true → head (Exports.collapse in_run s) ≠ Some "-"%char) ∧
  ∀ l1 l2, Exports.collapse in_run s ≠ l1 ++ "-"%char :: "-"%char :: l2.
Proof.
  revert in_run. induction s as [|c rest IH]; intros in_run; simpl.
  - split; [constructor|]. split; [done|]. intros [|? ?] ?; discriminate.
  - destruct (Exports.is_alnum (Js.lower_ascii c)) eqn:E.
    + destruct (IH false) as (H1 & _ & H3). destruct (alnum_facts _ E) as [Hne _].
      split; [constructor; [by left | done]|].
      split; [intros _ [= H]; done|].
      apply no_double_cons; [done | done].
    + destruct in_run; [apply IH|].
      destruct (IH true) as (H1 & H2 & H3).
      split; [constructor; [by right | done]|].
      split; [done|]. apply no_double_cons; [intros _; by apply H2 | done].
Qed.

Lemma dropHyphens_suffix l :
  ∃ k, l = replicate k "-"%char ++ Exports.dropHyphens l.
Proof.
  induction l as [|c rest [k IH]]; [by exists 0%nat|].
  simpl. destruct (Ascii.eqb c "-") eqn:E.
  - apply Ascii.eqb_eq in E. subst c. exists (S k). simpl. by rewrite <- IH.
  - by exists 0%nat.
Qed.

Lemma dropHyphens_head l : head (Exports.dropHyphens l) ≠ Some "-"%char.
Proof.
  induction l as [|c rest IH]; [done|]. simpl.
  destruct (Ascii.eqb c "-") eqn:E; [done|].
  simpl. intros [= ->]. discriminate E.
Qed.

Lemma dropHyphens_fixed l :
  head l ≠ Some "-"%char → Exports.dropHyphens l = l.
Proof.
  destruct l as [|c rest]; [done|]. simpl. intros H.
  destruct (Ascii.eqb c "-") eqn:E; [|done].
  apply Ascii.eqb_eq in E. by subst c.
Qed.

Lemma last_rev {A} (l : list A) : last (rev l) = head l.
Proof. destruct l as [|a l]; [done|]. simpl. apply last_snoc. Qed.

Lemma head_rev {A} (l : list A) : head (rev l) = last l.
Proof. rewrite <- (rev_involutive l) at 2. by rewrite last_rev. Qed.

Lemma last_suffix {A} (x : A) k l :
  l ≠ [] → last (replicate k x ++ l) = last l.
Proof.
  intros Hne. destruct l as [|a l]; [done|]. apply last_app_cons.
Qed.

(** What the two ends of [sanitizedName] keep of a list: a list between runs
    of hyphens. *)
Lemma trim_hyphens_shape l :
  Forall (fun c => Exports.is_alnum c = true ∨ c = "-"%char) l →
  (∀ l1 l2, l ≠ l1 ++ "-"%char :: "-"%char :: l2) →
  Spec.slug (rev (Exports.dropHyphens (rev (Exports.dropHyphens l)))).
Proof.
  intros Hall Hnd.
  destruct (dropHyphens_suffix l) as [k Hk].
  set (d := Exports.dropHyphens l) in *.
  destruct (dropHyphens_suffix (rev d)) as [j Hj].
  set (e := Exports.dropHyphens (rev d)) in *.
  assert (Hd : d = rev e ++ replicate j "-"%char).
  { rewrite <- (rev_involutive d), Hj, rev_app_distr. f_equal.
    clear. induction j as [|j IH]; [done|]. simpl. rewrite IH.
    by rewrite <- replicate_S_end. }
  assert (Hl : l = replicate k "-"%char ++ rev e ++ replicate j "-"%char)
    by (by rewrite <- Hd).
  split; [|split; [|split]].
  - rewrite Hl in Hall. apply Forall_app in Hall as [_ Hall].
    by apply Forall_app in Hall as [Hall _].
  - rewrite head_rev. destruct e as [|x e'] eqn:Ee; [by simpl|].
    rewrite <- (last_suffix "-"%char j (x :: e')) by done.
    rewrite <- Hj, last_rev. apply dropHyphens_head.
  - rewrite last_rev. apply dropHyphens_head.
  - intros l1 l2 He. apply (Hnd (replicate k "-"%char ++ l1)
                              (l2 ++ replicate j "-"%char)).
    rewrite Hl, He. by rewrite <- !app_assoc.
Qed.

Lemma collapse_fixed in_run l :
  Forall (fun c => Exports.is_alnum c = true ∨ c = "-"%char) l →
  (∀ l1 l2, l ≠ l1 ++ "-"%char :: "-"%char :: l2) →
  (in_run = true → head l ≠ Some "-"%char) →
  Exports.collapse in_run l = l.
Proof.
  revert in_run. induction l as [|c rest IH]; intros in_run Hall Hnd Hhead; [done|].
  apply Forall_cons in Hall as [Hc Hall].
  assert (Hnd' : ∀ l1 l2, rest ≠ l1 ++ "-"%char :: "-"%char :: l2).
  { intros l1 l2 E. apply (Hnd (c :: l1) l2). by rewrite E. }
  simpl. destruct Hc as [Hc | ->].
  - destruct (alnum_facts _ Hc) as [_ Hlow]. rewrite Hlow, Hc.
    f_equal. by apply IH.
  - change (Exports.is_alnum (Js.lower_ascii "-")) with false. cbv iota.
    destruct in_run; [exfalso; by apply Hhead|].
    f_equal. apply IH; [done | done |].
    intros _ Hh. destruct rest as [|x rest']; [done|].
    injection Hh as ->. by apply (Hnd [] rest').
Qed.

(** X19: the key [exportClaudeFormat] and [getPackageConfigPreview] make of
    a server name consists of lowercase letters, digits and hyphens, has no
    hyphen at either end and no two hyphens in a row; and making a key of a
    key changes nothing. *)
Theorem sanitizedName_slug name :
  Spec.slug (list_ascii_of_string (Exports.sanitizedName name)) ∧
  Exports.sanitizedName (Exports.sanitizedName name) = Exports.sanitizedName name.
Proof.
  unfold Exports.sanitizedName.
  destruct (collapse_shape false (list_ascii_of_string name)) as (H1 & _ & H3).
  pose proof (trim_hyphens_shape _ H1 H3) as Hslug.
  set (out := rev (Exports.dropHyphens
                     (rev (Exports.dropHyphens
                             (Exports.collapse false (list_ascii_of_string name)))))) in *.
  rewrite list_ascii_of_string_of_list_ascii. split; [done|].
  destruct Hslug as (Ha & Hh & Hl & Hn).
  rewrite (collapse_fixed false out Ha Hn) by done.
  rewrite (dropHyphens_fixed out Hh).
  rewrite (dropHyphens_fixed (rev out)) by (by rewrite head_rev).
  by rewrite rev_involutive.
Qed.
(** ** Credentials in the exported configuration *)






(** ** [exportClaudeFormat] and remote packages *)







(** ** [exportClaudeFormat] and command packages *)



(** * Further properties of the share codec *)

(** ** Base64 *)

Lemma list_ind3 {A} (P : list A → Prop) :
  P [] → (∀ a, P [a]) → (∀ a b, P [a; b]) →
  (∀ a b c rest, P rest → P (a :: b :: c :: rest)) →
  ∀ l, P l.
Proof.
  intros H0 H1 H2 H3.
  assert (H : ∀ n l, (length l ≤ n)%nat → P l).
  { induction n as [n IH] using lt_wf_ind. intros l Hlen.
    destruct l as [|a [|b [|c rest]]]; [done|done|done|].
    apply H3. apply (IH (length rest)); simpl in Hlen; lia. }
  intros l. by apply (H (length l)).
Qed.

(** The facts about one character of the alphabet, checked on the 64
    sextets. *)
Lemma sextet_facts v :
  0 ≤ v < 64 →
  let c := Platform.b64char v in
  let urlSafe :=
    if Ascii.eqb c "+" then "-"%char
    else if Ascii.eqb c "/" then "_"%char else c in
  Platform.b64val c = Some v ∧
  c ≠ "="%char ∧
  Platform.is_ascii_whitespace c = false ∧
  urlSafe ≠ "="%char ∧
  (if Ascii.eqb urlSafe "-" then "+"%char
   else if Ascii.eqb urlSafe "_" then "/"%char else urlSafe) = c.
Proof.
  intros Hv.
  assert (Hall : forallb Spec.sextet_ok (map Z.of_nat (seq 0 64)) = true)
    by (vm_compute; reflexivity).
  rewrite forallb_forall in Hall.
  assert (Hok : Spec.sextet_ok v = true).
  { apply Hall. apply in_map_iff. exists (Z.to_nat v). split; [lia|].
    apply in_seq. lia. }
  unfold Spec.sextet_ok in Hok. cbv zeta in Hok. cbv zeta.
  apply andb_true_iff in Hok as [Hok H5]. apply andb_true_iff in Hok as [Hok H4].
  apply andb_true_iff in Hok as [Hok H3]. apply andb_true_iff in Hok as [H1 H2].
  destruct (Platform.b64val (Platform.b64char v)) as [v'|]; [|discriminate].
  apply Z.eqb_eq in H1. subst v'.
  apply negb_true_iff in H2, H3, H4. apply Ascii.eqb_eq in H5.
  split; [done|]. split; [intros E; by rewrite E in H2|].
  split; [done|]. split; [intros E; by rewrite E in H4 | done].
Qed.

Lemma sextets_range bytes :
  Spec.bytes bytes → Forall (fun v => 0 ≤ v < 64) (Spec.sextets bytes).
Proof.
  unfold Spec.bytes. induction bytes as [| a | a b | a b c rest IH] using list_ind3;
    intros H.
  - constructor.
  - apply Forall_cons in H as [Ha _]. simpl.
    repeat constructor; Z.div_mod_to_equations; lia.
  - apply Forall_cons in H as [Ha H]. apply Forall_cons in H as [Hb _]. simpl.
    repeat constructor; Z.div_mod_to_equations; lia.
  - apply Forall_cons in H as [Ha H]. apply Forall_cons in H as [Hb H].
    apply Forall_cons in H as [Hc H].
    change (Spec.sextets (a :: b :: c :: rest))
      with ([a / 4; (a mod 4) * 16 + b / 16; (b mod 16) * 4 + c / 64; c mod 64]
            ++ Spec.sextets rest).
    apply Forall_app. split; [|by apply IH].
    repeat constructor; Z.div_mod_to_equations; lia.
Qed.

Lemma sextets_bytes_sextets bytes :
  Spec.bytes bytes → Platform.sextets_bytes (Spec.sextets bytes) = bytes.
Proof.
  unfold Spec.bytes. induction bytes as [| a | a b | a b c rest IH] using list_ind3;
    intros H.
  - done.
  - apply Forall_cons in H as [Ha _]. simpl. f_equal.
    Z.div_mod_to_equations. lia.
  - apply Forall_cons in H as [Ha H]. apply Forall_cons in H as [Hb _]. simpl.
    f_equal; [|f_equal]; Z.div_mod_to_equations; lia.
  - apply Forall_cons in H as [Ha H]. apply Forall_cons in H as [Hb H].
    apply Forall_cons in H as [Hc H].
    change (Spec.sextets (a :: b :: c :: rest))
      with ([a / 4; (a mod 4) * 16 + b / 16; (b mod 16) * 4 + c / 64; c mod 64]
            ++ Spec.sextets rest).
    cbn [app Platform.sextets_bytes]. rewrite (IH H).
    f_equal; [|f_equal; [|f_equal]]; Z.div_mod_to_equations; lia.
Qed.

(** [btoa] gives the characters of the sextets and then up to two [=], a
    multiple of four characters in all. *)
Lemma btoa_sextets bytes :
  ∃ k, (k ≤ 2)%nat ∧
       Platform.btoa bytes
         = map Platform.b64char (Spec.sextets bytes) ++ replicate k "="%char ∧
       ((length (Spec.sextets bytes) + k) mod 4 = 0)%nat ∧
       (length (Spec.sextets bytes) mod 4 ≠ 1)%nat.
Proof.
  induction bytes as [| a | a b | a b c rest (k & Hk & IH & Hl & Hm)] using list_ind3.
  - exists 0%nat. split; [lia|]. split; [reflexivity|]. split; [reflexivity|].
    simpl. lia.
  - exists 2%nat. split; [lia|]. split; [reflexivity|]. split; [reflexivity|].
    simpl. lia.
  - exists 1%nat. split; [lia|]. split; [reflexivity|]. split; [reflexivity|].
    simpl. lia.
  - exists k. split; [done|].
    change (Spec.sextets (a :: b :: c :: rest))
      with ([a / 4; (a mod 4) * 16 + b / 16; (b mod 16) * 4 + c / 64; c mod 64]
            ++ Spec.sextets rest).
    change (Platform.btoa (a :: b :: c :: rest))
      with ([Platform.b64char (a / 4);
             Platform.b64char ((a mod 4) * 16 + b / 16);
             Platform.b64char ((b mod 16) * 4 + c / 64);
             Platform.b64char (c mod 64)] ++ Platform.btoa rest).
    rewrite IH. split; [reflexivity|].
    cbn [app length].
    replace (S (S (S (S (length (Spec.sextets rest))))) + k)%nat
      with (length (Spec.sextets rest) + k + 1 * 4)%nat by lia.
    replace (S (S (S (S (length (Spec.sextets rest))))))
      with (length (Spec.sextets rest) + 1 * 4)%nat by lia.
    by rewrite !Nat.Div0.mod_add.
Qed.

Lemma strip_match (x : ascii) (r l : list ascii) :
  x ≠ "="%char →
  match x :: r with
  | "="%char :: "="%char :: r' => rev r'
  | "="%char :: r' => rev r'
  | _ => l
  end = l.
Proof.
  intros Hx. destruct x as [[] [] [] [] [] [] [] []]; try reflexivity.
  by destruct Hx.
Qed.

Lemma strip_match1 (y : ascii) (r l : list ascii) :
  y ≠ "="%char →
  match "="%char :: y :: r with
  | "="%char :: "="%char :: r' => rev r'
  | "="%char :: r' => rev r'
  | _ => l
  end = rev (y :: r).
Proof.
  intros Hy. destruct y as [[] [] [] [] [] [] [] []]; try reflexivity.
  by destruct Hy.
Qed.

Lemma rev_replicate {A} (x : A) k : rev (replicate k x) = replicate k x.
Proof.
  induction k as [|k IH]; [done|]. simpl. rewrite IH.
  by rewrite <- replicate_S_end.
Qed.

(** [strip_padding] takes the padding of [btoa] off and leaves a text
    without [=] as it is. *)
Lemma strip_padding_btoa (m : list ascii) k :
  Forall (fun c => c ≠ "="%char) m → (k ≤ 2)%nat →
  ((length m + k) mod 4 = 0)%nat ∨ k = 0%nat →
  Platform.strip_padding (m ++ replicate k "="%char) = m.
Proof.
  intros Hm Hk Hlen. unfold Platform.strip_padding.
  assert (Hhead : ∀ y r, rev m = y :: r → y ≠ "="%char).
  { intros y r E. rewrite Forall_forall in Hm. apply Hm.
    apply list_elem_of_In. apply in_rev. rewrite E. by left. }
  destruct k as [|[|[|k]]]; [| | |lia].
  - change (replicate 0 "="%char) with (@nil ascii). rewrite app_nil_r.
    destruct (length m mod 4 =? 0)%nat; [|done].
    destruct (rev m) as [|y r] eqn:E; [done|].
    apply strip_match. by apply (Hhead y r).
  - destruct Hlen as [Hlen | Hlen]; [|discriminate].
    rewrite length_app. change (length (replicate 1 "="%char)) with 1%nat.
    rewrite Hlen. change (0 =? 0)%nat with true. cbv iota.
    rewrite rev_app_distr. change (rev (replicate 1 "="%char)) with ["="%char].
    cbn [app].
    destruct (rev m) as [|y r] eqn:E.
    + apply (f_equal (@rev ascii)) in E. rewrite rev_involutive in E. by subst m.
    + rewrite (strip_match1 y r m (Hhead y r eq_refl)).
      by rewrite <- E, rev_involutive.
  - destruct Hlen as [Hlen | Hlen]; [|discriminate].
    rewrite length_app. change (length (replicate 2 "="%char)) with 2%nat.
    rewrite Hlen. change (0 =? 0)%nat with true. cbv iota.
    rewrite rev_app_distr. change (rev (replicate 2 "="%char)) with ["="%char; "="%char].
    cbn [app]. apply rev_involutive.
Qed.

Lemma mapM_b64val sx :
  Forall (fun v => 0 ≤ v < 64) sx →
  mapM Platform.b64val (map Platform.b64char sx) = Some sx.
Proof.
  induction 1 as [|v sx Hv _ IH]; [done|].
  simpl. destruct (sextet_facts v Hv) as (-> & _). simpl. by rewrite IH.
Qed.

Lemma filter_whitespace sx :
  Forall (fun v => 0 ≤ v < 64) sx →
  List.filter (fun c => negb (Platform.is_ascii_whitespace c))
              (map Platform.b64char sx ++ replicate 0 "="%char)
  = map Platform.b64char sx.
Proof.
  simpl. rewrite app_nil_r. induction 1 as [|v sx Hv _ IH]; [done|].
  simpl. destruct (sextet_facts v Hv) as (_ & _ & -> & _). simpl. by rewrite IH.
Qed.

Lemma filter_whitespace_padded sx k :
  Forall (fun v => 0 ≤ v < 64) sx →
  List.filter (fun c => negb (Platform.is_ascii_whitespace c))
              (map Platform.b64char sx ++ replicate k "="%char)
  = map Platform.b64char sx ++ replicate k "="%char.
Proof.
  intros H. induction H as [|v sx Hv _ IH].
  - simpl. induction k as [|k IH]; [done|]. simpl. by rewrite IH.
  - simpl. destruct (sextet_facts v Hv) as (_ & _ & -> & _). simpl. by rewrite IH.
Qed.

Lemma no_padding_char sx :
  Forall (fun v => 0 ≤ v < 64) sx →
  Forall (fun c => c ≠ "="%char) (map Platform.b64char sx).
Proof.
  induction 1 as [|v sx Hv _ IH]; [constructor|].
  simpl. constructor; [|done]. by destruct (sextet_facts v Hv) as (_ & H & _).
Qed.

(** [atob] on the characters of the sextets of a byte sequence, with the
    padding of [btoa] or without any. *)
Lemma atob_sextets bytes k :
  Spec.bytes bytes → (k ≤ 2)%nat →
  ((length (Spec.sextets bytes) + k) mod 4 = 0)%nat ∨ k = 0%nat →
  (length (Spec.sextets bytes) mod 4 ≠ 1)%nat →
  Platform.atob
    (string_of_list_ascii
       (map Platform.b64char (Spec.sextets bytes) ++ replicate k "="%char))
  = Ok bytes.
Proof.
  intros Hb Hk Hlen Hm. pose proof (sextets_range bytes Hb) as Hr.
  unfold Platform.atob. rewrite list_ascii_of_string_of_list_ascii.
  rewrite (filter_whitespace_padded _ _ Hr).
  rewrite strip_padding_btoa; [|by apply no_padding_char|done|by rewrite length_map].
  rewrite length_map.
  destruct (length (Spec.sextets bytes) mod 4 =? 1)%nat eqn:E;
    [by apply Nat.eqb_eq in E|].
  rewrite (mapM_b64val _ Hr). by rewrite (sextets_bytes_sextets _ Hb).
Qed.

(** X23: [base64ToArrayBuffer] gives back the bytes that
    [arrayBufferToBase64] encoded. *)
Theorem base64ToArrayBuffer_arrayBufferToBase64 buffer :
  Spec.bytes buffer →
  Exports.base64ToArrayBuffer (Exports.arrayBufferToBase64 buffer) = Ok buffer.
Proof.
  intros Hb. unfold Exports.base64ToArrayBuffer, Exports.arrayBufferToBase64.
  destruct (btoa_sextets buffer) as (k & Hk & -> & Hl & Hm).
  apply atob_sextets; auto.
Qed.

(** The theorem at a salt of four bytes. *)
Lemma base64ToArrayBuffer_arrayBufferToBase64_witness :
  Exports.base64ToArrayBuffer (Exports.arrayBufferToBase64 [0; 255; 16; 7])
  = Ok [0; 255; 16; 7].
Proof.
  apply (base64ToArrayBuffer_arrayBufferToBase64 [0; 255; 16; 7]).
  repeat constructor; lia.
Defined.
(** ** The share link *)

Lemma be32_bytes u : 0 ≤ u < 4294967296 → Spec.bytes (Platform.be32 u).
Proof.
  intros Hu. unfold Platform.be32, Spec.bytes.
  repeat constructor; Z.div_mod_to_equations; lia.
Qed.

Lemma utf8_bmp_bytes c : 0 ≤ c < 65536 → Spec.bytes (Platform.utf8_bmp c).
Proof.
  intros Hc. unfold Platform.utf8_bmp, Spec.bytes.
  destruct (c <? 128) eqn:E1; [apply Z.ltb_lt in E1; repeat constructor; lia|].
  apply Z.ltb_ge in E1.
  destruct (c <? 2048) eqn:E2; [apply Z.ltb_lt in E2 | apply Z.ltb_ge in E2];
    repeat constructor; Z.div_mod_to_equations; lia.
Qed.

Lemma utf8_pair_bytes hi lo :
  Platform.is_high_surrogate hi = true → Platform.is_low_surrogate lo = true →
  Spec.bytes (Platform.utf8_pair hi lo).
Proof.
  unfold Platform.is_high_surrogate, Platform.is_low_surrogate.
  intros Hh Hl. apply andb_true_iff in Hh as [Hh1 Hh2].
  apply andb_true_iff in Hl as [Hl1 Hl2].
  apply Z.leb_le in Hh1, Hh2, Hl1, Hl2.
  unfold Platform.utf8_pair, Spec.bytes.
  repeat constructor; Z.div_mod_to_equations; lia.
Qed.

Lemma TextEncoder_encode_bytes s :
  Spec.code_units s → Spec.bytes (Platform.TextEncoder_encode s).
Proof.
  enough (H : (Spec.code_units s → Spec.bytes (Platform.TextEncoder_encode s)) ∧
              ∀ c, Spec.code_units (c :: s) →
                   Spec.bytes (Platform.TextEncoder_encode (c :: s))) by apply H.
  assert (Hrep : Spec.bytes (Platform.utf8_bmp 65533))
    by (apply utf8_bmp_bytes; lia).
  induction s as [|a s [IH1 IH2]].
  - split; [constructor|]. intros c Hc. apply Forall_cons in Hc as [Hc _]. simpl.
    destruct (Platform.is_high_surrogate c); [done|].
    destruct (Platform.is_low_surrogate c); [exact Hrep|].
    rewrite app_nil_r. by apply utf8_bmp_bytes.
  - split; [apply IH2|]. intros c Hc.
    apply Forall_cons in Hc as [Hc Has].
    pose proof Has as Has'. apply Forall_cons in Has' as [Ha Hs].
    change (Platform.TextEncoder_encode (c :: a :: s)) with
      (if Platform.is_high_surrogate c then
         if Platform.is_low_surrogate a
         then Platform.utf8_pair c a ++ Platform.TextEncoder_encode s
         else Platform.utf8_bmp 65533 ++ Platform.TextEncoder_encode (a :: s)
       else if Platform.is_low_surrogate c
            then Platform.utf8_bmp 65533 ++ Platform.TextEncoder_encode (a :: s)
            else Platform.utf8_bmp c ++ Platform.TextEncoder_encode (a :: s)).
    destruct (Platform.is_high_surrogate c) eqn:Eh.
    + destruct (Platform.is_low_surrogate a) eqn:El; apply Forall_app; split;
        [by apply utf8_pair_bytes | by apply IH1 | done | by apply IH2].
    + destruct (Platform.is_low_surrogate c); apply Forall_app; split;
        [done | by apply IH2 | by apply utf8_bmp_bytes | by apply IH2].
Qed.

Lemma serverBytes_bytes serverIds : Spec.bytes (Spec.serverBytes serverIds).
Proof.
  induction serverIds as [|s l IH]; [constructor|].
  rewrite serverBytes_cons. apply Forall_app. split; [|done].
  apply be32_bytes. apply toUint32_range.
Qed.

(** What [packBundle] returns is a sequence of bytes. *)
Lemma packBundle_bytes now bundle packedData :
  Spec.code_units (Bundle.name bundle) →
  Codec.packBundle now bundle = Ok packedData → Spec.bytes packedData.
Proof.
  intros Hname. rewrite packBundle_layout.
  pose proof (length_nameBytes (Bundle.name bundle)) as Hlen.
  assert (H : Spec.bytes
                ([Z.of_nat (length (Platform.TextEncoder_encode
                                      (take 50 (Bundle.name bundle))))]
                 ++ Platform.be32 (Platform.toUint32 (Some (now / 1000)))
                 ++ Platform.TextEncoder_encode (take 50 (Bundle.name bundle))
                 ++ Spec.serverBytes (Spec.shortIds bundle))).
  { apply Forall_app. split; [repeat constructor; lia|].
    apply Forall_app.
    split; [apply be32_bytes, (toUint32_range (Some (now / 1000)))|].
    apply Forall_app. split; [|apply serverBytes_bytes].
    apply TextEncoder_encode_bytes. unfold Spec.code_units in *.
    rewrite Forall_forall in *. intros c Hc. apply Hname.
    by apply (subseteq_take 50). }
  intros [= <-]. exact H.
Qed.

Lemma dropPadding_replicate k l :
  Forall (fun c => c ≠ "="%char) l →
  Codec.dropPadding (replicate k "="%char ++ l) = l.
Proof.
  intros Hl. induction k as [|k IH]; [|done].
  simpl. destruct l as [|c l']; [done|].
  apply Forall_cons in Hl as [Hc _]. simpl.
  destruct (Ascii.eqb c "=") eqn:E; [|done].
  apply Ascii.eqb_eq in E. done.
Qed.

Lemma toStandardAlphabet_map l :
  Codec.toStandardAlphabet (string_of_list_ascii l)
  = string_of_list_ascii
      (map (fun c => if Ascii.eqb c "-" then "+"%char
                     else if Ascii.eqb c "_" then "/"%char else c) l).
Proof. induction l as [|c l IH]; [done|]. simpl. by rewrite IH. Qed.

(** The token of a byte sequence: the characters of its sextets in the URL
    alphabet; the replacements of [importFromURL] give the characters
    back. *)
Lemma token_sextets bytes :
  Spec.bytes bytes →
  ∃ token,
    string_of_list_ascii
      (rev (Codec.dropPadding
              (rev (map (fun c => if Ascii.eqb c "+" then "-"%char
                                  else if Ascii.eqb c "/" then "_"%char else c)
                        (Platform.btoa bytes))))) = token ∧
    Codec.toStandardAlphabet token
      = string_of_list_ascii (map Platform.b64char (Spec.sextets bytes)).
Proof.
  intros Hb. pose proof (sextets_range bytes Hb) as Hr.
  destruct (btoa_sextets bytes) as (k & Hk & -> & _).
  eexists. split; [reflexivity|].
  rewrite map_app, rev_app_distr.
  assert (Hpad : map (fun c => if Ascii.eqb c "+" then "-"%char
                               else if Ascii.eqb c "/" then "_"%char else c)
                     (replicate k "="%char) = replicate k "="%char).
  { clear. induction k as [|k IH]; [done|]. simpl. by rewrite IH. }
  rewrite Hpad, rev_replicate.
  rewrite dropPadding_replicate.
  - rewrite rev_involutive, toStandardAlphabet_map, map_map. f_equal.
    induction Hr as [|v sx Hv _ IH]; [done|]. simpl. rewrite IH. f_equal.
    by destruct (sextet_facts v Hv) as (_ & _ & _ & _ & H).
  - rewrite Forall_forall. intros c Hc. apply list_elem_of_In in Hc.
    apply in_rev in Hc. apply in_map_iff in Hc as (x & <- & Hx).
    apply in_map_iff in Hx as (v & <- & Hv).
    rewrite Forall_forall in Hr. apply list_elem_of_In, Hr in Hv.
    by destruct (sextet_facts v Hv) as (_ & _ & _ & H & _).
Qed.

Lemma parse_not_json c rest :
  Spec.json_start c = false → Json.parse (c :: rest) = None.
Proof.
  unfold Spec.json_start. intros H.
  repeat (apply orb_false_iff in H as [H ?]).
  assert (H48 : (c =? 48) = false).
  { destruct (c =? 48) eqn:E; [|done]. apply Z.eqb_eq in E. by subst c. }
  unfold Json.parse. cbn [Json.run]. unfold Json.step. cbn [Json.st_mode Json.st_stack].
  unfold Json.begin_value, Json.is_ws.
  rewrite H, H48.
  repeat match goal with
         | E : _ = false |- _ => rewrite E; clear E
         end.
  by destruct (c =? 93).
Qed.

(** X24: the link [shareBundle] makes is read back by [importFromURL].  For
    a bundle whose name consists of 16-bit code units, the token decodes to
    the bytes [packBundle] produced; and when the first of those bytes, the
    length of the encoded name, is not a character with which a JSON text
    can begin, the shared bundle is what [unpackBundle] makes of these bytes:
    the decoded name, the Unix time modulo 2^32 and one eight-digit id per
    entry. *)
Theorem importFromURL_shareBundle now bundle :
  Spec.code_units (Bundle.name bundle) →
  ∃ packedData token,
    Codec.packBundle now bundle = Ok packedData ∧
    Codec.shareBundle_token now bundle = Ok token ∧
    Platform.atob (Codec.toStandardAlphabet token) = Ok packedData ∧
    (Spec.json_start
       (Z.of_nat (length (Platform.TextEncoder_encode
                            (take 50 (Bundle.name bundle))))) = false →
     Codec.importFromURL_sharedBundle token
       = Ok (Codec.FromBinary
               (Codec.mkUnpacked
                  (Platform.TextDecoder_decode
                     (Platform.TextEncoder_encode (take 50 (Bundle.name bundle))))
                  ((now / 1000) mod 4294967296)
                  (map (fun serverId =>
                          Codec.hex8 (Platform.toUint32 (Platform.parseInt16 serverId)))
                       (Spec.shortIds bundle))))).
Proof.
  intros Hname.
  destruct (unpackBundle_packBundle_general now bundle) as (packedData & Hp & Hu).
  pose proof (packBundle_bytes _ _ _ Hname Hp) as Hb.
  destruct (token_sextets packedData Hb) as (token & Htok & Hstd).
  destruct (btoa_sextets packedData) as (k & _ & _ & _ & Hm).
  assert (Hatob : Platform.atob (Codec.toStandardAlphabet token) = Ok packedData).
  { rewrite Hstd.
    pose proof (atob_sextets packedData 0 Hb ltac:(lia) ltac:(by right) Hm) as H.
    change (replicate 0 "="%char) with (@nil ascii) in H.
    by rewrite app_nil_r in H. }
  exists packedData, token. split; [done|]. split.
  { unfold Codec.shareBundle_token. rewrite Hp. cbn [mbind Result_bind].
    by rewrite Htok. }
  split; [done|]. intros Hjson.
  unfold Codec.importFromURL_sharedBundle. rewrite Hatob. cbn [mbind Result_bind].
  rewrite packBundle_layout in Hp. injection Hp as <-.
  cbn [app]. rewrite (parse_not_json _ _ Hjson).
  cbn [app] in Hu. by rewrite Hu.
Qed.

(** The theorem at the bundle [demo], whose name has four bytes. *)
Lemma importFromURL_shareBundle_witness :
  ∃ packedData token,
    Codec.packBundle 1730559600123 Examples.demo = Ok packedData ∧
    Codec.shareBundle_token 1730559600123 Examples.demo = Ok token ∧
    Platform.atob (Codec.toStandardAlphabet token) = Ok packedData.
Proof.
  destruct (importFromURL_shareBundle 1730559600123 Examples.demo)
    as (packedData & token & H1 & H2 & H3 & _).
  - repeat constructor; lia.
  - exists packedData, token. split; [exact H1|]. split; [exact H2 | exact H3].
Defined.
(** ** The name in the share link *)

Ltac range_true :=
  unfold Platform.in_range; apply andb_true_iff; split; apply Z.leb_le;
  Z.div_mod_to_equations; lia.

Lemma utf8_decode_1 c rest :
  0 ≤ c < 128 →
  Platform.utf8_decode (c :: rest) = c :: Platform.utf8_decode rest.
Proof.
  intros Hc. cbn [Platform.utf8_decode].
  by replace (c <=? 127) with true by (symmetry; apply Z.leb_le; lia).
Qed.

Lemma utf8_decode_2 c rest :
  128 ≤ c < 2048 →
  Platform.utf8_decode ((192 + c / 64) :: (128 + c mod 64) :: rest)
    = c :: Platform.utf8_decode rest.
Proof.
  intros Hc. cbn [Platform.utf8_decode].
  replace (192 + c / 64 <=? 127) with false
    by (symmetry; apply Z.leb_gt; Z.div_mod_to_equations; lia).
  replace (Platform.in_range 194 223 (192 + c / 64)) with true
    by (symmetry; range_true).
  replace (Platform.in_range 128 191 (128 + c mod 64)) with true
    by (symmetry; range_true).
  f_equal. Z.div_mod_to_equations. lia.
Qed.

Lemma utf8_decode_3 c rest :
  2048 ≤ c < 65536 → ¬ (55296 ≤ c ≤ 57343) →
  Platform.utf8_decode
    ((224 + c / 4096) :: (128 + (c / 64) mod 64) :: (128 + c mod 64) :: rest)
    = c :: Platform.utf8_decode rest.
Proof.
  intros Hc Hs. cbn [Platform.utf8_decode].
  replace (224 + c / 4096 <=? 127) with false
    by (symmetry; apply Z.leb_gt; Z.div_mod_to_equations; lia).
  replace (Platform.in_range 194 223 (224 + c / 4096)) with false
    by (symmetry; unfold Platform.in_range; apply andb_false_iff; right;
        apply Z.leb_gt; Z.div_mod_to_equations; lia).
  replace (Platform.in_range 224 239 (224 + c / 4096)) with true
    by (symmetry; range_true).
  assert (H1 : Platform.in_range
                 (if 224 + c / 4096 =? 224 then 160 else 128)
                 (if 224 + c / 4096 =? 237 then 159 else 191)
                 (128 + (c / 64) mod 64) = true).
  { destruct (224 + c / 4096 =? 224) eqn:E1;
      [apply Z.eqb_eq in E1 | apply Z.eqb_neq in E1];
      (destruct (224 + c / 4096 =? 237) eqn:E2;
       [apply Z.eqb_eq in E2 | apply Z.eqb_neq in E2]);
      range_true. }
  rewrite H1.
  replace (Platform.in_range 128 191 (128 + c mod 64)) with true
    by (symmetry; range_true).
  f_equal. Z.div_mod_to_equations. lia.
Qed.

Lemma utf8_decode_4 cp rest :
  65536 ≤ cp < 1114112 →
  Platform.utf8_decode
    ((240 + cp / 262144) :: (128 + (cp / 4096) mod 64)
     :: (128 + (cp / 64) mod 64) :: (128 + cp mod 64) :: rest)
    = cp :: Platform.utf8_decode rest.
Proof.
  intros Hc. cbn [Platform.utf8_decode].
  replace (240 + cp / 262144 <=? 127) with false
    by (symmetry; apply Z.leb_gt; Z.div_mod_to_equations; lia).
  replace (Platform.in_range 194 223 (240 + cp / 262144)) with false
    by (symmetry; unfold Platform.in_range; apply andb_false_iff; right;
        apply Z.leb_gt; Z.div_mod_to_equations; lia).
  replace (Platform.in_range 224 239 (240 + cp / 262144)) with false
    by (symmetry; unfold Platform.in_range; apply andb_false_iff; right;
        apply Z.leb_gt; Z.div_mod_to_equations; lia).
  replace (Platform.in_range 240 244 (240 + cp / 262144)) with true
    by (symmetry; range_true).
  assert (H1 : Platform.in_range
                 (if 240 + cp / 262144 =? 240 then 144 else 128)
                 (if 240 + cp / 262144 =? 244 then 143 else 191)
                 (128 + (cp / 4096) mod 64) = true).
  { destruct (240 + cp / 262144 =? 240) eqn:E1;
      [apply Z.eqb_eq in E1 | apply Z.eqb_neq in E1];
      (destruct (240 + cp / 262144 =? 244) eqn:E2;
       [apply Z.eqb_eq in E2 | apply Z.eqb_neq in E2]);
      range_true. }
  rewrite H1.
  replace (Platform.in_range 128 191 (128 + (cp / 64) mod 64)) with true
    by (symmetry; range_true).
  replace (Platform.in_range 128 191 (128 + cp mod 64)) with true
    by (symmetry; range_true).
  f_equal. Z.div_mod_to_equations. lia.
Qed.

Lemma utf8_decode_bmp c rest :
  0 ≤ c < 65536 → ¬ (55296 ≤ c ≤ 57343) →
  Platform.utf8_decode (Platform.utf8_bmp c ++ rest) = c :: Platform.utf8_decode rest.
Proof.
  intros Hc Hs. unfold Platform.utf8_bmp.
  destruct (c <? 128) eqn:E1; [apply Z.ltb_lt in E1 | apply Z.ltb_ge in E1].
  - apply utf8_decode_1. lia.
  - destruct (c <? 2048) eqn:E2; [apply Z.ltb_lt in E2 | apply Z.ltb_ge in E2].
    + apply utf8_decode_2. lia.
    + apply utf8_decode_3; [lia | done].
Qed.

Lemma surrogate_range c :
  (Platform.is_high_surrogate c = true ↔ 55296 ≤ c ≤ 56319) ∧
  (Platform.is_low_surrogate c = true ↔ 56320 ≤ c ≤ 57343).
Proof.
  unfold Platform.is_high_surrogate, Platform.is_low_surrogate.
  rewrite !andb_true_iff, !Z.leb_le. tauto.
Qed.

(** The decoder reads the code points of a well-formed string back from its
    encoding. *)
Lemma utf8_decode_encode s :
  Spec.well_formed s = true →
  Platform.utf8_decode (Platform.TextEncoder_encode s) = Spec.code_points s.
Proof.
  assert (H : ∀ n s, (length s ≤ n)%nat → Spec.well_formed s = true →
              Platform.utf8_decode (Platform.TextEncoder_encode s)
                = Spec.code_points s).
  { clear s. induction n as [n IH] using lt_wf_ind. intros s Hlen Hwf.
    destruct s as [|c rest]; [done|].
    cbn [Spec.well_formed Platform.TextEncoder_encode Spec.code_points] in *.
    destruct (Platform.is_high_surrogate c) eqn:Eh.
    - destruct rest as [|d rest']; [discriminate|].
      apply andb_true_iff in Hwf as [El Hwf]. rewrite El.
      apply surrogate_range in Eh, El.
      unfold Platform.utf8_pair. cbn [app].
      rewrite utf8_decode_4 by lia. f_equal.
      apply (IH (length rest')); [simpl in Hlen; lia | lia | done].
    - apply andb_true_iff in Hwf as [Hwf Hrest].
      apply andb_true_iff in Hwf as [Hwf H2]. apply andb_true_iff in Hwf as [El H1].
      apply negb_true_iff in El. rewrite El.
      apply Z.leb_le in H1, H2.
      assert (Hns : ¬ (55296 ≤ c ≤ 57343)).
      { intros Hc.
        destruct (Z_le_gt_dec c 56319) as [Hle | Hgt].
        - assert (Platform.is_high_surrogate c = true)
            by (apply surrogate_range; lia). congruence.
        - assert (Platform.is_low_surrogate c = true)
            by (apply surrogate_range; lia). congruence. }
      rewrite utf8_decode_bmp by (done || lia). f_equal.
      apply (IH (length rest)); [simpl in Hlen; lia | lia | done]. }
  intros Hwf. by apply (H (length s)).
Qed.

Lemma utf16_of_code_points s :
  Spec.well_formed s = true →
  flat_map Platform.utf16_of (Spec.code_points s) = s.
Proof.
  assert (H : ∀ n s, (length s ≤ n)%nat → Spec.well_formed s = true →
              flat_map Platform.utf16_of (Spec.code_points s) = s).
  { clear s. induction n as [n IH] using lt_wf_ind. intros s Hlen Hwf.
    destruct s as [|c rest]; [done|].
    cbn [Spec.well_formed Spec.code_points] in *.
    destruct (Platform.is_high_surrogate c) eqn:Eh.
    - destruct rest as [|d rest']; [discriminate|].
      apply andb_true_iff in Hwf as [El Hwf].
      apply surrogate_range in Eh, El.
      cbn [flat_map]. rewrite (IH (length rest')); [|simpl in Hlen; lia|lia|done].
      unfold Platform.utf16_of.
      replace (65536 + (c - 55296) * 1024 + (d - 56320) <? 65536) with false
        by (symmetry; apply Z.ltb_ge; lia).
      cbn [app]. f_equal; [|f_equal]; Z.div_mod_to_equations; lia.
    - apply andb_true_iff in Hwf as [Hwf Hrest].
      apply andb_true_iff in Hwf as [Hwf H2]. apply Z.leb_le in H2.
      cbn [flat_map]. rewrite (IH (length rest)); [|simpl in Hlen; lia|lia|done].
      unfold Platform.utf16_of.
      by replace (c <? 65536) with true by (symmetry; apply Z.ltb_lt; lia). }
  intros Hwf. by apply (H (length s)).
Qed.

(** A code point other than the byte order mark is kept by the decoder. *)
Lemma bom_other {A} (x : Z) (a d : A) :
  x ≠ 65279 →
  match x with
  | 65279 => a
  | _ => d
  end = d.
Proof.
  intros Hx. destruct x as [|p|p]; try reflexivity.
  repeat (destruct p as [p|p|]; try reflexivity).
  by destruct Hx.
Qed.

(** [TextDecoder] reads a well-formed string back from what [TextEncoder]
    made of it, except that it drops a byte order mark at the beginning. *)
Lemma TextDecoder_TextEncoder s :
  Spec.well_formed s = true →
  Platform.TextDecoder_decode (Platform.TextEncoder_encode s)
  = match s with
    | 65279 :: rest => rest
    | _ => s
    end.
Proof.
  intros Hwf. unfold Platform.TextDecoder_decode.
  rewrite (utf8_decode_encode s Hwf).
  destruct s as [|c rest]; [done|].
  destruct (Z.eq_dec c 65279) as [->|Hne].
  - change (Spec.code_points (65279 :: rest)) with (65279 :: Spec.code_points rest).
    cbv iota. apply utf16_of_code_points.
    cbn [Spec.well_formed] in Hwf.
    change (Platform.is_high_surrogate 65279) with false in Hwf. cbv iota in Hwf.
    by apply andb_true_iff in Hwf as [_ Hwf].
  - assert (Hcp : ∃ x r, Spec.code_points (c :: rest) = x :: r ∧ x ≠ 65279).
    { cbn [Spec.code_points Spec.well_formed] in *.
      destruct (Platform.is_high_surrogate c) eqn:Eh; [|eauto].
      destruct rest as [|d rest']; [discriminate|].
      apply andb_true_iff in Hwf as [El _]. apply surrogate_range in Eh, El.
      eexists _, _. split; [reflexivity|]. lia. }
    destruct Hcp as (x & r & Hcp & Hx).
    pose proof (utf16_of_code_points _ Hwf) as Hback.
    rewrite Hcp in *.
    transitivity (c :: rest); [|symmetry; exact (bom_other c rest (c :: rest) Hne)].
    rewrite <- Hback. f_equal. exact (bom_other x r (x :: r) Hx).
Qed.
(** X25: the name survives the share codec when its first 50 code units are
    a well-formed string: [unpackBundle] of [packBundle] returns these code
    units, without a byte order mark at the beginning. *)
Theorem unpackBundle_packBundle_name now bundle :
  Spec.well_formed (take 50 (Bundle.name bundle)) = true →
  ∃ bytes unpacked,
    Codec.packBundle now bundle = Ok bytes ∧
    Codec.unpackBundle bytes = Ok unpacked ∧
    Codec.name unpacked
      = match take 50 (Bundle.name bundle) with
        | 65279 :: rest => rest
        | _ => take 50 (Bundle.name bundle)
        end.
Proof.
  intros Hwf.
  destruct (unpackBundle_packBundle_general now bundle) as (bytes & Hp & Hu).
  eexists _, _. split; [exact Hp|]. split; [exact Hu|].
  simpl. by apply TextDecoder_TextEncoder.
Qed.

(** The theorem at the bundle [demo]. *)
Lemma unpackBundle_packBundle_name_witness :
  ∃ bytes unpacked,
    Codec.packBundle 1730559600123 Examples.demo = Ok bytes ∧
    Codec.unpackBundle bytes = Ok unpacked ∧
    Codec.name unpacked = Js.lit "Demo".
Proof.
  destruct (unpackBundle_packBundle_name 1730559600123 Examples.demo)
    as (bytes & unpacked & H1 & H2 & H3); [reflexivity|].
  exists bytes, unpacked. split; [exact H1|]. split; [exact H2 | exact H3].
Defined.

(** A name whose 50th and 51st code units are a surrogate pair is cut
    between them, and comes back with U+FFFD at the end. *)
Example unpackBundle_name_cut_in_pair :
  (Codec.packBundle 0
     (Bundle.mk "1" (replicate 49 97 ++ [55357; 56832]) [] (Some []) None None 0 0 [])
     ≫= Codec.unpackBundle)
  = Ok (Codec.mkUnpacked (replicate 49 97 ++ [65533]) 0 []).
Proof. vm_compute. reflexivity. Qed.

(** ** The ids in the share link *)

Lemma hexchar_lower d :
  0 ≤ d < 16 → Spec.is_lower_hex (Platform.hexchar d) = true.
Proof.
  intros Hd.
  assert (Hall : forallb (fun d => Spec.is_lower_hex (Platform.hexchar d))
                         (map Z.of_nat (seq 0 16)) = true)
    by (vm_compute; reflexivity).
  rewrite forallb_forall in Hall. apply Hall.
  apply in_map_iff. exists (Z.to_nat d). split; [lia|]. apply in_seq. lia.
Qed.

Lemma hexN_lower k n :
  length (Spec.hexN k n) = k ∧ forallb Spec.is_lower_hex (Spec.hexN k n) = true.
Proof.
  revert n. induction k as [|k IH]; intros n; [done|].
  cbn [Spec.hexN]. destruct (IH (n / 16)) as [IH1 IH2].
  rewrite length_app, forallb_app, IH1, IH2. simpl.
  split; [lia|]. rewrite hexchar_lower; [done|].
  apply Z.mod_pos_bound. lia.
Qed.

Lemma hex8_hex_id n : 0 ≤ n < 4294967296 → Spec.hex_id (Codec.hex8 n) = true.
Proof.
  intros Hn. rewrite hex8_hexN by done. unfold Spec.hex_id.
  rewrite list_ascii_of_string_of_list_ascii.
  destruct (hexN_lower 8 n) as [-> ->]. done.
Qed.

Lemma readServerIds_hex rest servers :
  Spec.bytes rest → Codec.readServerIds rest = Ok servers →
  Forall (fun id => Spec.hex_id id = true) servers.
Proof.
  assert (H : ∀ n rest servers, (length rest ≤ n)%nat →
              Spec.bytes rest → Codec.readServerIds rest = Ok servers →
              Forall (fun id => Spec.hex_id id = true) servers).
  { clear. induction n as [n IH] using lt_wf_ind. intros rest servers Hlen Hb.
    destruct rest as [|a [|b [|c [|d rest]]]]; try discriminate.
    - intros [= <-]. constructor.
    - cbn [Codec.readServerIds]. unfold Platform.getUint32. simpl take.
      cbn [mbind Result_bind].
      destruct (Codec.readServerIds rest) as [ids|] eqn:E; [|discriminate].
      intros [= <-].
      apply Forall_cons in Hb as [Ha Hb]. apply Forall_cons in Hb as [Hb' Hb].
      apply Forall_cons in Hb as [Hc Hb]. apply Forall_cons in Hb as [Hd Hb].
      constructor.
      + apply hex8_hex_id. lia.
      + apply (IH (length rest) ltac:(simpl in Hlen; lia) rest ids); [lia|done|done]. }
  by apply (H (length rest)).
Qed.

(** X26: whatever bytes [unpackBundle] accepts, every server id it returns
    consists of eight lowercase hexadecimal characters. *)
Theorem unpackBundle_ids binaryData unpacked :
  Spec.bytes binaryData →
  Codec.unpackBundle binaryData = Ok unpacked →
  Forall (fun id => Spec.hex_id id = true) (Codec.servers unpacked).
Proof.
  intros Hb. unfold Codec.unpackBundle.
  destruct (Platform.getUint8 binaryData 0) as [nameLength|]; [|discriminate].
  cbn [mbind Result_bind].
  destruct (Platform.getUint32 binaryData (0 + 1)) as [sharedTime|]; [|discriminate].
  cbn [mbind Result_bind].
  destruct (Codec.readServerIds _) as [servers|] eqn:E; [|discriminate].
  cbn [mbind Result_bind]. intros [= <-]. simpl.
  apply (readServerIds_hex _ _ (Forall_drop _ _ _ Hb) E).
Qed.

(** The theorem at the bytes of the token of [demo]. *)
Lemma unpackBundle_ids_witness :
  ∃ unpacked,
    Codec.unpackBundle [4; 103; 38; 62; 112; 68; 101; 109; 111; 0; 0; 190; 239]
      = Ok unpacked ∧
    Forall (fun id => Spec.hex_id id = true) (Codec.servers unpacked).
Proof.
  destruct (Codec.unpackBundle
              [4; 103; 38; 62; 112; 68; 101; 109; 111; 0; 0; 190; 239])
    as [unpacked|msg] eqn:E; [|vm_compute in E; discriminate E].
  exists unpacked. split; [reflexivity|].
  apply (unpackBundle_ids
           [4; 103; 38; 62; 112; 68; 101; 109; 111; 0; 0; 190; 239] unpacked);
    [repeat constructor; lia | exact E].
Defined.

(** X27: a server id of which [parseInt] makes nothing, one that does not
    begin with a hexadecimal digit, is packed as 0: a bundle whose ids are all
    of this kind comes back from the codec with the id [00000000] for every
    entry. *)
Theorem packBundle_ids_without_digits now bundle :
  Forall (fun entry =>
            Platform.parseInt16 (String.substring 0 8 (Codec.entryId entry)) = None)
         (Spec.entries bundle) →
  ∃ bytes unpacked,
    Codec.packBundle now bundle = Ok bytes ∧
    Codec.unpackBundle bytes = Ok unpacked ∧
    Codec.servers unpacked = replicate (length (Spec.entries bundle)) "00000000".
Proof.
  intros Hids.
  destruct (unpackBundle_packBundle_general now bundle) as (bytes & Hp & Hu).
  eexists _, _. split; [exact Hp|]. split; [exact Hu|].
  simpl. unfold Spec.shortIds.
  induction Hids as [|e l He _ IH]; [done|].
  simpl. rewrite He, IH. reflexivity.
Qed.

(** The theorem at the bundle with [srv-1]. *)
Lemma packBundle_ids_without_digits_witness :
  ∃ bytes unpacked,
    Codec.packBundle 1730559600123 Examples.bundle1 = Ok bytes ∧
    Codec.unpackBundle bytes = Ok unpacked ∧
    Codec.servers unpacked = ["00000000"].
Proof.
  apply (packBundle_ids_without_digits 1730559600123 Examples.bundle1).
  repeat constructor.
Defined.

(** ** The import of a shared bundle *)

Lemma findServer_Some catalogue serverId server :
  Codec.findServer catalogue serverId = Some server →
  In server catalogue ∧ String.prefix serverId (Server.id server) = true.
Proof.
  unfold Codec.findServer. intros H. apply find_some in H as [Hin H].
  split; [done|]. apply orb_true_iff in H as [H | H]; [|done].
  apply String.eqb_eq in H. rewrite H.
  clear. induction serverId as [|c s IH]; [done|]. simpl.
  destruct (ascii_dec c c); [done|done].
Qed.

Lemma omap_filter_is_Some {A B} (f : A → option B) l :
  omap f (List.filter (fun x => bool_decide (is_Some (f x))) l) = omap f l.
Proof.
  induction l as [|x l IH]; [done|]. simpl.
  destruct (f x) as [y|] eqn:E; simpl.
  - rewrite E. f_equal. exact IH.
  - exact IH.
Qed.

(** X28: the preview [importFromURL] makes of an unpacked bundle.  It is
    refused when the name is empty or no id is found in the catalogue.
    Otherwise the preview lists, in the order of the ids, the catalogue
    server found for each id that has one, a server whose id begins with the
    shared id, and lists as invalid exactly the ids for which none is
    found. *)
Theorem importPreview_spec catalogue sharedBundle :
  match Codec.importPreview catalogue sharedBundle with
  | Ok preview =>
      Codec.name sharedBundle ≠ [] ∧
      Codec.preview_name preview = Codec.name sharedBundle ∧
      Codec.preview_sharedTime preview = Codec.sharedTime sharedBundle ∧
      Codec.preview_servers preview
        = omap (Codec.findServer catalogue) (Codec.servers sharedBundle) ∧
      Codec.preview_servers preview ≠ [] ∧
      (∀ server, In server (Codec.preview_servers preview) →
         In server catalogue ∧
         ∃ serverId, In serverId (Codec.servers sharedBundle) ∧
                     String.prefix serverId (Server.id server) = true) ∧
      (∀ serverId, In serverId (Codec.invalidServers preview) ↔
         In serverId (Codec.servers sharedBundle) ∧
         Codec.findServer catalogue serverId = None)
  | Throw _ =>
      Codec.name sharedBundle = [] ∨
      ∀ serverId, In serverId (Codec.servers sharedBundle) →
                  Codec.findServer catalogue serverId = None
  end.
Proof.
  unfold Codec.importPreview.
  destruct (Codec.name sharedBundle) as [|c name] eqn:Hname; [by left|].
  set (valid := List.filter
                  (fun serverId =>
                     bool_decide (is_Some (Codec.findServer catalogue serverId)))
                  (Codec.servers sharedBundle)).
  assert (Hvalid : ∀ serverId, In serverId valid ↔
            In serverId (Codec.servers sharedBundle) ∧
            is_Some (Codec.findServer catalogue serverId)).
  { intros serverId. unfold valid. rewrite filter_In, bool_decide_eq_true. done. }
  destruct (length valid =? 0)%nat eqn:Hlen.
  - right. intros serverId Hin. apply Nat.eqb_eq in Hlen.
    destruct (Codec.findServer catalogue serverId) as [s|] eqn:E; [|done].
    assert (Hv : In serverId valid) by (apply Hvalid; eauto).
    destruct valid; [destruct Hv | discriminate].
  - apply Nat.eqb_neq in Hlen. simpl.
    split; [done|]. split; [done|]. split; [done|].
    split; [apply omap_filter_is_Some|].
    split; [|split].
    + destruct valid as [|x valid']; [done|].
      assert (Hx : In x (x :: valid')) by (by left).
      apply Hvalid in Hx as [_ [s Hs]].
      simpl. by rewrite Hs.
    + intros server Hin. apply list_elem_of_In in Hin.
      apply list_elem_of_omap in Hin as (serverId & Hin & Hf).
      apply list_elem_of_In, Hvalid in Hin as [Hin _].
      apply findServer_Some in Hf as [H1 H2]. eauto.
    + intros serverId. rewrite filter_In. split.
      * intros [Hin Hnot]. split; [done|]. apply negb_true_iff in Hnot.
        destruct (Codec.findServer catalogue serverId) as [s|] eqn:E; [|done].
        assert (Hv : In serverId valid) by (apply Hvalid; eauto).
        assert (Hex : existsb (String.eqb serverId) valid = true).
        { apply existsb_exists. exists serverId. split; [done|].
          apply String.eqb_refl. }
        congruence.
      * intros [Hin Hnone]. split; [done|]. apply negb_true_iff.
        destruct (existsb (String.eqb serverId) valid) eqn:Hex; [|done].
        apply existsb_exists in Hex as (y & Hy & Heq).
        apply String.eqb_eq in Heq. subst y.
        apply Hvalid in Hy as [_ [s Hs]]. congruence.
Qed.

(** The theorem at the bundle unpacked from the token of [demo] and a
    catalogue that holds one of its two servers. *)
Lemma importPreview_spec_witness :
  ∃ preview,
    Codec.importPreview
      [Server.mk "deadbeef-0000-4000-8000-000000000000" "Tool" None]
      (Codec.mkUnpacked (Js.lit "Demo") 1730559600 ["0000beef"; "deadbeef"])
    = Ok preview ∧
    Codec.preview_servers preview
      = [Server.mk "deadbeef-0000-4000-8000-000000000000" "Tool" None] ∧
    (In "0000beef" (Codec.invalidServers preview)).
Proof.
  pose proof (importPreview_spec
                [Server.mk "deadbeef-0000-4000-8000-000000000000" "Tool" None]
                (Codec.mkUnpacked (Js.lit "Demo") 1730559600
                   ["0000beef"; "deadbeef"])) as H.
  destruct (Codec.importPreview _ _) as [preview|msg] eqn:E;
    [|vm_compute in E; discriminate E].
  destruct H as (_ & _ & _ & H4 & _ & _ & H7).
  exists preview. split; [reflexivity|]. split; [rewrite H4; reflexivity|].
  apply H7. split; [left; reflexivity | reflexivity].
Defined.

(** ** Confirming an import *)

Lemma getById_app items bundle bundleId :
  Bundles.getById items bundleId = None →
  Bundle.id bundle = bundleId →
  Bundles.getById (items ++ [bundle]) bundleId = Some bundle ∧
  ∀ other, other ≠ bundleId →
    Bundles.getById (items ++ [bundle]) other = Bundles.getById items other.
Proof.
  intros Hnone Hid. unfold Bundles.getById in *.
  induction items as [|b rest IH]; simpl in *.
  - rewrite Hid, String.eqb_refl. split; [done|]. intros other Hne.
    by replace (String.eqb bundleId other) with false
      by (symmetry; apply String.eqb_neq; congruence).
  - destruct (String.eqb (Bundle.id b) bundleId) eqn:E; [discriminate|].
    destruct (IH Hnone) as [IH1 IH2]. split; [done|].
    intros other Hne. destruct (String.eqb (Bundle.id b) other); [done|].
    by apply IH2.
Qed.

Lemma name_addServer now items bundleId serverId packageIndex bundle :
  Bundles.getById items bundleId = Some bundle →
  ∃ bundle',
    Bundles.addServer now items bundleId serverId packageIndex
      = Ok (Bundles.put bundle' items, bundle') ∧
    Bundle.id bundle' = bundleId ∧ Bundle.name bundle' = Bundle.name bundle ∧
    ((Bundles.found_truthy
        (List.find (Bundles.isServer serverId) (Spec.entries bundle)) = true ∧
      Spec.entries bundle' = Spec.entries bundle) ∨
     (Bundles.found_truthy
        (List.find (Bundles.isServer serverId) (Spec.entries bundle)) = false ∧
      Spec.entries bundle'
        = Spec.entries bundle ++ [NewEntry serverId packageIndex None])).
Proof.
  intros Hget. pose proof (getById_id _ _ _ Hget) as Hid.
  unfold Bundles.addServer. rewrite Hget. fold (Spec.entries bundle).
  destruct (Bundles.found_truthy _) eqn:E; simpl; eexists; (split; [reflexivity|]);
    simpl; repeat split; try done; [left | right]; done.
Qed.

Lemma hasEntry_entries bundle entry :
  In entry (Spec.entries bundle) → Spec.hasEntry bundle (Codec.entryId entry).
Proof.
  unfold Spec.entries, Spec.hasEntry. intros Hin.
  destruct (Bundle.servers bundle) as [l|]; [|destruct Hin]. by exists l, entry.
Qed.

(** The loop of [confirmImport], with the servers handled so far. *)
Lemma addServers_entries clock bundleId servers :
  ∀ k items bundle handled,
    Bundles.getById items bundleId = Some bundle →
    (∀ entry, In entry (Spec.entries bundle) →
       ∃ server, In server handled ∧ entry = NewEntry (Server.id server) 0 None) →
    (∀ server, In server handled → Spec.hasEntry bundle (Server.id server)) →
    List.NoDup (map Codec.entryId (Spec.entries bundle)) →
    ∃ items' bundle',
      Codec.addServers clock k items bundleId servers = Ok items' ∧
      Bundles.getById items' bundleId = Some bundle' ∧
      Bundle.name bundle' = Bundle.name bundle ∧
      (∀ entry, In entry (Spec.entries bundle') →
         ∃ server, In server (handled ++ servers) ∧
                   entry = NewEntry (Server.id server) 0 None) ∧
      (∀ server, In server (handled ++ servers) →
         Spec.hasEntry bundle' (Server.id server)) ∧
      List.NoDup (map Codec.entryId (Spec.entries bundle')) ∧
      length items' = length items ∧
      ∀ other, other ≠ bundleId →
        Bundles.getById items' other = Bundles.getById items other.
Proof.
  induction servers as [|s rest IH]; intros k items bundle handled Hget H1 H2 H3.
  - exists items, bundle. rewrite app_nil_r. simpl. done.
  - simpl.
    destruct (name_addServer (clock k) items bundleId (Server.id s) 0 bundle Hget)
      as (b' & -> & Hid & Hname & Hcase).
    cbn [mbind Result_bind fst].
    assert (Hget' : Bundles.getById (Bundles.put b' items) bundleId = Some b')
      by (by apply (getById_put _ _ bundle)).
    assert (Hent : ∀ e, In e (Spec.entries b') →
              In e (Spec.entries bundle) ∨ e = NewEntry (Server.id s) 0 None).
    { intros e He. destruct Hcase as [[_ Hc] | [_ Hc]]; rewrite Hc in He;
        [by left|].
      apply in_app_or in He as [He | [<- | []]]; auto. }
    assert (Hhas : ∀ sid, Spec.hasEntry bundle sid → Spec.hasEntry b' sid).
    { intros sid (l & e & Hl & Hin & He).
      assert (Hin' : In e (Spec.entries b')).
      { assert (Hold : In e (Spec.entries bundle))
          by (unfold Spec.entries; by rewrite Hl).
        destruct Hcase as [[_ Hc] | [_ Hc]]; rewrite Hc;
          [done | apply in_or_app; by left]. }
      rewrite <- He. by apply hasEntry_entries. }
    destruct (IH (S k) (Bundles.put b' items) b' (handled ++ [s]) Hget')
      as (items' & bundle' & Hok & Hg & Hn & G1 & G2 & G3 & G4 & G5).
    + intros e He. destruct (Hent e He) as [Hold | ->].
      * destruct (H1 e Hold) as (server & Hs & ->). exists server.
        split; [apply in_or_app; by left | done].
      * exists s. split; [apply in_or_app; right; by left | done].
    + intros server Hs. apply in_app_or in Hs as [Hs | [<- | []]].
      * by apply Hhas, H2.
      * destruct Hcase as [[Hf He] | [Hf He]].
        -- destruct (List.find (Bundles.isServer (Server.id s)) (Spec.entries bundle))
             as [e|] eqn:F; [|discriminate].
           apply find_some in F as [Hin Hp]. apply isServer_entryId in Hp.
           assert (Hin' : In e (Spec.entries b')) by (by rewrite He).
           rewrite <- Hp. by apply hasEntry_entries.
        -- assert (Hin' : In (NewEntry (Server.id s) 0 None) (Spec.entries b'))
             by (rewrite He; apply in_or_app; right; by left).
           by apply hasEntry_entries in Hin'.
    + destruct Hcase as [[_ Hc] | [Hf Hc]]; rewrite Hc; [done|].
      rewrite map_app. simpl. apply NoDup_ListNoDup, NoDup_app.
      split; [by apply NoDup_ListNoDup|]. split; [|apply NoDup_singleton].
      intros x Hx Hx'. apply list_elem_of_In in Hx. apply list_elem_of_In in Hx'.
      destruct Hx' as [<- | []].
      apply in_map_iff in Hx as (e & He & Hin).
      destruct (find_isServer_present (Server.id s) (Spec.entries bundle))
        as (e' & Hfind & He'); [eauto|].
      rewrite Hfind in Hf. apply find_some in Hfind as [Hin' _].
      destruct (H1 e' Hin') as (server & _ & ->). discriminate Hf.
    + exists items', bundle'. split; [done|]. split; [done|].
      split; [congruence|]. rewrite <- app_assoc in G1, G2.
      split; [done|]. split; [done|]. split; [done|].
      split; [by rewrite G4, length_put|].
      intros other Hne. rewrite G5 by done. apply getById_put_other. congruence.
Qed.

(** X29: when the id made of the clock is not taken, [confirmImport] adds
    one bundle to the store, under the trimmed name of the preview, and leaves
    the others as they were.  The new bundle has one entry for each server of
    the preview, counted once, and no other entry; each entry is of the new
    format, with package index 0 and no connection. *)
Theorem confirmImport_entries clock items preview :
  Bundles.getById items (pretty (clock 0%nat)) = None →
  ∃ items' bundle',
    Codec.confirmImport clock items preview = Ok items' ∧
    Bundles.getById items' (pretty (clock 0%nat)) = Some bundle' ∧
    Bundle.name bundle' = Js.trim (Codec.preview_name preview) ∧
    (∀ entry, In entry (Spec.entries bundle') →
       ∃ server, In server (Codec.preview_servers preview) ∧
                 entry = NewEntry (Server.id server) 0 None) ∧
    (∀ server, In server (Codec.preview_servers preview) →
       Spec.hasEntry bundle' (Server.id server)) ∧
    List.NoDup (map Codec.entryId (Spec.entries bundle')) ∧
    length items' = S (length items) ∧
    ∀ other, other ≠ pretty (clock 0%nat) →
      Bundles.getById items' other = Bundles.getById items other.
Proof.
  intros Hfresh. unfold Codec.confirmImport, Bundles.create.
  set (bundle := Bundle.mk (pretty (clock 0%nat))
                   (Js.trim (Codec.preview_name preview)) (Js.trim [])
                   (Some []) (Some ∅) None (clock 0%nat) (clock 0%nat) []).
  destruct (getById_app items bundle (pretty (clock 0%nat)) Hfresh eq_refl)
    as [Hget Hother].
  destruct (addServers_entries clock (pretty (clock 0%nat))
              (Codec.preview_servers preview) 1 (items ++ [bundle]) bundle []
              Hget)
    as (items' & bundle' & Hok & Hg & Hn & G1 & G2 & G3 & G4 & G5).
  - intros entry [].
  - intros server [].
  - constructor.
  - exists items', bundle'. split; [exact Hok|]. split; [done|].
    split; [done|]. split; [done|]. split; [done|]. split; [done|].
    split; [rewrite G4, length_app; simpl; lia|].
    intros other Hne. rewrite G5 by done. by apply Hother.
Qed.

(** The theorem at an empty store and a preview that names one server
    twice. *)
Lemma confirmImport_entries_witness :
  ∃ items' bundle',
    Codec.confirmImport (fun k => 5000 + Z.of_nat k) []
      (Codec.mkPreview (Js.lit " Demo ") 1730559600
         [Server.mk "srv-1" "Tool" None; Server.mk "srv-1" "Tool" None] [])
    = Ok items' ∧
    Bundles.getById items' "5000" = Some bundle' ∧
    Bundle.name bundle' = Js.lit "Demo" ∧
    length items' = 1%nat.
Proof.
  destruct (confirmImport_entries (fun k => 5000 + Z.of_nat k) []
              (Codec.mkPreview (Js.lit " Demo ") 1730559600
                 [Server.mk "srv-1" "Tool" None; Server.mk "srv-1" "Tool" None] []))
    as (items' & bundle' & H1 & H2 & H3 & _ & _ & _ & H7 & _); [reflexivity|].
  exists items', bundle'. split; [exact H1|]. split; [exact H2|].
  split; [exact H3 | exact H7].
Defined.
(** ** [exportCustomFormat] *)

(** X30: [exportCustomFormat] writes a server for an entry only when the
    entry is of the old format and its id is in the catalogue.  An entry of
    the new format, the only kind [addServer] makes, is compared as an object
    with the ids and never found: a bundle whose entries are all of the new
    format is exported without servers. *)
Theorem exportCustomFormat_old_entries_only catalogue bundle servers id :
  Bundle.servers bundle = Some servers →
  ∃ ids,
    Exports.exportCustomFormat_ids catalogue bundle = Ok ids ∧
    (In id ids ↔
     In (OldEntry id) servers ∧
     ∃ server, In server catalogue ∧ Server.id server = id) ∧
    ((∀ entry, In entry servers →
        ∃ serverId packageIndex connectionId,
          entry = NewEntry serverId packageIndex connectionId) →
     ids = []).
Proof.
  intros Hs. unfold Exports.exportCustomFormat_ids. rewrite Hs.
  eexists. split; [reflexivity|]. clear Hs. split.
  - induction servers as [|e rest IH]; simpl; [tauto|].
    destruct e as [x|x p c].
    + destruct (List.find (fun s => String.eqb (Server.id s) x) catalogue)
        as [s|] eqn:F; simpl.
      * apply find_some in F as [Hin Hx]. apply String.eqb_eq in Hx.
        rewrite IH. split.
        -- intros [<- | H]; [|tauto]. split; [by left | eauto].
        -- intros [[[= ->] | H] Hex]; [by left | tauto].
      * rewrite IH. split; [tauto|].
        intros [[[= ->] | H] Hex]; [|tauto].
        destruct Hex as (server & Hin & Hid).
        apply (find_none _ _ F) in Hin. simpl in Hin.
        apply String.eqb_neq in Hin. done.
    + rewrite IH. split; [tauto|]. intros [[H | H] Hex]; [discriminate | tauto].
  - intros Hnew. induction servers as [|e rest IH]; [done|].
    simpl. destruct (Hnew e ltac:(by left)) as (x & p & c & ->).
    apply IH. intros entry Hin. apply Hnew. by right.
Qed.

(** The theorem at the bundle with [srv-1], made by [create] and
    [addServer], and a catalogue that holds [srv-1]. *)
Lemma exportCustomFormat_old_entries_only_witness :
  Exports.exportCustomFormat_ids
    [Server.mk "srv-1" "Acme Tool" (Some [Examples.org_tool])] Examples.bundle1
  = Ok [].
Proof.
  destruct (exportCustomFormat_old_entries_only
              [Server.mk "srv-1" "Acme Tool" (Some [Examples.org_tool])]
              Examples.bundle1 [NewEntry "srv-1" 0 None] "srv-1")
    as (ids & H1 & _ & H3); [vm_compute; reflexivity|].
  rewrite H1. f_equal. apply H3.
  intros entry [<- | []]. eauto.
Defined.
